(** * models/common.py: a shallow embedding and its verified properties

    The Python module [models/common.py] holds the layer blocks of the YOLOv5
    variants of this repository, the multi-backend inference wrapper
    [DetectMultiBackend], the input-robust wrapper [AutoShape] and the CoAtNet
    backbone.  The first part of this file embeds the functions the verified
    properties are about; the second part states and proves the properties. *)

From Stdlib Require Import List String Ascii Bool Arith ZArith QArith Lia Reals Lra.
From Stdlib Require Import DecimalString.
Import ListNotations.
Close Scope Q_scope.
Close Scope R_scope.

Set Implicit Arguments.

(* ===================================================================== *)
(** * Part I: the embedding                                              *)
(* ===================================================================== *)

(** ** Python exceptions as an error monad *)

Module Py.

Inductive exn : Type :=
| AssertionError
| ValueError
| IndexError
| KeyError
| ZeroDivisionError
| RuntimeError
| AttributeError
| Exception (msg : string).

Inductive result (A : Type) : Type :=
| Ok (a : A)
| Raise (e : exn).

Arguments Ok {A} a.
Arguments Raise {A} e.

Definition bind {A B : Type} (m : result A) (k : A -> result B) : result B :=
  match m with
  | Ok a => k a
  | Raise e => Raise e
  end.

(** [xs[i]] *)
Definition item {A : Type} (xs : list A) (i : nat) : result A :=
  match nth_error xs i with
  | Some x => Ok x
  | None => Raise IndexError
  end.

(** [[f(a) for a in xs]], stopping at the first exception. *)
Fixpoint mapM {A B : Type} (f : A -> result B) (xs : list A) : result (list B) :=
  match xs with
  | [] => Ok []
  | a :: xs' =>
      match f a with
      | Ok b => match mapM f xs' with
                | Ok bs => Ok (b :: bs)
                | Raise e => Raise e
                end
      | Raise e => Raise e
      end
  end.

End Py.

Import Py.

Declare Scope py_scope.
Delimit Scope py_scope with py.
Notation "x <- m ;; k" := (Py.bind m (fun x => k))
  (at level 61, m at next level, right associativity) : py_scope.

(** ** Calls into the outside world, in the order they happen *)

Module Io.

(** The events of a run, with its result or the exception that stopped
    it. *)
Definition io (E A : Type) : Type := (list E * result A)%type.

Definition io_ret {E A : Type} (a : A) : io E A := ([], Ok a).

Definition io_raise {E A : Type} (e : exn) : io E A := ([], Raise e).

Definition io_lift {E A : Type} (r : result A) : io E A := ([], r).

Definition io_bind {E A B : Type} (m : io E A) (k : A -> io E B) : io E B :=
  match m with
  | (tr, Ok a) => let '(tr', r) := k a in ((tr ++ tr')%list, r)
  | (tr, Raise e) => (tr, Raise e)
  end.

(** One call, recorded as the event [c] and answered with [a]. *)
Definition io_call {E A : Type} (c : E) (a : A) : io E A := ([c], Ok a).

(** A loop over [xs] that collects the results. *)
Fixpoint io_mapM {E A B : Type} (f : A -> io E B) (xs : list A) : io E (list B) :=
  match xs with
  | [] => io_ret []
  | a :: xs' =>
      io_bind (f a) (fun b => io_bind (io_mapM f xs') (fun bs => io_ret (b :: bs)))
  end.

End Io.

(** ** Strings and paths *)

Module Str.

Local Open Scope string_scope.

(** Python's [s in p] on strings: [s] occurs in [p] as a contiguous run. *)
Fixpoint contains (s p : string) : bool :=
  String.prefix s p ||
  match p with
  | EmptyString => false
  | String _ p' => contains s p'
  end.

(** [p.split('/')] *)
Fixpoint split_slash (p : string) : list string :=
  match p with
  | EmptyString => [EmptyString]
  | String c p' =>
      if Ascii.eqb c "/"%char then EmptyString :: split_slash p'
      else match split_slash p' with
           | [] => [String c EmptyString]
           | h :: t => String c h :: t
           end
  end.

(** [pathlib.PurePosixPath(p).name]: the last path component, where empty
    components (doubled or trailing separators) and [.] components are
    dropped by the path parser; the empty string when nothing is left. *)
Definition Path_name (p : string) : string :=
  last (filter (fun x => negb (x =? EmptyString) && negb (x =? ".")) (split_slash p))
       EmptyString.

End Str.

(** ** DetectMultiBackend: backend flags *)

Module Backend.

Local Open Scope string_scope.
Local Open Scope py_scope.

(** The tuple returned by [model_type]. *)
Record flags : Type := Flags {
  pt : bool; jit : bool; onnx : bool; xml : bool; engine : bool;
  coreml : bool; saved_model : bool; pb : bool; tflite : bool;
  edgetpu : bool; tfjs : bool }.

Section ModelType.

(** [list(export_formats().Suffix)]: the table lives in [export.py]. *)
Variable export_suffixes : list string.

(** [utils.general.check_suffix(p, suffixes)]: [false] stands for its
    failed assertion. *)
Variable check_suffix : string -> list string -> bool.

(** [DetectMultiBackend.model_type].  Unpacking the generator into twelve
    names raises [ValueError] when the table has another length. *)
Definition model_type (p : string) : result flags :=
  let suffixes := (export_suffixes ++ [".xml"])%list in
  if negb (check_suffix p suffixes) then Raise AssertionError else
  let p := Str.Path_name p in
  match map (fun s => Str.contains s p) suffixes with
  | [pt; jit; onnx; xml; engine; coreml; saved_model; pb; tflite; edgetpu; tfjs; xml2] =>
      let xml := xml || xml2 in
      let tflite := tflite && negb edgetpu in
      Ok (Flags pt jit onnx xml engine coreml saved_model pb tflite edgetpu tfjs)
  | _ => Raise ValueError
  end.

End ModelType.

(** Modelled from the spec: the suffix column of [export_formats()] of
    [export.py], which is not among the sources, for the runtimes the spec
    names, with the suffixes that the usage comment of
    [DetectMultiBackend.__init__] and the comments of [model_type] give
    ([*.pt], [*.torchscript], [*.onnx], [*_openvino_model], [*.engine],
    [*.mlmodel], [*_saved_model], [*.pb], [*.tflite], [*_edgetpu.tflite]);
    the TF.js entry is a directory [*_web_model].  The properties below hold
    for every table; this one serves the examples. *)
Definition yolov5_suffixes : list string :=
  [".pt"; ".torchscript"; ".onnx"; "_openvino_model"; ".engine"; ".mlmodel";
   "_saved_model"; ".pb"; ".tflite"; "_edgetpu.tflite"; "_web_model"].

End Backend.

(** ** DetectMultiBackend: construction and forward *)

Module DMB.

Import Backend Io.
Local Open Scope string_scope.
Local Open Scope py_scope.

Inductive device : Type := cpu | cuda.

Definition is_cpu (d : device) : bool :=
  match d with cpu => true | cuda => false end.

(** The [weights] argument: one path or a list of paths. *)
Inductive weights : Type :=
| WPath (p : string)
| WList (ps : list string).

(** The loaders of [__init__], one per [if]/[elif] arm. *)
Inductive backend : Type :=
| PyTorch | TorchScript | OpenCV_DNN | ONNX_Runtime | OpenVINO | TensorRT
| CoreML | SavedModel | GraphDef | TFLite | EdgeTPU.

(** What a vendor loader reports back to [__init__]: the model metadata
    ([stride], [names]) when it carries some, whether a TensorRT input
    binding is float16, and the shape of the TensorRT [images] binding. *)
Record loaded : Type := Loaded {
  l_meta : option (nat * list string);
  l_fp16_input : bool;
  l_images_shape : list nat }.

(** The attributes [self.__dict__.update(locals())] leaves on the object
    that [forward] and [AutoShape] read. *)
Record t : Type := Self {
  fl : flags;
  dnn : bool;
  dev : device;
  fp16 : bool;
  keras : bool;
  stride : nat;
  names : list string;
  net : option backend;
  images_shape : list nat }.

(** Equality of shapes, as [==] on tuples of sizes. *)
Fixpoint shape_eqb (a b : list nat) : bool :=
  match a, b with
  | [], [] => true
  | x :: a', y :: b' => Nat.eqb x y && shape_eqb a' b'
  | _, _ => false
  end.

Definition tfjs_message : string :=
  "ERROR: YOLOv5 TF.js inference is not supported".

(** [[f'class{i}' for i in range(1000)]] *)
Definition default_names : list string :=
  map (fun i => "class" ++ NilEmpty.string_of_uint (Nat.to_uint i)) (seq 0 1000).

Section Init.

Variable export_suffixes : list string.
Variable check_suffix : string -> list string -> bool.
(** [models.experimental.attempt_download] *)
Variable attempt_download : string -> result string.
(** [yaml.safe_load(f)['names']] on the opened [data] file *)
Variable load_names : string -> result (list string).
(** the vendor loader of each arm, on the weights it is handed *)
Variable vendor_load : backend -> weights -> result loaded.

Definition first_weight (ws : weights) : result string :=
  match ws with
  | WPath p => Ok p
  | WList (p :: _) => Ok p
  | WList [] => Raise IndexError
  end.

Definition meta_or (l : loaded) (s : nat) (n : list string) : nat * list string :=
  match l_meta l with
  | Some (s', n') => (s', n')
  | None => (s, n)
  end.

(** The [if]/[elif] chain of [__init__] that loads the model: [ws] is
    the [weights] argument, [w] the path after [attempt_download]. *)
Definition load (ws : weights) (w : string) (f : flags) (device : device)
           (dnn fp16 : bool) (names : list string) : result t :=
  let stride := 32 in
  let self b fp16 keras stride names shape :=
    Self f dnn device fp16 keras stride names b shape in
  if pt f then
    l <- vendor_load PyTorch (match ws with WList _ => ws | WPath _ => WPath w end) ;;
    let '(s, n) := meta_or l stride names in
    Ok (self (Some PyTorch) fp16 false (Nat.max s 32) n [])
  else if jit f then
    l <- vendor_load TorchScript (WPath w) ;;
    let '(s, n) := meta_or l stride names in
    Ok (self (Some TorchScript) fp16 false s n [])
  else if dnn then
    _ <- vendor_load OpenCV_DNN (WPath w) ;;
    Ok (self (Some OpenCV_DNN) fp16 false stride names [])
  else if onnx f then
    l <- vendor_load ONNX_Runtime (WPath w) ;;
    let '(s, n) := meta_or l stride names in
    Ok (self (Some ONNX_Runtime) fp16 false s n [])
  else if xml f then
    _ <- vendor_load OpenVINO (WPath w) ;;
    Ok (self (Some OpenVINO) fp16 false stride names [])
  else if engine f then
    l <- vendor_load TensorRT (WPath w) ;;
    Ok (self (Some TensorRT) (l_fp16_input l) false stride names (l_images_shape l))
  else if coreml f then
    _ <- vendor_load CoreML (WPath w) ;;
    Ok (self (Some CoreML) fp16 false stride names [])
  else
    if saved_model f then
      _ <- vendor_load SavedModel (WPath w) ;;
      Ok (self (Some SavedModel) fp16 false stride names [])
    else if pb f then
      _ <- vendor_load GraphDef (WPath w) ;;
      Ok (self (Some GraphDef) fp16 false stride names [])
    else if tflite f || edgetpu f then
      if edgetpu f then
        _ <- vendor_load EdgeTPU (WPath w) ;;
        Ok (self (Some EdgeTPU) fp16 false stride names [])
      else
        _ <- vendor_load TFLite (WPath w) ;;
        Ok (self (Some TFLite) fp16 false stride names [])
    else if tfjs f then
      Raise (Exception tfjs_message)
    else Ok (self None fp16 false stride names []).

(** [DetectMultiBackend.__init__] *)
Definition init (ws : weights) (device : device) (dnn : bool)
           (data : option string) (fp16 : bool) : result t :=
  w <- first_weight ws ;;
  f <- model_type export_suffixes check_suffix w ;;
  let names := default_names in
  w <- attempt_download w ;;
  let fp16 := fp16 && ((pt f || jit f || onnx f || engine f) && negb (is_cpu device)) in
  names <- match data with
           | Some d => if d =? EmptyString then Ok names else load_names d
           | None => Ok names
           end ;;
  load ws w f device dnn fp16 names.

End Init.

(** *** forward *)

(** The calls [forward] makes on the objects the loaders created. *)
Inductive call : Type :=
| model_call (augment visualize : bool)  (* self.model(im, augment=, visualize=) *)
| jit_call                               (* self.model(im) *)
| net_setInput                           (* self.net.setInput(im) *)
| net_forward                            (* self.net.forward() *)
| session_get_outputs                    (* self.session.get_outputs() *)
| session_get_inputs                     (* self.session.get_inputs() *)
| session_run                            (* self.session.run(...) *)
| executable_network_call                (* self.executable_network([im]) *)
| context_execute_v2                     (* self.context.execute_v2(...) *)
| coreml_predict                         (* self.model.predict({'image': im}) *)
| saved_model_call (keras : bool)        (* self.model(im, training=False) / self.model(im) *)
| tf_constant                            (* self.tf.constant(im) *)
| frozen_func_call                       (* self.frozen_func(x=...) *)
| interpreter_set_tensor                 (* self.interpreter.set_tensor(...) *)
| interpreter_invoke                     (* self.interpreter.invoke() *)
| interpreter_get_tensor.                (* self.interpreter.get_tensor(...) *)

Section Forward.

(** The contents of an array, whatever holds it. *)
Variable data : Type.

(** A value [y] can hold: a torch tensor on a device or a numpy array. *)
Inductive value : Type :=
| Tensor (d : device) (x : data)
| NDArray (x : data).

Definition payload (v : value) : data :=
  match v with Tensor _ x => x | NDArray x => x end.

Definition on_payload (f : data -> data) (v : value) : value :=
  match v with Tensor d x => Tensor d (f x) | NDArray x => NDArray (f x) end.

(** The input [im]: a torch tensor with its shape. *)
Record image_batch : Type := Im {
  im_dev : device;
  im_shape : list nat;
  im_data : data }.

(** What CoreML's [predict] yields: a dict with [confidence] and
    [coordinates], or a dict of [var_<n>] outputs, of which the one with
    the largest number is taken. *)
Inductive coreml_out : Type :=
| Boxes (coordinates confidence : data)
| Vars (last : value).

(** The runtimes behind the calls: what each one answers. *)
Record runtime : Type := Runtime {
  rt_model : bool -> bool -> data -> value;
  rt_jit : data -> value;
  rt_net_forward : data -> value;
  rt_session_run : data -> value;
  rt_executable_network : data -> value;
  rt_execute_v2 : data -> data;
  rt_predict : data -> coreml_out;
  rt_saved_model : bool -> data -> data;
  rt_frozen_func : data -> data;
  rt_input_int8 : bool;
  rt_invoke : data -> value }.

(** The array arithmetic of [forward], on array contents. *)
Variable permute_0231 : data -> data.        (* im.permute(0, 2, 3, 1) *)
Variable to_pil : data -> data.              (* Image.fromarray((im[0] * 255).astype('uint8')) *)
Variable coreml_rows : nat -> nat -> data -> data -> data.
                                              (* box, conf, cls concatenated *)
Variable descale : data -> data.             (* (im / scale + zero_point).astype(np.uint8) *)
Variable rescale : data -> data.             (* (y.astype(np.float32) - zero_point) * scale *)
Variable to_pixels : nat -> nat -> data -> data.  (* y[..., :4] *= [w, h, w, h] *)

Variable rt : runtime.

Notation "x <~ m ;; k" := (io_bind m (fun x => k))
  (at level 61, m at next level, right associativity).

(** The [if]/[elif] chain of [forward] that computes [y].  Its last arm
    reads [self.input_details], which [__init__] sets in its arm for TFLite
    and Edge TPU weights only: on an object built with no backend at all the
    attribute is missing. *)
Definition infer (self : t) (im : image_batch) (augment visualize : bool) : io call value :=
  match im_shape im with
  | [b; ch; h; w] =>
      let x := im_data im in
      if pt (fl self) then
        io_call (model_call augment visualize) (rt_model rt augment visualize x)
      else if jit (fl self) then
        io_call jit_call (rt_jit rt x)
      else if dnn self then
        _ <~ io_call net_setInput tt ;;
        io_call net_forward (rt_net_forward rt x)
      else if onnx (fl self) then
        _ <~ io_call session_get_outputs tt ;;
        _ <~ io_call session_get_inputs tt ;;
        io_call session_run (rt_session_run rt x)
      else if xml (fl self) then
        io_call executable_network_call (rt_executable_network rt x)
      else if engine (fl self) then
        if shape_eqb (im_shape im) (images_shape self)
        then
          out <~ io_call context_execute_v2 (rt_execute_v2 rt x) ;;
          io_ret (Tensor (dev self) out)
        else io_raise AssertionError
      else if coreml (fl self) then
        let x := to_pil (permute_0231 x) in
        y <~ io_call coreml_predict (rt_predict rt x) ;;
        match y with
        | Boxes coordinates confidence =>
            io_ret (NDArray (coreml_rows w h coordinates confidence))
        | Vars last => io_ret last
        end
      else
        let x := permute_0231 x in
        y <~ (if saved_model (fl self) then
                out <~ io_call (saved_model_call (keras self))
                               (rt_saved_model rt (keras self) x) ;;
                io_ret (NDArray out)
              else if pb (fl self) then
                _ <~ io_call tf_constant tt ;;
                out <~ io_call frozen_func_call (rt_frozen_func rt x) ;;
                io_ret (NDArray out)
              else if tflite (fl self) || edgetpu (fl self) then
                let int8 := rt_input_int8 rt in
                let x := if int8 then descale x else x in
                _ <~ io_call interpreter_set_tensor tt ;;
                _ <~ io_call interpreter_invoke tt ;;
                y <~ io_call interpreter_get_tensor (rt_invoke rt x) ;;
                io_ret (if int8 then NDArray (rescale (payload y)) else y)
              else io_raise AttributeError) ;;
        io_ret (on_payload (to_pixels w h) y)
  | _ => io_raise ValueError
  end.

(** What [forward] returns: [y] alone or the pair [(y, [])]. *)
Inductive ret : Type :=
| Single (y : value)
| Pair (y : value) (aux : list value).

(** [if isinstance(y, np.ndarray): y = torch.tensor(y, device=self.device)] *)
Definition to_torch (self : t) (y : value) : value :=
  match y with
  | NDArray x => Tensor (dev self) x
  | Tensor _ _ => y
  end.

(** [DetectMultiBackend.forward] *)
Definition forward (self : t) (im : image_batch) (augment visualize val : bool) : io call ret :=
  y <~ infer self im augment visualize ;;
  let y := to_torch self y in
  io_ret (if val then Pair y [] else Single y).

End Forward.

End DMB.

(** ** CoAtNet *)

Module CoAt.

Local Open Scope py_scope.

(** The block constructors a stage is made of. *)
Inductive block : Type := conv_3x3_bn | MBConv | Transformer.

(** A constructed block: the constructor and the arguments of its call
    ([downsample] defaults to [False] in the three constructors). *)
Record layer : Type := Layer {
  l_block : block;
  l_inp : nat;
  l_oup : nat;
  l_image_size : nat * nat;
  l_downsample : bool }.

(** [CoAtNet._make_layer] *)
Definition _make_layer (b : block) (inp oup depth : nat) (image_size : nat * nat)
  : list layer :=
  map (fun i => if i =? 0 then Layer b inp oup image_size true
                else Layer b oup oup image_size false)
      (seq 0 depth).

(** The dict [{'C': MBConv, 'T': Transformer}]. *)
Definition block_of (k : string) : result block :=
  if (k =? "C")%string then Ok MBConv
  else if (k =? "T")%string then Ok Transformer
  else Raise KeyError.

Record t : Type := Net {
  s0 : list layer; s1 : list layer; s2 : list layer; s3 : list layer; s4 : list layer;
  pool : nat;            (* nn.AvgPool2d(ih // 32, 1) *)
  fc : nat * nat }.      (* nn.Linear(channels[-1], num_classes, bias=False) *)

Definition default_block_types : list string := ["C"; "C"; "T"; "T"]%string.

(** [CoAtNet.__init__].  The blocks are recorded by the arguments of
    their constructors and not built: what a constructor refuses ([MBConv]
    with no input channel asks [nn.Conv2d] for [groups=0]) is not part of the
    record, and the properties of the network are stated for positive
    numbers of channels. *)
Definition init (image_size : nat * nat) (in_channels : nat)
           (num_blocks channels : list nat) (num_classes : nat)
           (block_types : list string) : result t :=
  let '(ih, iw) := image_size in
  c0 <- item channels 0 ;;
  n0 <- item num_blocks 0 ;;
  let s0 := _make_layer conv_3x3_bn in_channels c0 n0 (ih / 2, iw / 2) in
  t0 <- item block_types 0 ;; b1 <- block_of t0 ;;
  c1 <- item channels 1 ;; n1 <- item num_blocks 1 ;;
  let s1 := _make_layer b1 c0 c1 n1 (ih / 4, iw / 4) in
  t1 <- item block_types 1 ;; b2 <- block_of t1 ;;
  c2 <- item channels 2 ;; n2 <- item num_blocks 2 ;;
  let s2 := _make_layer b2 c1 c2 n2 (ih / 8, iw / 8) in
  t2 <- item block_types 2 ;; b3 <- block_of t2 ;;
  c3 <- item channels 3 ;; n3 <- item num_blocks 3 ;;
  let s3 := _make_layer b3 c2 c3 n3 (ih / 16, iw / 16) in
  t3 <- item block_types 3 ;; b4 <- block_of t3 ;;
  c4 <- item channels 4 ;; n4 <- item num_blocks 4 ;;
  let s4 := _make_layer b4 c3 c4 n4 (ih / 32, iw / 32) in
  Ok (Net s0 s1 s2 s3 s4 (ih / 32) (last channels 0, num_classes)).

(** *** Shapes through the blocks *)

(** The size a convolution or pooling window of kernel [k], stride [s] and
    padding [p] leaves of a side of [n] cells. *)
Definition window_out (n k s p : nat) : result nat :=
  if n + 2 * p <? k then Raise RuntimeError
  else Ok ((n + 2 * p - k) / s + 1).

Definition window_out2 (hw : nat * nat) (k s p : nat) : result (nat * nat) :=
  h <- window_out (fst hw) k s p ;;
  w <- window_out (snd hw) k s p ;;
  Ok (h, w).

Definition same_size (a b : nat * nat) : bool :=
  (fst a =? fst b) && (snd a =? snd b).

(** The shape [(c, (h, w))] of the output of a block on an input of that
    shape, following the [forward] of the block:
    - [conv_3x3_bn]: [Conv2d(inp, oup, 3, stride, 1)] with stride 2 when
      [downsample];
    - [MBConv]: [proj(pool(x)) + conv(x)] with [MaxPool2d(3, 2, 1)] and a
      first [Conv2d(inp, hidden, 1, 2, 0)] when [downsample], [x + conv(x)]
      otherwise;
    - [Transformer]: [proj(pool1(x)) + attn(pool2(x))] with
      [MaxPool2d(3, 2, 1)] when [downsample], [x + attn(x)] otherwise, where
      [attn] and [ff] rearrange to and from [(ih, iw)] of [image_size]. *)
Definition layer_out (l : layer) (x : nat * (nat * nat)) : result (nat * (nat * nat)) :=
  let '(c, hw) := x in
  if negb (c =? l_inp l) then Raise RuntimeError else
  match l_block l with
  | conv_3x3_bn =>
      let stride := if l_downsample l then 2 else 1 in
      hw' <- window_out2 hw 3 stride 1 ;;
      Ok (l_oup l, hw')
  | MBConv =>
      if l_downsample l then
        pooled <- window_out2 hw 3 2 1 ;;
        conv1 <- window_out2 hw 1 2 0 ;;
        conv2 <- window_out2 conv1 3 1 1 ;;
        if same_size pooled conv2 then Ok (l_oup l, pooled) else Raise RuntimeError
      else
        conv1 <- window_out2 hw 1 1 0 ;;
        conv2 <- window_out2 conv1 3 1 1 ;;
        if same_size hw conv2 && (l_inp l =? l_oup l) then Ok (l_oup l, hw)
        else Raise RuntimeError
  | Transformer =>
      hw' <- (if l_downsample l then window_out2 hw 3 2 1 else Ok hw) ;;
      if same_size hw' (l_image_size l) && (l_downsample l || (l_inp l =? l_oup l))
      then Ok (l_oup l, hw')
      else Raise RuntimeError
  end.

(** [nn.Sequential] over the layers of a stage *)
Fixpoint sequential (ls : list layer) (x : nat * (nat * nat)) : result (nat * (nat * nat)) :=
  match ls with
  | [] => Ok x
  | l :: ls' => y <- layer_out l x ;; sequential ls' y
  end.

(** The five stages of [CoAtNet.forward], ahead of the pooling. *)
Definition stages (net : t) (x : nat * (nat * nat)) : result (nat * (nat * nat)) :=
  x <- sequential (s0 net) x ;;
  x <- sequential (s1 net) x ;;
  x <- sequential (s2 net) x ;;
  x <- sequential (s3 net) x ;;
  sequential (s4 net) x.

(** [coatnet_0] *)
Definition coatnet_0 : result t :=
  init (224, 224) 3 [2; 2; 3; 5; 2] [64; 96; 192; 384; 768] 1000 default_block_types.

End CoAt.

(** ** Tensors as contiguous buffers: view and permute *)

Module Tensor.

Local Open Scope py_scope.

(** A contiguous tensor: its sizes and its elements in row-major order. *)
Record t (A : Type) : Type := Make {
  shape : list nat;
  data : list A }.

(** The number of elements a shape holds. *)
Definition numel (sh : list nat) : nat := fold_right Nat.mul 1 sh.

(** The buffer holds as many elements as the shape says. *)
Definition wf {A : Type} (x : t A) : Prop :=
  List.length (data x) = numel (shape x).

(** The multi-index of the element at offset [k] of a row-major buffer. *)
Fixpoint unravel (sh : list nat) (k : nat) : list nat :=
  match sh with
  | [] => []
  | _ :: rest => k / numel rest :: unravel rest (k mod numel rest)
  end.

(** The offset of the element at multi-index [idx]. *)
Fixpoint ravel (sh idx : list nat) : nat :=
  match sh, idx with
  | _ :: rest, i :: idx' => i * numel rest + ravel rest idx'
  | _, _ => 0
  end.

(** [x.view(sh)]: the same buffer under another shape of the same size. *)
Definition view {A : Type} (x : t A) (sh : list nat) : result (t A) :=
  if numel sh =? numel (shape x) then Ok (Make sh (data x))
  else Raise RuntimeError.

(** The elements of [xs] at the offsets [ks]. *)
Definition gather {A : Type} (xs : list A) (ks : list nat) : list A :=
  match xs with
  | [] => []
  | a :: _ => map (fun k => nth k xs a) ks
  end.

(** The multi-index in a tensor of [rank] axes of the element that
    [permute] by [dims] puts at multi-index [j]: its coordinate on axis [a]
    is the coordinate of [j] on the axis [d] with [dims[d] = a]. *)
Definition source_index (rank : nat) (dims j : list nat) : list nat :=
  map (fun a => match find (fun dp => snd dp =? a) (combine j dims) with
                | Some (i, _) => i
                | None => 0
                end)
      (seq 0 rank).

(** [x.permute(dims).contiguous()], for [dims] a permutation of the axes:
    axis [d] of the result is axis [dims[d]] of [x], and the elements are
    laid out anew in row-major order. *)
Definition permute {A : Type} (x : t A) (dims : list nat) : t A :=
  let sh := map (fun d => nth d (shape x) 0) dims in
  let rank := List.length (shape x) in
  Make sh (gather (data x)
                  (map (fun k => ravel (shape x) (source_index rank dims (unravel sh k)))
                       (seq 0 (numel sh)))).

End Tensor.

(** ** Contract and Expand *)

Module Reorg.

Import Tensor.
Local Open Scope py_scope.

(** [a // b] *)
Definition floordiv (a b : nat) : result nat :=
  if b =? 0 then Raise ZeroDivisionError else Ok (a / b).

(** [Contract.forward], for [gain = s] *)
Definition Contract_forward {A : Type} (s : nat) (x : t A) : result (t A) :=
  match shape x with
  | [b; c; h; w] =>
      hs <- floordiv h s ;;
      ws <- floordiv w s ;;
      x <- view x [b; c; hs; s; ws; s] ;;
      let x := permute x [0; 3; 5; 1; 2; 4] in
      view x [b; c * s * s; hs; ws]
  | _ => Raise ValueError
  end.

(** [Expand.forward], for [gain = s] *)
Definition Expand_forward {A : Type} (s : nat) (x : t A) : result (t A) :=
  match shape x with
  | [b; c; h; w] =>
      cs <- floordiv c (s ^ 2) ;;
      x <- view x [b; s; s; cs; h; w] ;;
      let x := permute x [0; 3; 4; 1; 5; 2] in
      view x [b; cs; h * s; w * s]
  | _ => Raise ValueError
  end.

End Reorg.

(** ** SPP and SPPF *)

Module Pool.

Section Pool.

(** The elements of a feature map and their maximum. *)
Variable A : Type.
Variable max : A -> A -> A.

(** One channel of one image: rows of cells. *)
Definition plane : Type := list (list A).

(** A batch: images, each a list of channels. *)
Definition tensor4 : Type := list (list plane).

(** The cell at row [i] and column [j], if there is one. *)
Definition cell (x : plane) (i j : nat) : option A :=
  nth_error (nth i x []) j.

(** The cells along one side of [n] cells that the window of kernel [k]
    and padding [p] at output position [i] covers: padded positions
    [i .. i + k - 1], that is cells [a] with [i <= a + p < i + k]. *)
Definition window (k p n i : nat) : list nat :=
  filter (fun a => (i <=? a + p) && (a + p <? i + k)) (seq 0 n).

(** The cells of [x] under the window at output position [(i, j)]; the
    padding holds minus infinity and so adds nothing to a maximum. *)
Definition under (k p : nat) (x : plane) (i j : nat) : list A :=
  flat_map (fun a =>
              flat_map (fun b => match cell x a b with
                                 | Some v => [v]
                                 | None => []
                                 end)
                       (window k p (List.length (hd [] x)) j))
           (window k p (List.length x) i).

(** The output cell at [(i, j)]: the maximum of the cells under the
    window (no cell when the window lies in the padding altogether). *)
Definition pooled (k p : nat) (x : plane) (i j : nat) : list A :=
  match under k p x i j with
  | [] => []
  | v :: vs => [fold_left max vs v]
  end.

(** [nn.MaxPool2d(kernel_size=k, stride=1, padding=p)] on one plane: the
    output has [n + 2 * p - k + 1] cells along a side of [n] cells. *)
Definition maxpool2d (k p : nat) (x : plane) : plane :=
  map (fun i => flat_map (pooled k p x i)
                         (seq 0 (List.length (hd [] x) + 2 * p + 1 - k)))
      (seq 0 (List.length x + 2 * p + 1 - k)).

(** The pooling layer on a batch: every channel of every image. *)
Definition MaxPool2d (k p : nat) (x : tensor4) : tensor4 :=
  map (map (maxpool2d k p)) x.

(** [torch.cat(xs, 1)] for tensors of one batch size: the channels of the
    tensors one after the other, image by image. *)
Definition cat1 (xs : list tensor4) : tensor4 :=
  match xs with
  | [] => []
  | x0 :: _ => map (fun n => flat_map (fun x => nth n x []) xs)
                   (seq 0 (List.length x0))
  end.

(** The two [Conv] blocks of each module, as functions on batches. *)
Variable cv1 cv2 : tensor4 -> tensor4.

(** [SPP.forward], for the kernels [ks] *)
Definition SPP_forward (ks : list nat) (x : tensor4) : tensor4 :=
  let x := cv1 x in
  cv2 (cat1 (x :: map (fun k => MaxPool2d k (k / 2) x) ks)).

(** [SPPF.forward], for the kernel [k] *)
Definition SPPF_forward (k : nat) (x : tensor4) : tensor4 :=
  let x := cv1 x in
  let m := MaxPool2d k (k / 2) in
  let y1 := m x in
  let y2 := m y1 in
  cv2 (cat1 [x; y1; y2; m y2]).

End Pool.

End Pool.

(** ** Channel attention: SE, ECA and the channel step of CBAM *)

Module Attention.

Import Pool.
Local Open Scope py_scope.

(** Tensor cells are real numbers here: rounding and overflow of the
    floating-point cells of torch are left out. *)
Definition tensor : Type := tensor4 R.

(** A tensor of shape [(b, c, 1, 1)] or [(b, c)]: one number per image and
    channel. *)
Definition per_channel : Type := list (list R).

(** [nn.Sigmoid] *)
Definition sigmoid (z : R) : R := (1 / (1 + exp (- z)))%R.

(** [nn.ReLU] *)
Definition relu (z : R) : R := Rmax 0%R z.

Definition sum (xs : list R) : R := fold_right Rplus 0%R xs.

Definition dot (a b : list R) : R :=
  sum (map (fun ab => (fst ab * snd ab)%R) (combine a b)).

(** [nn.AdaptiveAvgPool2d(1)] on one plane; a plane without cells is
    refused. *)
Definition plane_mean (p : plane R) : result R :=
  match List.concat p with
  | [] => Raise RuntimeError
  | v :: vs => Ok (sum (v :: vs) / INR (List.length (v :: vs)))%R
  end.

(** [nn.AdaptiveMaxPool2d(1)] on one plane *)
Definition plane_max (p : plane R) : result R :=
  match List.concat p with
  | [] => Raise RuntimeError
  | v :: vs => Ok (fold_left Rmax vs v)
  end.

Definition avg_pool (x : tensor) : result per_channel := mapM (mapM plane_mean) x.

Definition max_pool (x : tensor) : result per_channel := mapM (mapM plane_max) x.

(** [nn.Linear(in_features, out_features, bias=False)], and the weights
    of [nn.Conv2d(in, out, 1, bias=False)] on a tensor of shape
    [(b, in, 1, 1)]: the rows of [weight] are the output features. *)
Record Linear : Type := MkLinear {
  in_features : nat;
  weight : list (list R) }.

Definition linear (l : Linear) (v : list R) : result (list R) :=
  if List.length v =? in_features l then Ok (map (fun row => dot row v) (weight l))
  else Raise RuntimeError.

(** The layer is of [i] input and [o] output features. *)
Definition Linear_of (i o : nat) (l : Linear) : Prop :=
  in_features l = i /\ List.length (weight l) = o /\
  Forall (fun row => List.length row = i) (weight l).

(** A layer applied to each image of the batch. *)
Definition rows (f : list R -> result (list R)) (y : per_channel) : result per_channel :=
  mapM f y.

Definition pointwise (f : R -> R) (y : per_channel) : per_channel := map (map f) y.

(** One image times its channel weights: [img * w] with [w] of shape
    [(c', 1, 1)], under the broadcasting rule on the channel axis. *)
Definition mul_image (img : list (plane R)) (w : list R) : result (list (plane R)) :=
  let scale p wt := map (map (fun v => (v * wt)%R)) p in
  if List.length w =? List.length img then
    Ok (map (fun pw => scale (fst pw) (snd pw)) (combine img w))
  else match w, img with
       | [wt], _ => Ok (map (fun p => scale p wt) img)
       | _, [p] => Ok (map (fun wt => scale p wt) w)
       | _, _ => Raise RuntimeError
       end.

(** [x * y] for [y] of shape [(b, c', 1, 1)] over the same batch. *)
Definition mul (x : tensor) (y : per_channel) : result tensor :=
  if List.length y =? List.length x then
    mapM (fun iw => mul_image (fst iw) (snd iw)) (combine x y)
  else Raise RuntimeError.

(** [y.expand_as(x)] for [y] of shape [(b, c', 1, 1)]: [c'] is the number
    of channels of [x] or 1. *)
Definition expand_as (y : per_channel) (x : tensor) : result per_channel :=
  if List.length y =? List.length x then
    mapM (fun iw => let '(img, w) := iw in
                    if List.length w =? List.length img then Ok w
                    else match w with
                         | [wt] => Ok (repeat wt (List.length img))
                         | _ => Raise RuntimeError
                         end)
         (combine x y)
  else Raise RuntimeError.

(** [y.view(b, c)] and [y.view(b, c, 1, 1)], with [b] and [c] taken from
    [x.size()]: the rows of [y] must hold [c] numbers each. *)
Definition view_bc (y : per_channel) (x : tensor) : result per_channel :=
  if (List.length y =? List.length x) &&
     forallb (fun iw => List.length (snd iw) =? List.length (fst iw)) (combine x y)
  then Ok y else Raise RuntimeError.

(** *** SE *)

Record SE : Type := MkSE { l1 : Linear; l2 : Linear }.

(** [SE.__init__(c1, c2, r)] builds [nn.Linear(c1, c1 // r, bias=False)]
    and [nn.Linear(c1 // r, c1, bias=False)]. *)
Definition SE_init (c1 r : nat) (m : SE) : Prop :=
  Linear_of c1 (c1 / r) (l1 m) /\ Linear_of (c1 / r) c1 (l2 m).

(** [SE.forward] *)
Definition SE_forward (m : SE) (x : tensor) : result tensor :=
  y <- avg_pool x ;;
  y <- view_bc y x ;;
  y <- rows (linear (l1 m)) y ;;
  let y := pointwise relu y in
  y <- rows (linear (l2 m)) y ;;
  let y := pointwise sigmoid y in
  y <- view_bc y x ;;
  y <- expand_as y x ;;
  mul x y.

(** *** SE of the CoAtNet blocks *)

(** The second class of the name [SE] in the file, used by [MBConv]:
    [fc] is [Linear(oup, hidden)], [GELU], [Linear(hidden, oup)], [Sigmoid]
    with [hidden = int(inp * expansion)]. *)
Record SE_coat : Type := MkSEcoat { fc1 : Linear; fc2 : Linear }.

Definition SE_coat_init (oup hidden : nat) (m : SE_coat) : Prop :=
  Linear_of oup hidden (fc1 m) /\ Linear_of hidden oup (fc2 m).

(** [SE.forward] of that class, for [gelu] the function of [nn.GELU] *)
Definition SE_coat_forward (gelu : R -> R) (m : SE_coat) (x : tensor) : result tensor :=
  y <- avg_pool x ;;
  y <- view_bc y x ;;
  y <- rows (linear (fc1 m)) y ;;
  let y := pointwise gelu y in
  y <- rows (linear (fc2 m)) y ;;
  let y := pointwise sigmoid y in
  y <- view_bc y x ;;
  mul x y.

(** *** ECA *)





(** *** CBAM: channel attention *)

Record ChannelAttention : Type := MkCA { f1 : Linear; f2 : Linear }.

(** [ChannelAttention.__init__(in_planes, ratio)] builds the 1x1
    convolutions [in_planes -> in_planes // ratio -> in_planes]. *)
Definition ChannelAttention_init (in_planes ratio : nat) (m : ChannelAttention) : Prop :=
  Linear_of in_planes (in_planes / ratio) (f1 m) /\
  Linear_of (in_planes / ratio) in_planes (f2 m).

(** A 1x1 convolution on a tensor of shape [(b, in, 1, 1)]: unlike
    [nn.Linear], it refuses weights of no output channel. *)
Definition conv1x1 (l : Linear) (y : per_channel) : result per_channel :=
  if List.length (weight l) =? 0 then Raise RuntimeError else rows (linear l) y.

Definition add (a b : per_channel) : per_channel :=
  map (fun ab => map (fun uv => (fst uv + snd uv)%R) (combine (fst ab) (snd ab)))
      (combine a b).

(** [ChannelAttention.forward] *)
Definition ChannelAttention_forward (m : ChannelAttention) (x : tensor) : result per_channel :=
  a <- avg_pool x ;;
  a <- conv1x1 (f1 m) a ;;
  a <- conv1x1 (f2 m) (pointwise relu a) ;;
  b <- max_pool x ;;
  b <- conv1x1 (f1 m) b ;;
  b <- conv1x1 (f2 m) (pointwise relu b) ;;
  Ok (pointwise sigmoid (add a b)).

(** The channel step of [CBAMBottleneck.forward]:
    [self.channel_attention(x1) * x1]. *)
Definition channel_reweight (m : ChannelAttention) (x1 : tensor) : result tensor :=
  y <- ChannelAttention_forward m x1 ;;
  mul x1 y.

End Attention.

(** ** The rows of a prediction *)

Module Rows.

Local Open Scope Q_scope.

(** A detection: the corners of its box, its confidence and its class. *)
Record row : Type := Row {
  box : Q * Q * Q * Q;     (* x1, y1, x2, y2 *)
  score : Q;
  cls : nat }.

(** The larger and the smaller of two numbers; on floats, which are
    rationals, they are exact. *)
Definition qmax (a b : Q) : Q := if Qle_bool a b then b else a.

Definition qmin (a b : Q) : Q := if Qle_bool a b then a else b.

End Rows.

(** ** AutoShape *)

Module AutoShape.

Import Io Rows.
Local Open Scope py_scope.

(** A numpy image of three axes, and a stack of them. *)
Definition array3 : Type := list (list (list Q)).
Definition batch : Type := list array3.

(** A numpy image: of two axes (height, width) or of three. *)
Inductive ndarray : Type :=
| Arr2 (a : list (list Q))
| Arr3 (a : array3).

(** The attributes of an [AutoShape] object. *)
Record t : Type := Self {
  conf : Q;
  iou : Q;
  agnostic : bool;
  multi_label : bool;
  classes : option (list nat);
  max_det : nat;
  amp : bool;
  dmb : bool;
  pt : bool;
  stride : nat;
  names : list string }.

(** The model handed to [AutoShape]: a [DetectMultiBackend] or a torch
    model with its [stride] and [names]. *)
Inductive wrapped : Type :=
| Plain (stride : nat) (names : list string)
| Backend (m : DMB.t).

(** [AutoShape.__init__], under the class attributes [conf = 0.25],
    [iou = 0.45], [agnostic = False], [multi_label = False], [classes = None],
    [max_det = 1000], [amp = False]. *)
Definition init (model : wrapped) : t :=
  match model with
  | Plain s n => Self 0.25 0.45 false false None 1000 false false true s n
  | Backend m =>
      Self 0.25 0.45 false false None 1000 false true (Backend.pt (DMB.fl m))
           (DMB.stride m) (DMB.names m)
  end.

(** What [forward] calls outside of numpy. *)
Inductive event : Type :=
| time_sync_call (k : nat)
| Image_open_call (p : string)
| letterbox_call (i : nat) (new_shape : nat * nat)
| model_call (x : batch) (augment profile : bool)
| non_max_suppression_call (conf_thres iou_thres : Q) (classes : option (list nat))
                           (agnostic multi_label : bool) (max_det : nat)
| scale_coords_call (i : nat).

(** [im.transpose((1, 2, 0))]: channels first to channels last. *)
Definition chw_to_hwc (a : array3) : array3 :=
  map (fun i => map (fun j => map (fun plane => nth j (nth i plane []) 0%Q) a)
                    (seq 0 (List.length (hd [] (hd [] a)))))
      (seq 0 (List.length (hd [] a))).

(** [im.transpose((2, 0, 1))] on each image of [np.array(x)], that is
    [.transpose((0, 3, 1, 2))] on the stack: channels last to channels
    first. *)
Definition hwc_to_chw (a : array3) : array3 :=
  map (fun c => map (map (fun px => nth c px 0%Q)) a)
      (seq 0 (List.length (hd [] (hd [] a)))).

(** The test on [im.shape[0] < 5] and the line that enforces three
    channels: [im[..., :3]] on three axes, [np.tile(im[..., None], 3)] on
    two. *)
Definition enforce_3ch (im : ndarray) : result array3 :=
  match im with
  | Arr3 a =>
      let a := if List.length a <? 5 then chw_to_hwc a else a in
      Ok (map (map (firstn 3)) a)
  | Arr2 a =>
      if List.length a <? 5 then Raise ValueError
      else Ok (map (map (fun v => [v; v; v])) a)
  end.

Definition shape3 (a : array3) : nat * nat * nat :=
  (List.length a, List.length (hd [] a), List.length (hd [] (hd [] a))).

Definition shape3_eqb (s s' : nat * nat * nat) : bool :=
  let '(a, b, c) := s in
  let '(a', b', c') := s' in
  (a =? a') && (b =? b') && (c =? c').

(** [np.array(x)] on a list of images: they must be of one shape. *)
Definition stack (xs : list array3) : result batch :=
  match xs with
  | [] => Ok []
  | a :: rest =>
      if forallb (fun b => shape3_eqb (shape3 b) (shape3 a)) rest then Ok xs
      else Raise ValueError
  end.

(** [f'image{i}'] *)
Definition image_name (i : nat) : string :=
  ("image" ++ NilEmpty.string_of_uint (Nat.to_uint i))%string.

Definition of_nat (n : nat) : Q := inject_Z (Z.of_nat n).

(** What the loop over the images keeps of one image. *)
Record prepared : Type := Prepared {
  p_im : array3;           (* imgs[i] *)
  p_file : string;         (* files[i] *)
  p_shape0 : nat * nat;    (* shape0[i] *)
  p_shape1 : Q * Q }.      (* shape1[i] *)

(** The detections object. *)
Record Detections : Type := MkDetections {
  d_imgs : list array3;
  d_pred : list (list row);
  d_names : list string;
  d_files : list string;
  d_times : list Q;
  d_xyxy : list (list row);
  d_n : nat;
  d_s : list nat }.

(** [Detections.__init__]: [pred[0].device] needs a first prediction, and
    the three durations of [self.t] read [times[0]] to [times[3]]; the
    durations themselves and the [xywh], [xyxyn] and [xywhn] views derived
    from [pred] through [xyxy2xywh] are left out. *)
Definition Detections_init (imgs : list array3) (pred : list (list row))
           (files : list string) (times : list Q) (names : list string)
           (shape : list nat) : result Detections :=
  match pred with
  | [] => Raise IndexError
  | _ =>
      if List.length times <? 4 then Raise IndexError
      else Ok (MkDetections imgs pred names files times pred (List.length pred) shape)
  end.

(** A source of an image. *)
Section Forward.

(** PIL images. *)
Variable pil : Type.
(** [Image.open] on a file name or on the stream of a URL. *)
Variable Image_open : string -> result pil.
(** [np.asarray(exif_transpose(im))] *)
Variable asarray : pil -> ndarray.
(** [getattr(im, 'filename', None)] *)
Variable filename : pil -> option string.
(** [Path(f).with_suffix('.jpg').name] *)
Variable jpg_name : string -> result string.
(** The floats of Python are the rationals they stand for, and their
    operations round: [true_div size m] is [size / m] and [float_mul y g]
    is [y * g], on integers [size], [m], [y] and a float [g]. *)
Variable true_div : nat -> nat -> Q.
Variable float_mul : nat -> Q -> Q.
(** [utils.general.make_divisible] *)
Variable make_divisible : Q -> nat -> nat.
(** [utils.dataloaders.letterbox(im, new_shape, auto=False)[0]] *)
Variable letterbox : array3 -> nat * nat -> array3.
(** [v / 255] on a cell of the tensor, in the floats of the parameters of
    the model. *)
Variable div_255 : Q -> Q.
(** The wrapped model and what it returns; [index0 y] is [y[0]]. *)
Variable raw : Type.
Variable model : batch -> bool -> bool -> raw.
Variable index0 : raw -> raw.
(** [utils.general.non_max_suppression] *)
Variable non_max_suppression :
  raw -> Q -> Q -> option (list nat) -> bool -> bool -> nat -> list (list row).
(** [utils.general.scale_coords(img1_shape, coords, img0_shape)] on the
    box of one row; it works in place on the rows it is given. *)
Variable scale_coords : nat * nat -> Q * Q * Q * Q -> nat * nat -> Q * Q * Q * Q.
(** The reading of the [k]-th call of [time_sync]. *)
Variable time_sync : nat -> Q.

Inductive source : Type :=
| Src_path (p : string)      (* str or Path: a file name or a URI *)
| Src_pil (im : pil)         (* PIL image *)
| Src_array (a : ndarray).   (* numpy or OpenCV image *)

Inductive input : Type :=
| Torch (x : batch)
| Single (s : source)
| Several (l : list source).

Inductive output : Type :=
| Raw (y : raw)
| Detected (d : Detections).

Notation "x <~ m ;; k" := (io_bind m (fun x => k))
  (at level 61, m at next level, right associativity).

(** The body of the loop over the images. *)
Definition prepare (size : nat) (ix : nat * source) : io event prepared :=
  let '(i, src) := ix in
  let f := image_name i in
  imf <~ match src with
         | Src_path p =>
             im <~ io_call (Image_open_call p) (Image_open p) ;;
             im <~ io_lift im ;;
             io_ret (asarray im, p)
         | Src_pil im =>
             io_ret (asarray im,
                     match filename im with
                     | Some s => if (s =? EmptyString)%string then f else s
                     | None => f
                     end)
         | Src_array a => io_ret (a, f)
         end ;;
  file <~ io_lift (jpg_name (snd imf)) ;;
  im <~ io_lift (enforce_3ch (fst imf)) ;;
  let s := (List.length im, List.length (hd [] im)) in
  let m := Nat.max (fst s) (snd s) in
  if (m =? 0)%nat then io_raise ZeroDivisionError else
  let g := true_div size m in
  io_ret (Prepared im file s (float_mul (fst s) g, float_mul (snd s) g)).

(** The inference shape: [np.array(shape1).max(0)], made divisible by the
    stride for a torch model and replaced by [size] otherwise. *)
Definition inference_shape (self : t) (size : nat) (ps : list prepared)
  : result (nat * nat) :=
  match map p_shape1 ps with
  | [] => Raise ValueError
  | s :: rest =>
      let m := fold_left (fun acc s => (qmax (fst acc) (fst s), qmax (snd acc) (snd s)))
                         rest s in
      Ok (if pt self
          then (make_divisible (fst m) (stride self), make_divisible (snd m) (stride self))
          else (size, size))
  end.

(** [x / 255] *)
Definition scale_255 (x : batch) : batch :=
  map (map (map (map div_255))) x.

(** [x.shape] of the stack *)
Definition shape4 (x : batch) : list nat :=
  [List.length x; List.length (hd [] x); List.length (hd [] (hd [] x));
   List.length (hd [] (hd [] (hd [] x)))].

(** The box of [r] rescaled in place. *)
Definition rescale (shape1 shape0 : nat * nat) (r : row) : row :=
  Row (scale_coords shape1 (box r) shape0) (score r) (cls r).

(** [AutoShape.forward]; the device and the type of the parameters of
    the model, which the tensors are moved and cast to, and the autocast
    context are left out. *)
Definition forward (self : t) (imgs : input) (size : nat) (augment profile : bool)
  : io event output :=
  t0 <~ io_call (time_sync_call 0) (time_sync 0) ;;
  let images (srcs : list source) : io event output :=
    let n := List.length srcs in
    ps <~ io_mapM (prepare size) (combine (seq 0 n) srcs) ;;
    shape1 <~ io_lift (inference_shape self size ps) ;;
    x <~ io_mapM (fun ip => io_call (letterbox_call (fst ip) shape1)
                                    (letterbox (p_im (snd ip)) shape1))
                 (combine (seq 0 n) ps) ;;
    x <~ io_lift (stack x) ;;
    let x := scale_255 (map hwc_to_chw x) in
    t1 <~ io_call (time_sync_call 1) (time_sync 1) ;;
    y <~ io_call (model_call x augment profile) (model x augment profile) ;;
    t2 <~ io_call (time_sync_call 2) (time_sync 2) ;;
    y <~ io_call (non_max_suppression_call (conf self) (iou self) (classes self)
                    (agnostic self) (multi_label self) (max_det self))
                 (non_max_suppression (if dmb self then y else index0 y)
                    (conf self) (iou self) (classes self)
                    (agnostic self) (multi_label self) (max_det self)) ;;
    scaled <~ io_mapM (fun ip => rows <~ io_lift (item y (fst ip)) ;;
                                 io_call (scale_coords_call (fst ip))
                                         (map (rescale shape1 (p_shape0 (snd ip))) rows))
                      (combine (seq 0 n) ps) ;;
    let y := (scaled ++ skipn n y)%list in
    t3 <~ io_call (time_sync_call 3) (time_sync 3) ;;
    d <~ io_lift (Detections_init (map p_im ps) y (map p_file ps) [t0; t1; t2; t3]
                                  (names self) (shape4 x)) ;;
    io_ret (Detected d) in
  match imgs with
  | Torch x =>
      y <~ io_call (model_call x augment profile) (model x augment profile) ;;
      io_ret (Raw y)
  | Single s => images [s]
  | Several l => images l
  end.

End Forward.

End AutoShape.

(** ** DetectMultiBackend: warmup *)

Module Warm.

Import Backend Io DMB.

(** [for _ in range(n): m]: the results are dropped. *)
Fixpoint io_times {E A : Type} (n : nat) (m : io E A) : io E unit :=
  match n with
  | 0 => io_ret tt
  | S n' => io_bind m (fun _ => io_times n' m)
  end.

Section Warmup.

Variable data : Type.
Variable permute_0231 to_pil : data -> data.
Variable coreml_rows : nat -> nat -> data -> data -> data.
Variable descale rescale : data -> data.
Variable to_pixels : nat -> nat -> data -> data.
Variable rt : runtime data.

(** The contents of [torch.zeros( *imgsz, dtype=torch.half if fp16 else
    torch.float)]. *)
Variable zeros : list nat -> bool -> data.

(** [DetectMultiBackend.warmup] *)
Definition warmup (self : t) (imgsz : list nat) : io call unit :=
  if pt (fl self) || jit (fl self) || onnx (fl self) || engine (fl self)
     || saved_model (fl self) || pb (fl self)
  then
    if negb (is_cpu (dev self)) then
      let im := Im (dev self) imgsz (zeros imgsz (fp16 self)) in
      io_times (if jit (fl self) then 2 else 1)
               (forward permute_0231 to_pil coreml_rows descale rescale to_pixels
                        rt self im false false false)
    else io_ret tt
  else io_ret tt.

End Warmup.

End Warm.

(** ** Detections *)

Module Results.

Import Rows AutoShape.
Local Open Scope py_scope.

(** [Detections.__len__] *)
Definition __len__ (d : Detections) : nat := d_n d.

(** [Detections.tolist]: one [Detections] object for each image. *)
Definition tolist (d : Detections) : result (list Detections) :=
  mapM (fun i =>
          im <- item (d_imgs d) i ;;
          p <- item (d_pred d) i ;;
          f <- item (d_files d) i ;;
          Detections_init [im] [p] [f] (d_times d) (d_names d) (d_s d))
       (seq 0 (d_n d)).

End Results.

(** ** The hard activations of coordinate attention *)

Module Hard.

(** [nn.ReLU6] *)
Definition relu6 (z : R) : R := Rmin (Rmax 0 z) 6.

(** [h_sigmoid.forward]: [self.relu(x + 3) / 6] *)
Definition h_sigmoid (x : R) : R := (relu6 (x + 3) / 6)%R.

(** [h_swish.forward]: [x * self.sigmoid(x)] *)
Definition h_swish (x : R) : R := (x * h_sigmoid x)%R.

End Hard.

(** ** Conv, DWConv, Bottleneck, C3, GhostConv and SPP: the shapes *)

Module Blocks.

Import CoAt.
Local Open Scope py_scope.

(** A kernel size, a stride or a padding: an [int] or a sequence. *)
Inductive size : Type :=
| Int (k : nat)
| Seq (ks : list nat).

(** [autopad(k, p=None)] *)
Definition autopad (k : size) (p : option size) : size :=
  match p with
  | Some p => p
  | None => match k with
            | Int k => Int (k / 2)
            | Seq ks => Seq (map (fun x => x / 2) ks)
            end
  end.

(** The arguments an [nn.Conv2d] is built with. *)
Record Conv2d : Type := MkConv2d {
  in_channels : nat;
  out_channels : nat;
  kernel_size : size;
  stride : size;
  padding : size;
  groups : nat }.

(** [nn.Conv2d(c1, c2, k, s, p, groups=g)]: torch refuses groups that are
    not positive or do not divide both numbers of channels. *)
Definition nn_Conv2d (c1 c2 : nat) (k s p : size) (g : nat) : result Conv2d :=
  if (g =? 0) || negb (c1 mod g =? 0) || negb (c2 mod g =? 0) then Raise ValueError
  else Ok (MkConv2d c1 c2 k s p g).

(** [Conv.__init__]: the convolution; the batch norm and the activation
    that follow it are built for [c2] channels and keep the shape. *)
Definition Conv (c1 c2 : nat) (k s : size) (p : option size) (g : nat) : result Conv2d :=
  nn_Conv2d c1 c2 k s (autopad k p) g.

(** [DWConv.__init__] *)
Definition DWConv (c1 c2 : nat) (k s : size) : result Conv2d :=
  Conv c1 c2 k s None (Nat.gcd c1 c2).

(** The shape of a feature map of one image: channels, and height and
    width. *)
Definition shape : Type := (nat * (nat * nat))%type.

(** The two numbers torch reads off a size of a 2-d layer. *)
Definition pair (z : size) : result (nat * nat) :=
  match z with
  | Int k => Ok (k, k)
  | Seq [a; b] => Ok (a, b)
  | Seq _ => Raise ValueError
  end.

(** The shape of the output of the convolution, and so of [Conv.forward]
    and [Conv.forward_fuse]: the batch norm, in evaluation mode, and the
    activation keep the shape.  The convolution refuses an input of other
    channels than it was built for, weights of fewer output channels than
    groups (of none, that is) and a stride of 0. *)
Definition Conv_forward (m : Conv2d) (x : shape) : result shape :=
  let '(c, (h, w)) := x in
  if negb (c =? in_channels m) then Raise RuntimeError else
  if out_channels m <? groups m then Raise RuntimeError else
  k <- pair (kernel_size m) ;;
  s <- pair (stride m) ;;
  p <- pair (padding m) ;;
  if (fst s =? 0) || (snd s =? 0) then Raise RuntimeError else
  h' <- window_out h (fst k) (fst s) (fst p) ;;
  w' <- window_out w (snd k) (snd s) (snd p) ;;
  Ok (out_channels m, (h', w')).

(** One axis of [x + y] under broadcasting. *)
Definition broadcast (a b : nat) : result nat :=
  if a =? b then Ok a
  else if a =? 1 then Ok b
  else if b =? 1 then Ok a
  else Raise RuntimeError.

(** The shape of [x + y]. *)
Definition add (x y : shape) : result shape :=
  c <- broadcast (fst x) (fst y) ;;
  h <- broadcast (fst (snd x)) (fst (snd y)) ;;
  w <- broadcast (snd (snd x)) (snd (snd y)) ;;
  Ok (c, (h, w)).

(** The shape of [torch.cat(xs, 1)]. *)
Definition cat (xs : list shape) : result shape :=
  match xs with
  | [] => Raise RuntimeError
  | x :: rest =>
      if forallb (fun y => same_size (snd y) (snd x)) rest
      then Ok (fold_right Nat.add 0 (map fst xs), snd x)
      else Raise RuntimeError
  end.

(** *** Bottleneck and C3 *)

Record Bottleneck : Type := MkBottleneck {
  b_cv1 : Conv2d;
  b_cv2 : Conv2d;
  b_add : bool }.

Record C3 : Type := MkC3 {
  c3_cv1 : Conv2d;
  c3_cv2 : Conv2d;
  c3_cv3 : Conv2d;
  c3_m : list Bottleneck }.

Section Expansion.

(** The floats of Python.  [int_times c e] is [int(c * e)] for a number of
    channels [c] and an expansion [e]: the product as the float
    multiplication rounds it, cut to an integer.  [one] is the float
    [1.0]. *)
Variable float : Type.
Variable int_times : nat -> float -> nat.
Variable one : float.

(** [Bottleneck.__init__] *)
Definition Bottleneck_init (c1 c2 : nat) (shortcut : bool) (g : nat) (e : float)
  : result Bottleneck :=
  let c_ := int_times c2 e in
  cv1 <- Conv c1 c_ (Int 1) (Int 1) None 1 ;;
  cv2 <- Conv c_ c2 (Int 3) (Int 1) None g ;;
  Ok (MkBottleneck cv1 cv2 (shortcut && (c1 =? c2))).

(** [C3.__init__] *)
Definition C3_init (c1 c2 n : nat) (shortcut : bool) (g : nat) (e : float) : result C3 :=
  let c_ := int_times c2 e in
  cv1 <- Conv c1 c_ (Int 1) (Int 1) None 1 ;;
  cv2 <- Conv c1 c_ (Int 1) (Int 1) None 1 ;;
  cv3 <- Conv (2 * c_) c2 (Int 1) (Int 1) None 1 ;;
  m <- mapM (fun _ => Bottleneck_init c_ c_ shortcut g one) (seq 0 n) ;;
  Ok (MkC3 cv1 cv2 cv3 m).

End Expansion.

(** [Bottleneck.forward] *)
Definition Bottleneck_forward (m : Bottleneck) (x : shape) : result shape :=
  y <- Conv_forward (b_cv1 m) x ;;
  y <- Conv_forward (b_cv2 m) y ;;
  if b_add m then add x y else Ok y.

(** [nn.Sequential] *)
Fixpoint Sequential {M : Type} (forward : M -> shape -> result shape)
         (ms : list M) (x : shape) : result shape :=
  match ms with
  | [] => Ok x
  | m :: ms' => y <- forward m x ;; Sequential forward ms' y
  end.

(** [C3.forward] *)
Definition C3_forward (m : C3) (x : shape) : result shape :=
  a <- Conv_forward (c3_cv1 m) x ;;
  a <- Sequential Bottleneck_forward (c3_m m) a ;;
  b <- Conv_forward (c3_cv2 m) x ;;
  y <- cat [a; b] ;;
  Conv_forward (c3_cv3 m) y.

(** *** GhostConv *)

Record GhostConv : Type := MkGhostConv {
  g_cv1 : Conv2d;
  g_cv2 : Conv2d }.

(** [GhostConv.__init__] *)
Definition GhostConv_init (c1 c2 : nat) (k s : size) (g : nat) : result GhostConv :=
  let c_ := c2 / 2 in
  cv1 <- Conv c1 c_ k s None g ;;
  cv2 <- Conv c_ c_ (Int 5) (Int 1) None c_ ;;
  Ok (MkGhostConv cv1 cv2).

(** [GhostConv.forward] *)
Definition GhostConv_forward (m : GhostConv) (x : shape) : result shape :=
  y <- Conv_forward (g_cv1 m) x ;;
  z <- Conv_forward (g_cv2 m) y ;;
  cat [y; z].

(** *** SPP and SPPF *)

(** [nn.MaxPool2d(kernel_size=k, stride=s, padding=p)]: the shape of its
    output; torch refuses a kernel or a stride of 0 and a padding of more
    than half the kernel. *)
Definition MaxPool2d (k s p : nat) (x : shape) : result shape :=
  if (k =? 0) || (s =? 0) || (k / 2 <? p) then Raise RuntimeError else
  h <- window_out (fst (snd x)) k s p ;;
  w <- window_out (snd (snd x)) k s p ;;
  Ok (fst x, (h, w)).

Record SPP : Type := MkSPP {
  spp_cv1 : Conv2d;
  spp_cv2 : Conv2d;
  spp_m : list nat }.      (* the kernels of the pooling layers *)

(** [SPP.__init__] *)
Definition SPP_init (c1 c2 : nat) (k : list nat) : result SPP :=
  let c_ := c1 / 2 in
  cv1 <- Conv c1 c_ (Int 1) (Int 1) None 1 ;;
  cv2 <- Conv (c_ * (List.length k + 1)) c2 (Int 1) (Int 1) None 1 ;;
  Ok (MkSPP cv1 cv2 k).

(** [SPP.forward] *)
Definition SPP_forward (m : SPP) (x : shape) : result shape :=
  x <- Conv_forward (spp_cv1 m) x ;;
  ys <- mapM (fun k => MaxPool2d k 1 (k / 2) x) (spp_m m) ;;
  y <- cat (x :: ys) ;;
  Conv_forward (spp_cv2 m) y.

Record SPPF : Type := MkSPPF {
  sppf_cv1 : Conv2d;
  sppf_cv2 : Conv2d;
  sppf_m : nat }.

(** [SPPF.__init__] *)
Definition SPPF_init (c1 c2 k : nat) : result SPPF :=
  let c_ := c1 / 2 in
  cv1 <- Conv c1 c_ (Int 1) (Int 1) None 1 ;;
  cv2 <- Conv (c_ * 4) c2 (Int 1) (Int 1) None 1 ;;
  Ok (MkSPPF cv1 cv2 k).

(** [SPPF.forward] *)
Definition SPPF_forward (m : SPPF) (x : shape) : result shape :=
  let pool := MaxPool2d (sppf_m m) 1 (sppf_m m / 2) in
  x <- Conv_forward (sppf_cv1 m) x ;;
  y1 <- pool x ;;
  y2 <- pool y1 ;;
  y3 <- pool y2 ;;
  y <- cat [x; y1; y2; y3] ;;
  Conv_forward (sppf_cv2 m) y.

End Blocks.

(** ** CoAtNet: the block wrapper, the head and the five sizes *)

Module CoAtRun.

Import CoAt.
Local Open Scope py_scope.

(** [CoAtBlock.__init__]: the layers of the block. *)
Definition CoAtBlock_init (inp oup depth image_size : nat) (block : option string)
  : result (list layer) :=
  b <- match block with
       | None => Ok conv_3x3_bn
       | Some k => if (k =? "C")%string then Ok MBConv
                   else if (k =? "T")%string then Ok Transformer
                   else Raise RuntimeError
       end ;;
  Ok (map (fun i => if i =? 0 then Layer b inp oup (image_size, image_size) true
                    else Layer b oup oup (image_size, image_size) false)
          (seq 0 depth)).

(** [CoAtBlock.forward] *)
Definition CoAtBlock_forward (layers : list layer) (x : nat * (nat * nat))
  : result (nat * (nat * nat)) :=
  sequential layers x.

(** [CoAtNet.forward] on a batch of [n] images of the shape [x]: the shape
    of the logits.  The pooling is [nn.AvgPool2d(ih // 32, 1)], the
    [view(-1, x.shape[1])] spreads the cells it leaves over rows of as many
    numbers as there are channels, and [fc] wants rows of
    [channels[-1]] numbers. *)
Definition forward (net : t) (n : nat) (x : nat * (nat * nat)) : result (nat * nat) :=
  y <- stages net x ;;
  let '(c, (h, w)) := y in
  h' <- window_out h (pool net) 1 0 ;;
  w' <- window_out w (pool net) 1 0 ;;
  if c =? 0 then Raise RuntimeError else
  let rows := n * c * h' * w' / c in
  if c =? fst (fc net) then Ok (rows, snd (fc net)) else Raise RuntimeError.

(** [coatnet_1] to [coatnet_4] *)
Definition coatnet_1 : result t :=
  init (224, 224) 3 [2; 2; 6; 14; 2] [64; 96; 192; 384; 768] 1000 default_block_types.

Definition coatnet_2 : result t :=
  init (224, 224) 3 [2; 2; 6; 14; 2] [128; 128; 256; 512; 1026] 1000 default_block_types.

Definition coatnet_3 : result t :=
  init (224, 224) 3 [2; 2; 6; 14; 2] [192; 192; 384; 768; 1536] 1000 default_block_types.

Definition coatnet_4 : result t :=
  init (224, 224) 3 [2; 2; 12; 28; 2] [192; 192; 384; 768; 1536] 1000 default_block_types.

End CoAtRun.

(** ** Focus *)

Module Focus.

Import Pool.
Local Open Scope py_scope.

(** [l[::2]] *)
Fixpoint every_other {B : Type} (l : list B) : list B :=
  match l with
  | [] => []
  | a :: l' => a :: match l' with
                    | [] => []
                    | _ :: l'' => every_other l''
                    end
  end.

(** [l[start::2]] *)
Definition slice2 {B : Type} (start : nat) (l : list B) : list B :=
  every_other (skipn start l).

Section Focus.

Variable A : Type.

(** [x[..., a::2, b::2]]: every other row from row [a] on, and of each
    every other cell from column [b] on. *)
Definition sub (a b : nat) (x : tensor4 A) : tensor4 A :=
  map (map (fun p : plane A => map (slice2 b) (slice2 a p))) x.

(** The sizes of a batch along the axes other than the channels. *)
Definition sizes (x : tensor4 A) : nat * (nat * nat) :=
  (List.length x,
   (List.length (hd [] (hd [] x)), List.length (hd [] (hd [] (hd [] x))))).

Definition sizes_eqb (s s' : nat * (nat * nat)) : bool :=
  (fst s =? fst s') && (fst (snd s) =? fst (snd s')) && (snd (snd s) =? snd (snd s')).

(** [torch.cat(xs, 1)]: the tensors must agree along the other axes. *)
Definition cat (xs : list (tensor4 A)) : result (tensor4 A) :=
  match xs with
  | [] => Raise RuntimeError
  | x0 :: rest =>
      if forallb (fun x => sizes_eqb (sizes x) (sizes x0)) rest then Ok (cat1 xs)
      else Raise RuntimeError
  end.

(** [self.conv] *)
Variable conv : tensor4 A -> result (tensor4 A).

(** [Focus.forward] *)
Definition Focus_forward (x : tensor4 A) : result (tensor4 A) :=
  y <- cat [sub 0 0 x; sub 1 0 x; sub 0 1 x; sub 1 1 x] ;;
  conv y.

End Focus.

End Focus.

(** ** TransformerBlock: positions to a sequence and back *)

Module TrBlock.

Import Tensor.
Local Open Scope py_scope.

Section TransformerBlock.

Variable A : Type.

(** [x.permute(dims)], for as many [dims] as [x] has axes. *)
Definition permute_checked (x : t A) (dims : list nat) : result (t A) :=
  if List.length (shape x) =? List.length dims then Ok (permute x dims)
  else Raise RuntimeError.

(** [self.conv]: [None] when [c1 == c2]. *)
Variable conv : option (t A -> result (t A)).
(** What is done to the sequence: [p + self.linear(p)], then the layers
    of [self.tr]. *)
Variable layers : t A -> result (t A).
Variable c2 : nat.

(** [TransformerBlock.forward] *)
Definition TransformerBlock_forward (x : t A) : result (t A) :=
  x <- match conv with
       | Some f => f x
       | None => Ok x
       end ;;
  match shape x with
  | [b; c; w; h] =>
      p <- view x [b; c; w * h] ;;
      p <- permute_checked p [2; 0; 1] ;;
      y <- layers p ;;
      y <- permute_checked y [1; 2; 0] ;;
      view y [b; c2; w; h]
  | _ => Raise ValueError
  end.

End TransformerBlock.

End TrBlock.

(** ** CBAM: spatial attention and the bottleneck *)

Module CBAM.

Import Pool Attention.
Local Open Scope py_scope.

(** A [SpatialAttention] module: the kernel size and the padding of its
    convolution of 2 channels to 1, and the weights of the convolution, one
    [kernel_size] by [kernel_size] table for each of the two channels. *)
Record SpatialAttention : Type := MkSA {
  kernel_size : nat;
  padding : nat;
  conv_weight : list (list (list R)) }.

(** [SpatialAttention.__init__(kernel_size)]; [w] stands for the weights the
    convolution is initialised with, a table of [kernel_size] rows of
    [kernel_size] numbers for each of its two input channels. *)
Definition SpatialAttention_init (kernel_size : nat) (w : list (list (list R)))
  : result SpatialAttention :=
  if negb ((kernel_size =? 3) || (kernel_size =? 7)) then Raise AssertionError else
  let padding := if kernel_size =? 7 then 3 else 1 in
  Ok (MkSA kernel_size padding w).

(** The height and the width of the planes of an image. *)
Definition spatial (img : list (plane R)) : nat * nat :=
  (List.length (hd [] img), List.length (hd [] (hd [] img))).

(** The cells of the channels of an image at one position. *)
Definition across (img : list (plane R)) (i j : nat) : list R :=
  map (fun p => nth j (nth i p []) 0%R) img.

(** The plane of [h] rows of [w] cells that holds [f i j] at row [i] and
    column [j]. *)
Definition table (h w : nat) (f : nat -> nat -> R) : plane R :=
  map (fun i => map (fun j => f i j) (seq 0 w)) (seq 0 h).

(** [torch.mean(x, dim=1, keepdim=True)] on one image *)
Definition channel_mean (img : list (plane R)) : plane R :=
  table (fst (spatial img)) (snd (spatial img))
        (fun i j => (sum (across img i j) / INR (List.length img))%R).

(** The greatest cell of the channels at each position. *)
Definition channel_top (img : list (plane R)) : plane R :=
  table (fst (spatial img)) (snd (spatial img))
        (fun i j => match across img i j with
                    | [] => 0%R
                    | v :: vs => fold_left Rmax vs v
                    end).

(** [torch.max(x, dim=1, keepdim=True)] on one image, which torch refuses
    on no channel at all *)
Definition channel_max (img : list (plane R)) : result (plane R) :=
  match img with
  | [] => Raise RuntimeError
  | _ => Ok (channel_top img)
  end.

(** The cell at row [r] and column [s] of a plane padded with [pad] rows
    and columns of zeros on each side. *)
Definition padded (p : plane R) (pad r s : nat) : R :=
  if (r <? pad) || (s <? pad) then 0%R
  else nth (s - pad) (nth (r - pad) p []) 0%R.

(** The cell at row [i] and column [j] of the convolution of the planes
    [ps]: the sum over the channels and over the window of weight times
    padded cell. *)
Definition conv_cell (m : SpatialAttention) (ps : list (plane R)) (i j : nat) : R :=
  let k := kernel_size m in
  sum (map (fun kp =>
              sum (map (fun a =>
                          sum (map (fun b =>
                                      (nth b (nth a (fst kp) []) 0
                                       * padded (snd kp) (padding m) (i + a) (j + b))%R)
                                   (seq 0 k)))
                       (seq 0 k)))
           (combine (conv_weight m) ps)).

(** [nn.Conv2d(2, 1, kernel_size, padding=padding, bias=False)] on the
    planes [ps] of height [h] and width [w]; a kernel larger than the
    padded planes is refused. *)
Definition conv2d (m : SpatialAttention) (ps : list (plane R)) (h w : nat)
  : result (plane R) :=
  let k := kernel_size m in
  let pad := padding m in
  if (h + 2 * pad <? k) || (w + 2 * pad <? k) then Raise RuntimeError else
  Ok (table (h + 2 * pad + 1 - k) (w + 2 * pad + 1 - k) (conv_cell m ps)).

(** [SpatialAttention.forward]: for each image the one plane of gates. *)
Definition SpatialAttention_forward (m : SpatialAttention) (x : tensor)
  : result (list (plane R)) :=
  mapM (fun img =>
          let avg_out := channel_mean img in
          max_out <- channel_max img ;;
          y <- conv2d m [avg_out; max_out] (fst (spatial img)) (snd (spatial img)) ;;
          Ok (map (map sigmoid) y))
       x.

Definition plane_shape (p : plane R) : nat * list nat :=
  (List.length p, map (@List.length R) p).

Definition plane_shape_eqb (a b : nat * list nat) : bool :=
  (fst a =? fst b) && DMB.shape_eqb (snd a) (snd b).

(** Two planes of one shape combined cell by cell. *)
Definition zip_plane (op : R -> R -> R) (a b : plane R) : plane R :=
  map (fun rows => map (fun uv => op (fst uv) (snd uv)) (combine (fst rows) (snd rows)))
      (combine a b).

(** [g * x] for [g] of shape [(b, 1, h, w)] and [x] of shape
    [(b, c, h, w)]: the plane of gates of an image multiplies each of its
    channels.  The gates of [SpatialAttention] are of the height and width
    of [x]; planes of other shapes are refused here. *)
Definition mul_gate (g : list (plane R)) (x : tensor) : result tensor :=
  if List.length g =? List.length x then
    mapM (fun gi =>
            mapM (fun p => if plane_shape_eqb (plane_shape (fst gi)) (plane_shape p)
                           then Ok (zip_plane Rmult (fst gi) p)
                           else Raise RuntimeError)
                 (snd gi))
         (combine g x)
  else Raise RuntimeError.

(** [x + out] for tensors of one shape, as they are when [self.add] is
    set; other shapes are refused here. *)
Definition plus (x y : tensor) : result tensor :=
  if List.length x =? List.length y then
    mapM (fun ab =>
            if List.length (fst ab) =? List.length (snd ab) then
              mapM (fun pq => if plane_shape_eqb (plane_shape (fst pq)) (plane_shape (snd pq))
                              then Ok (zip_plane Rplus (fst pq) (snd pq))
                              else Raise RuntimeError)
                   (combine (fst ab) (snd ab))
            else Raise RuntimeError)
         (combine x y)
  else Raise RuntimeError.

(** [CBAMBottleneck.forward], for [cv] the two convolutions
    [self.cv2(self.cv1(x))] *)
Definition CBAMBottleneck_forward (cv : tensor -> result tensor) (add : bool)
           (channel_attention : ChannelAttention) (spatial_attention : SpatialAttention)
           (x : tensor) : result tensor :=
  x1 <- cv x ;;
  out <- channel_reweight channel_attention x1 ;;
  g <- SpatialAttention_forward spatial_attention out ;;
  out <- mul_gate g out ;;
  if add then plus x out else Ok out.

End CBAM.

(* ===================================================================== *)
(** * Part II: properties                                                *)
(* ===================================================================== *)

Unset Implicit Arguments.

(** ** Lists *)

Module ListFacts.

Lemma nth_map_seq {B : Type} (f : nat -> B) (n i : nat) (d : B) :
  i < n -> nth i (map f (seq 0 n)) d = f i.
Proof.
  intros Hi.
  rewrite nth_indep with (d' := f 0) by (now rewrite length_map, length_seq).
  rewrite map_nth, seq_nth by assumption. reflexivity.
Qed.

Lemma map_snd_combine {A B : Type} (xs : list A) (ys : list B) :
  List.length xs = List.length ys -> map snd (combine xs ys) = ys.
Proof.
  revert ys. induction xs as [|x xs IH]; intros [|y ys] H; simpl in *;
    try discriminate; [reflexivity|].
  f_equal. apply IH. lia.
Qed.

Lemma map_fst_combine {A B : Type} (xs : list A) (ys : list B) :
  List.length xs = List.length ys -> map fst (combine xs ys) = xs.
Proof.
  revert ys. induction xs as [|x xs IH]; intros [|y ys] H; simpl in *;
    try discriminate; [reflexivity|].
  f_equal. apply IH. lia.
Qed.

End ListFacts.

(** ** Substring search *)

Module StrFacts.

Local Open Scope string_scope.

(** [s] occurs in [p]. *)
Definition occurs (s p : string) : Prop :=
  exists a b, p = a ++ s ++ b.

Lemma prefix_app (s p : string) :
  String.prefix s p = true <-> exists b, p = s ++ b.
Proof.
  revert p; induction s as [|c s IH]; intros p.
  - split; [intros _; now exists p | now destruct p].
  - destruct p as [|d p]; simpl.
    + split; [discriminate | intros [b H]; discriminate].
    + destruct (Ascii.ascii_dec c d) as [->|ne].
      * rewrite IH. split; intros [b H]; exists b.
        -- now rewrite H.
        -- now inversion H.
      * split; [discriminate | intros [b H]; inversion H; congruence].
Qed.

Lemma contains_nil (s : string) :
  Str.contains s EmptyString = String.prefix s EmptyString.
Proof. unfold Str.contains. apply orb_false_r. Qed.

Lemma contains_cons (s : string) (d : ascii) (p : string) :
  Str.contains s (String d p) = String.prefix s (String d p) || Str.contains s p.
Proof. reflexivity. Qed.

Lemma contains_occurs (s p : string) :
  Str.contains s p = true <-> occurs s p.
Proof.
  induction p as [|d p IH].
  - rewrite contains_nil, prefix_app. split.
    + intros [b H]. now exists EmptyString, b.
    + intros [a [b H]]. destruct a as [|x a]; [now exists b | discriminate].
  - rewrite contains_cons, orb_true_iff, prefix_app, IH. split.
    + intros [[b H] | [a [b H]]].
      * now exists EmptyString, b.
      * exists (String d a), b. simpl. now rewrite H.
    + intros [a [b H]]. destruct a as [|x a].
      * left. now exists b.
      * right. exists a, b. simpl in H. now inversion H.
Qed.

Lemma contains_false (s p : string) :
  Str.contains s p = false <-> ~ occurs s p.
Proof.
  rewrite <- contains_occurs. destruct (Str.contains s p); split; intros H;
    try reflexivity; try discriminate; try (intros K; discriminate).
  now contradiction H.
Qed.

End StrFacts.

(** ** model_type *)

Module ModelTypeFacts.

Import Backend StrFacts.
Local Open Scope string_scope.

(** The flags [f] are the ones the suffix table [tbl] gives the file
    name [n]. *)
Definition flags_match (tbl : list string) (n : string) (f : flags) : Prop :=
  match tbl with
  | [s_pt; s_jit; s_onnx; s_openvino; s_engine; s_coreml; s_saved_model;
     s_pb; s_tflite; s_edgetpu; s_tfjs] =>
      (pt f = true <-> occurs s_pt n) /\
      (jit f = true <-> occurs s_jit n) /\
      (onnx f = true <-> occurs s_onnx n) /\
      (xml f = true <-> occurs s_openvino n \/ occurs ".xml" n) /\
      (engine f = true <-> occurs s_engine n) /\
      (coreml f = true <-> occurs s_coreml n) /\
      (saved_model f = true <-> occurs s_saved_model n) /\
      (pb f = true <-> occurs s_pb n) /\
      (tflite f = true <-> occurs s_tflite n /\ ~ occurs s_edgetpu n) /\
      (edgetpu f = true <-> occurs s_edgetpu n) /\
      (tfjs f = true <-> occurs s_tfjs n) /\
      (edgetpu f = true -> tflite f = false)
  | _ => False
  end.

(** A [check_suffix] that lets every path through. *)
Definition accept (_ : string) (_ : list string) : bool := true.

Example model_type_edgetpu :
  model_type yolov5_suffixes accept "weights/yolov5s_edgetpu.tflite"
  = Ok (Flags false false false false false false false false false true false).
Proof. reflexivity. Qed.

Example model_type_openvino :
  model_type yolov5_suffixes accept "yolov5s_openvino_model/"
  = Ok (Flags false false false true false false false false false false false).
Proof. reflexivity. Qed.

Example model_type_xml :
  model_type yolov5_suffixes accept "yolov5s_openvino_model/yolov5s.xml"
  = Ok (Flags false false false true false false false false false false false).
Proof. reflexivity. Qed.

Example model_type_short_table :
  model_type [".pt"] accept "yolov5s.pt" = Raise ValueError.
Proof. reflexivity. Qed.

(** C3: once [check_suffix] lets the path through, [model_type] returns the
    eleven flags, each true exactly when its suffix of the export table
    occurs in the file name of the path; [xml] is also true when [.xml]
    occurs, [tflite] is false whenever [edgetpu] is true. *)
Theorem model_type_by_suffix
    (check_suffix : string -> list string -> bool)
    (s_pt s_jit s_onnx s_openvino s_engine s_coreml s_saved_model s_pb
       s_tflite s_edgetpu s_tfjs p : string) :
  let tbl := [s_pt; s_jit; s_onnx; s_openvino; s_engine; s_coreml;
              s_saved_model; s_pb; s_tflite; s_edgetpu; s_tfjs] in
  check_suffix p (tbl ++ [".xml"])%list = true ->
  exists f, model_type tbl check_suffix p = Ok f /\
            flags_match tbl (Str.Path_name p) f.
Proof.
  intros tbl Hchk. unfold model_type. fold tbl. rewrite Hchk. simpl.
  eexists. split; [reflexivity|]. simpl.
  repeat match goal with
         | |- _ /\ _ => split
         end;
    rewrite ?orb_true_iff, ?andb_true_iff, ?negb_true_iff,
      ?contains_occurs, ?contains_false;
    try tauto.
  intros H. apply contains_occurs in H. rewrite H. apply andb_false_r.
Qed.

Lemma model_type_by_suffix_witness :
  accept "weights/yolov5s_edgetpu.tflite" (yolov5_suffixes ++ [".xml"])%list = true /\
  exists f, model_type yolov5_suffixes accept "weights/yolov5s_edgetpu.tflite" = Ok f /\
            flags_match yolov5_suffixes (Str.Path_name "weights/yolov5s_edgetpu.tflite") f.
Proof.
  split; [reflexivity|].
  apply (model_type_by_suffix accept ".pt" ".torchscript" ".onnx" "_openvino_model"
           ".engine" ".mlmodel" "_saved_model" ".pb" ".tflite" "_edgetpu.tflite"
           "_web_model" "weights/yolov5s_edgetpu.tflite").
  reflexivity.
Defined.

End ModelTypeFacts.

(** ** DetectMultiBackend.__init__ *)

Module InitFacts.

Import Backend DMB ModelTypeFacts.
Local Open Scope string_scope.

(** The flags mark a TF.js model and no other backend. *)
Definition tfjs_only (f : flags) : Prop :=
  f = Flags false false false false false false false false false false true.

(** Loaders and helpers that always succeed. *)
Definition download_ok (w : string) : result string := Ok w.
Definition names_ok (_ : string) : result (list string) := Ok [].
Definition load_ok (_ : backend) (_ : weights) : result loaded :=
  Ok (Loaded None false []).

Example web_model_flags :
  model_type yolov5_suffixes accept "yolov5s_web_model"
  = Ok (Flags false false false false false false false false false false true).
Proof. reflexivity. Qed.

(** C10 as stated does not hold: with [dnn=True] a path whose flags are
    TF.js alone is handed to the OpenCV DNN loader and the TF.js exception
    is not raised. *)
Lemma init_tfjs_with_dnn :
  (exists f, model_type yolov5_suffixes accept "yolov5s_web_model" = Ok f /\ tfjs_only f) /\
  init yolov5_suffixes accept download_ok names_ok load_ok
       (WPath "yolov5s_web_model") cpu true None false
  <> Raise (Exception tfjs_message) /\
  exists self,
    init yolov5_suffixes accept download_ok names_ok load_ok
         (WPath "yolov5s_web_model") cpu true None false = Ok self /\
    net self = Some OpenCV_DNN.
Proof.
  split; [|split].
  - eexists. split; reflexivity.
  - discriminate.
  - eexists. split; reflexivity.
Qed.

Section Init.

Variable export_suffixes : list string.
Variable check_suffix : string -> list string -> bool.
Variable attempt_download : string -> result string.
Variable load_names : string -> result (list string).
Variable vendor_load : backend -> weights -> result loaded.

Local Abbreviation init :=
  (DMB.init export_suffixes check_suffix attempt_download load_names vendor_load).

(** The steps of [__init__] ahead of the loaders went through. *)
Definition reaches_loaders (ws : weights) (data : option string) (f : flags) : Prop :=
  exists w w',
    first_weight ws = Ok w /\
    model_type export_suffixes check_suffix w = Ok f /\
    attempt_download w = Ok w' /\
    match data with
    | Some d => d = EmptyString \/ exists n, load_names d = Ok n
    | None => True
    end.

Lemma init_reaches (ws : weights) (device : device) (dnn : bool)
    (data : option string) (fp16 : bool) (f : flags) :
  reaches_loaders ws data f ->
  exists w names fp16',
    init ws device dnn data fp16 = load vendor_load ws w f device dnn fp16' names.
Proof.
  intros (w & w' & Hw & Hf & Hd & Hdata).
  unfold DMB.init. rewrite Hw. simpl. rewrite Hf. simpl. rewrite Hd. simpl.
  destruct data as [d|]; [|eexists; eexists; eexists; reflexivity].
  destruct Hdata as [-> | [n Hn]]; [eexists; eexists; eexists; reflexivity|].
  destruct (d =? EmptyString); [eexists; eexists; eexists; reflexivity|].
  rewrite Hn. eexists; eexists; eexists; reflexivity.
Qed.

Lemma load_flags (ws : weights) (w : string) (f : flags) (device : device)
    (dnn fp16 : bool) (names : list string) (self : t) :
  load vendor_load ws w f device dnn fp16 names = Ok self ->
  fl self = f /\ DMB.dnn self = dnn.
Proof.
  unfold load. intros H.
  repeat match type of H with
         | (if ?b then _ else _) = _ => destruct b
         | Py.bind ?m _ = _ => destruct m; simpl in H
         | (let '(_, _) := ?p in _) = _ => destruct p
         end;
    try discriminate; injection H as <-; split; reflexivity.
Qed.

(** The flags and [dnn] of an object are those of its construction. *)
Lemma init_flags (ws : weights) (device : device) (dnn : bool)
    (data : option string) (fp16 : bool) (self : t) :
  init ws device dnn data fp16 = Ok self ->
  DMB.dnn self = dnn /\
  exists w, first_weight ws = Ok w /\
            model_type export_suffixes check_suffix w = Ok (fl self).
Proof.
  unfold DMB.init. intros H.
  destruct (first_weight ws) as [w|] eqn:Ew; [|discriminate]. simpl in H.
  destruct (model_type export_suffixes check_suffix w) as [f|] eqn:Ef; [|discriminate].
  simpl in H.
  destruct (attempt_download w) as [w'|]; [|discriminate]. simpl in H.
  destruct (match data with
            | Some d => if d =? EmptyString then Ok default_names else load_names d
            | None => Ok default_names
            end) as [names|]; [|discriminate].
  simpl in H. apply load_flags in H. destruct H as [<- Hd].
  split; [exact Hd|]. now exists w.
Qed.

Lemma init_tfjs_raises (ws : weights) (device : device)
    (data : option string) (fp16 : bool) (f : flags) :
  reaches_loaders ws data f ->
  tfjs_only f ->
  init ws device false data fp16 = Raise (Exception tfjs_message).
Proof.
  intros H ->.
  destruct (init_reaches ws device false data fp16 _ H) as (w & n & fp & ->).
  reflexivity.
Qed.

End Init.

End InitFacts.

(** ** DetectMultiBackend.forward *)

Module ForwardFacts.

Import Backend Io DMB InitFacts.

(** The arms of the [if]/[elif] chain, in the order they are tried. *)
Inductive arm : Type :=
| A_PyTorch | A_TorchScript | A_OpenCV_DNN | A_ONNX_Runtime | A_OpenVINO
| A_TensorRT | A_CoreML | A_TensorFlow.

Definition priority (self : t) : list (bool * arm) :=
  [ (pt (fl self), A_PyTorch); (jit (fl self), A_TorchScript);
    (dnn self, A_OpenCV_DNN); (onnx (fl self), A_ONNX_Runtime);
    (xml (fl self), A_OpenVINO); (engine (fl self), A_TensorRT);
    (coreml (fl self), A_CoreML) ].

(** The first arm of the priority list whose flag is set; TensorFlow when
    none is. *)
Definition selected (self : t) : arm :=
  match find fst (priority self) with
  | Some (_, a) => a
  | None => A_TensorFlow
  end.

(** The arm whose code makes a call. *)
Definition arm_of (c : call) : arm :=
  match c with
  | model_call _ _ => A_PyTorch
  | jit_call => A_TorchScript
  | net_setInput | net_forward => A_OpenCV_DNN
  | session_get_outputs | session_get_inputs | session_run => A_ONNX_Runtime
  | executable_network_call => A_OpenVINO
  | context_execute_v2 => A_TensorRT
  | coreml_predict => A_CoreML
  | saved_model_call _ | tf_constant | frozen_func_call
  | interpreter_set_tensor | interpreter_invoke | interpreter_get_tensor => A_TensorFlow
  end.

(** The calls that run the network; the others bind inputs, name or fetch
    outputs. *)
Definition runs_network (c : call) : bool :=
  match c with
  | model_call _ _ | jit_call | net_forward | session_run
  | executable_network_call | context_execute_v2 | coreml_predict
  | saved_model_call _ | frozen_func_call | interpreter_invoke => true
  | net_setInput | session_get_outputs | session_get_inputs | tf_constant
  | interpreter_set_tensor | interpreter_get_tensor => false
  end.

(** One of the flags that [__init__] has a loader for is set, or [dnn]
    is: the tests of the two [if]/[elif] chains, of which the last arm of
    [forward] makes none. *)
Definition has_backend (self : t) : bool :=
  pt (fl self) || jit (fl self) || dnn self || onnx (fl self) || xml (fl self)
  || engine (fl self) || coreml (fl self) || saved_model (fl self) || pb (fl self)
  || tflite (fl self) || edgetpu (fl self).

(** An object built from ONNX weights with [dnn=True]. *)
Definition onnx_dnn : t :=
  Self (Flags false false true false false false false false false false false)
       true cpu false false 32 [] (Some OpenCV_DNN) [].

Definition unit_runtime : runtime unit :=
  Runtime (fun _ _ x => Tensor cpu x) (fun x => Tensor cpu x)
          (fun x => NDArray x) (fun x => NDArray x) (fun x => NDArray x)
          (fun x => x) (fun x => Vars (NDArray x)) (fun _ x => x) (fun x => x)
          false (fun x => NDArray x).

Definition unit_forward (self : t) (shape : list nat) (val : bool) : io call (ret unit) :=
  forward (fun x => x) (fun x => x) (fun _ _ x _ => x) (fun x => x) (fun x => x)
          (fun _ _ x => x) unit_runtime self (Im cpu shape tt) false false val.

(** C2 as stated does not hold: on the OpenCV DNN arm [forward] makes two
    calls into the vendor API, [setInput] and then [forward]. *)
Lemma forward_dnn_two_calls :
  selected onnx_dnn = A_OpenCV_DNN /\
  fst (unit_forward onnx_dnn [1; 3; 640; 640] false) = [net_setInput; net_forward] /\
  List.length (fst (unit_forward onnx_dnn [1; 3; 640; 640] false)) <> 1.
Proof. repeat split. discriminate. Qed.

Lemma shape_eqb_refl (a : list nat) : shape_eqb a a = true.
Proof.
  induction a as [|x a IH]; simpl; [reflexivity|].
  now rewrite Nat.eqb_refl, IH.
Qed.

Section Forward.

Variable data : Type.
Variable permute_0231 to_pil : data -> data.
Variable coreml_rows : nat -> nat -> data -> data -> data.
Variable descale rescale : data -> data.
Variable to_pixels : nat -> nat -> data -> data.

Local Abbreviation infer :=
  (DMB.infer permute_0231 to_pil coreml_rows descale rescale to_pixels).
Local Abbreviation forward :=
  (DMB.forward permute_0231 to_pil coreml_rows descale rescale to_pixels).

Arguments shape_eqb : simpl never.

(** Walk down the [if]/[elif] chain, one test at a time. *)
Ltac chain self :=
  unfold selected, priority; simpl;
  destruct (pt (fl self)); simpl;
  [|destruct (jit (fl self)); simpl;
    [|destruct (dnn self); simpl;
      [|destruct (onnx (fl self)); simpl;
        [|destruct (xml (fl self)); simpl;
          [|destruct (engine (fl self)); simpl;
            [|destruct (coreml (fl self)); simpl;
              [|destruct (saved_model (fl self)); simpl;
                [|destruct (pb (fl self)); simpl;
                  [|destruct (tflite (fl self)); simpl;
                    [|destruct (edgetpu (fl self)); simpl]]]]]]]]]].

Lemma forward_trace (rt : runtime data) (self : t) (im : image_batch data)
    (augment visualize val : bool) :
  fst (forward rt self im augment visualize val)
  = fst (infer rt self im augment visualize).
Proof.
  unfold DMB.forward.
  destruct (infer rt self im augment visualize) as [tr [y|e]]; simpl;
    [apply app_nil_r | reflexivity].
Qed.

Lemma infer_arm (rt : runtime data) (self : t) (im : image_batch data)
    (augment visualize : bool) :
  Forall (fun c => arm_of c = selected self)
         (fst (infer rt self im augment visualize)).
Proof.
  unfold DMB.infer.
  destruct (im_shape im) as [|b [|ch [|h [|w [|? ?]]]]]; try (constructor).
  chain self; repeat constructor.
  - destruct (shape_eqb _ _); simpl; repeat constructor.
  - destruct (rt_predict _ _); simpl; repeat constructor.
Qed.

Lemma infer_one_run (rt : runtime data) (self : t) (im : image_batch data)
    (augment visualize : bool) :
  let tr := fst (infer rt self im augment visualize) in
  List.length (filter runs_network tr) <= 1 /\ NoDup tr /\
  (forall y, snd (infer rt self im augment visualize) = Ok y ->
             List.length (filter runs_network tr) = 1).
Proof.
  unfold DMB.infer.
  destruct (im_shape im) as [|b [|ch [|h [|w [|? ?]]]]]; simpl;
    try (repeat split; [lia | constructor | discriminate]).
  chain self;
    try destruct (shape_eqb _ _); try destruct (rt_predict _ _); simpl;
    (split; [lia | split; [|intros; try reflexivity; discriminate]]);
    repeat (constructor; [simpl; intuition discriminate|]); constructor.
Qed.

Lemma infer_trace_fixed (rt rt' : runtime data) (self : t)
    (im im' : image_batch data) (augment visualize : bool) :
  im_shape im = im_shape im' ->
  fst (infer rt self im augment visualize) = fst (infer rt' self im' augment visualize).
Proof.
  intros E. unfold DMB.infer. rewrite <- E.
  destruct (im_shape im) as [|b [|ch [|h [|w [|? ?]]]]]; try reflexivity.
  chain self; try reflexivity.
  - destruct (shape_eqb _ _); reflexivity.
  - destruct (rt_predict rt _), (rt_predict rt' _); reflexivity.
Qed.

Lemma infer_returns (rt : runtime data) (self : t) (im : image_batch data)
    (augment visualize : bool) :
  has_backend self = true ->
  List.length (im_shape im) = 4 ->
  (selected self = A_TensorRT -> im_shape im = images_shape self) ->
  exists tr y, infer rt self im augment visualize = (tr, Ok y).
Proof.
  unfold DMB.infer, has_backend. intros Hb H4.
  destruct (im_shape im) as [|b [|ch [|h [|w [|? ?]]]]] eqn:E; try discriminate.
  revert Hb.
  chain self; intros Hb Hs; try discriminate; try (eexists; eexists; reflexivity).
  - rewrite <- Hs by reflexivity. rewrite shape_eqb_refl. simpl.
    eexists; eexists; reflexivity.
  - destruct (rt_predict _ _); eexists; eexists; reflexivity.
Qed.

(** Without a backend the last arm finds no [input_details] and makes no
    call. *)
Lemma infer_no_backend (rt : runtime data) (self : t) (im : image_batch data)
    (augment visualize : bool) :
  has_backend self = false ->
  List.length (im_shape im) = 4 ->
  infer rt self im augment visualize = ([], Raise AttributeError).
Proof.
  unfold DMB.infer, has_backend. intros Hb H4.
  destruct (im_shape im) as [|b [|ch [|h [|w [|? ?]]]]] eqn:E; try discriminate.
  revert Hb. chain self; intros Hb; try discriminate. reflexivity.
Qed.

(** The object [__init__] returns has a backend by its flags exactly when
    one of the loaders ran. *)
Lemma init_has_backend
    (export_suffixes : list string) (check_suffix : string -> list string -> bool)
    (attempt_download : string -> result string)
    (load_names : string -> result (list string))
    (vendor_load : backend -> weights -> result loaded)
    (ws : weights) (device : device) (dnn : bool) (yaml : option string) (fp16 : bool)
    (self : t) :
  DMB.init export_suffixes check_suffix attempt_download load_names vendor_load
           ws device dnn yaml fp16 = Ok self ->
  (has_backend self = true <-> net self <> None).
Proof.
  unfold DMB.init. intros H.
  destruct (first_weight ws) as [w|]; [|discriminate]. simpl in H.
  destruct (model_type export_suffixes check_suffix w) as [f|]; [|discriminate].
  simpl in H.
  destruct (attempt_download w) as [w'|]; [|discriminate]. simpl in H.
  destruct (match yaml with
            | Some d => if (d =? EmptyString)%string then Ok default_names else load_names d
            | None => Ok default_names
            end) as [names|]; [|discriminate].
  simpl in H. unfold load in H. destruct f as [a1 a2 a3 a4 a5 a6 a7 a8 a9 a10 a11].
  cbn [Backend.pt Backend.jit Backend.onnx Backend.xml Backend.engine Backend.coreml
       Backend.saved_model Backend.pb Backend.tflite Backend.edgetpu Backend.tfjs] in H.
  unfold has_backend. destruct a9, a10; simpl in H.
  all: repeat match type of H with
         | (if ?b then _ else _) = _ => destruct b; simpl in H
         | Py.bind ?m _ = _ => destruct m; simpl in H
         | (let '(_, _) := ?p in _) = _ => destruct p
         end;
    try discriminate; injection H as <-; simpl;
    split; intros K; try reflexivity; try discriminate; try discriminate K;
    try now elim K.
Qed.

(** C2, as the code has it: every call [forward] makes belongs to the one
    arm selected by the fixed priority order over the flags, which are
    those of the construction of the object; the calls of an arm are a
    fixed straight-line sequence with no call made twice, that does not
    depend on what the runtime answers, and exactly one of them runs the
    network when [forward] returns. *)
Theorem forward_dispatch (rt : runtime data) (self : t) (im : image_batch data)
    (augment visualize val : bool) :
  let tr := fst (forward rt self im augment visualize val) in
  Forall (fun c => arm_of c = selected self) tr /\
  List.length (filter runs_network tr) <= 1 /\
  NoDup tr /\
  (forall r, snd (forward rt self im augment visualize val) = Ok r ->
             List.length (filter runs_network tr) = 1) /\
  (forall (rt' : runtime data) (im' : image_batch data),
      im_shape im' = im_shape im ->
      fst (forward rt' self im' augment visualize val) = tr) /\
  (forall export_suffixes check_suffix attempt_download load_names vendor_load
          ws device dnn yaml fp16,
      DMB.init export_suffixes check_suffix attempt_download load_names vendor_load
               ws device dnn yaml fp16 = Ok self ->
      DMB.dnn self = dnn /\
      exists w, first_weight ws = Ok w /\
                model_type export_suffixes check_suffix w = Ok (fl self)).
Proof.
  cbv zeta. rewrite forward_trace.
  destruct (infer_one_run rt self im augment visualize) as (H1 & H2 & H3).
  repeat split; trivial.
  - apply infer_arm.
  - intros r Hr. unfold DMB.forward in Hr.
    destruct (infer rt self im augment visualize) as [tr [y|e]] eqn:E; simpl in *.
    + now apply (H3 y).
    + discriminate.
  - intros rt' im' E. rewrite forward_trace. now apply infer_trace_fixed.
  - now apply init_flags in H.
  - now apply init_flags in H.
Qed.

(** C6: on an object with a backend (one that [__init__] ran a loader
    for), and a four-dimensional input (on the TensorRT arm, one of the
    shape of the [images] binding), [forward] returns, on every arm: the
    pair [(y, [])] when [val] is set and [y] alone otherwise, where a
    numpy array coming out of the arm has been turned into a torch tensor
    on the device of the wrapper, so that [y] is a tensor in each case.  An
    object built with no backend at all returns nothing: [forward] raises
    [AttributeError] before any call. *)
Theorem forward_result (rt : runtime data) (self : t) (im : image_batch data)
    (augment visualize val : bool) :
  List.length (im_shape im) = 4 ->
  (selected self = A_TensorRT -> im_shape im = images_shape self) ->
  (has_backend self = true ->
   exists tr y,
     infer rt self im augment visualize = (tr, Ok y) /\
     forward rt self im augment visualize val
     = (tr, Ok (if val then Pair (to_torch self y) [] else Single (to_torch self y))) /\
     (forall x, y = NDArray x -> to_torch self y = Tensor (dev self) x) /\
     (exists d x, to_torch self y = Tensor d x)) /\
  (has_backend self = false ->
   forward rt self im augment visualize val = ([], Raise AttributeError)) /\
  (forall export_suffixes check_suffix attempt_download load_names vendor_load
          ws device dnn yaml fp16,
      DMB.init export_suffixes check_suffix attempt_download load_names vendor_load
               ws device dnn yaml fp16 = Ok self ->
      (has_backend self = true <-> net self <> None)).
Proof.
  intros H4 Hs. split; [|split].
  - intros Hb.
    destruct (infer_returns rt self im augment visualize Hb H4 Hs) as (tr & y & E).
    exists tr, y. split; [exact E|]. split; [|split].
    + unfold DMB.forward. rewrite E. simpl.
      now rewrite app_nil_r.
    + now intros x ->.
    + destruct y as [d x|x]; simpl; eauto.
  - intros Hb. unfold DMB.forward.
    now rewrite (infer_no_backend rt self im augment visualize Hb H4).
  - intros. now apply init_has_backend in H.
Qed.

End Forward.

Lemma forward_result_witness :
  List.length [1; 3; 640; 640] = 4 /\
  (selected onnx_dnn = A_TensorRT -> [1; 3; 640; 640] = images_shape onnx_dnn) /\
  has_backend onnx_dnn = true /\
  exists tr y,
    infer (fun x => x) (fun x => x) (fun _ _ x _ => x) (fun x => x) (fun x => x)
          (fun _ _ x => x) unit_runtime onnx_dnn (Im cpu [1; 3; 640; 640] tt) false false
    = (tr, Ok y) /\
    unit_forward onnx_dnn [1; 3; 640; 640] true
    = (tr, Ok (Pair (to_torch onnx_dnn y) [])) /\
    (forall x, y = NDArray x -> to_torch onnx_dnn y = Tensor (dev onnx_dnn) x) /\
    (exists d x, to_torch onnx_dnn y = Tensor d x).
Proof.
  assert (H : selected onnx_dnn = A_TensorRT -> [1; 3; 640; 640] = images_shape onnx_dnn)
    by (simpl; discriminate).
  split; [reflexivity|]. split; [exact H|]. split; [reflexivity|].
  exact (proj1 (forward_result unit (fun x => x) (fun x => x) (fun _ _ x _ => x)
                  (fun x => x) (fun x => x) (fun _ _ x => x) unit_runtime onnx_dnn
                  (Im cpu [1; 3; 640; 640] tt) false false true eq_refl H) eq_refl).
Defined.

End ForwardFacts.

(** ** TF.js: the flag without an inference arm *)

Module TfjsFacts.

Import Backend Io DMB ModelTypeFacts InitFacts ForwardFacts.
Local Open Scope string_scope.

(** The settings of the flag tuple that mark one backend other than TF.js
    alone, each with the loader that [__init__] runs for it. *)
Definition single_backend : list (flags * backend) :=
  [ (Flags true false false false false false false false false false false, PyTorch);
    (Flags false true false false false false false false false false false, TorchScript);
    (Flags false false true false false false false false false false false, ONNX_Runtime);
    (Flags false false false true false false false false false false false, OpenVINO);
    (Flags false false false false true false false false false false false, TensorRT);
    (Flags false false false false false true false false false false false, CoreML);
    (Flags false false false false false false true false false false false, SavedModel);
    (Flags false false false false false false false true false false false, GraphDef);
    (Flags false false false false false false false false true false false, TFLite);
    (Flags false false false false false false false false false true false, EdgeTPU) ].

Section Tfjs.

Variable export_suffixes : list string.
Variable check_suffix : string -> list string -> bool.
Variable attempt_download : string -> result string.
Variable load_names : string -> result (list string).
Variable vendor_load : backend -> weights -> result loaded.

Variable array : Type.
Variable permute_0231 to_pil : array -> array.
Variable coreml_rows : nat -> nat -> array -> array -> array.
Variable descale rescale : array -> array.
Variable to_pixels : nat -> nat -> array -> array.
Variable rt : runtime array.

Local Abbreviation init :=
  (DMB.init export_suffixes check_suffix attempt_download load_names vendor_load).
Local Abbreviation forward :=
  (DMB.forward permute_0231 to_pil coreml_rows descale rescale to_pixels rt).

(** [self] serves inference: on inputs of four dimensions (of the shape
    of the [images] binding for TensorRT) [forward] returns after one
    run of the network. *)
Definition serves (b : backend) (self : t) : Prop :=
  forall (im : image_batch array) (augment visualize val : bool),
    List.length (im_shape im) = 4 ->
    (b = TensorRT -> im_shape im = images_shape self) ->
    exists tr r, forward self im augment visualize val = (tr, Ok r) /\
                 List.length (filter runs_network tr) = 1.

Lemma serves_selected (b : backend) (self : t) :
  has_backend self = true ->
  (selected self = A_TensorRT -> b = TensorRT) -> serves b self.
Proof.
  intros Hl Hb im augment visualize val H4 Hs.
  destruct (infer_returns array permute_0231 to_pil coreml_rows descale rescale
              to_pixels rt self im augment visualize Hl H4) as (tr & y & E).
  { intros K. apply Hs, Hb, K. }
  destruct (infer_one_run array permute_0231 to_pil coreml_rows descale rescale
              to_pixels rt self im augment visualize) as (_ & _ & H).
  rewrite E in H. simpl in H.
  exists tr. eexists. split; [|exact (H y eq_refl)].
  unfold DMB.forward. rewrite E. simpl. now rewrite app_nil_r.
Qed.

(** C10, as the code has it: once the steps of [__init__] ahead of the
    loaders went through and [dnn] is not set, flags that mark TF.js
    alone make the constructor raise the TF.js exception, so no object
    reaches [forward]; each other flag of the tuple, set alone, makes the
    constructor run the loader of its backend, and [forward] serves the
    object it builds. *)
Theorem tfjs_alone_has_no_inference (ws : weights) (device : device)
    (data : option string) (fp16 : bool) (f : flags) :
  reaches_loaders export_suffixes check_suffix attempt_download load_names ws data f ->
  (forall b w, exists l, vendor_load b w = Ok l) ->
  (tfjs_only f -> init ws device false data fp16 = Raise (Exception tfjs_message)) /\
  (forall b, In (f, b) single_backend ->
     exists self, init ws device false data fp16 = Ok self /\
                  fl self = f /\ net self = Some b /\ serves b self).
Proof.
  intros Hr Hv. split.
  - intros Ht. now apply init_tfjs_raises with (f := f).
  - intros b Hb.
    destruct (init_reaches export_suffixes check_suffix attempt_download load_names
                vendor_load ws device false data fp16 f Hr) as (w & n & fp & E).
    rewrite E. clear E.
    simpl in Hb.
    repeat (destruct Hb as [Hb|Hb]; [injection Hb as <- <-|]); try contradiction;
      unfold load; simpl;
      match goal with
      | |- context [vendor_load ?b ?w] =>
          let l := fresh "l" in let El := fresh "El" in
          destruct (Hv b w) as [l El]; rewrite El; simpl
      end;
      try (destruct (meta_or _ _ _) as [s' n']);
      (eexists; split; [reflexivity|]; split; [reflexivity|]; split; [reflexivity|]);
      apply serves_selected; simpl; try discriminate; reflexivity.
Qed.

End Tfjs.

Lemma tfjs_alone_has_no_inference_witness :
  reaches_loaders yolov5_suffixes accept download_ok names_ok
    (WPath "yolov5s_web_model") None
    (Flags false false false false false false false false false false true) /\
  (forall b w, exists l, load_ok b w = Ok l) /\
  DMB.init yolov5_suffixes accept download_ok names_ok load_ok
    (WPath "yolov5s_web_model") cpu false None false
  = Raise (Exception tfjs_message).
Proof.
  assert (H : reaches_loaders yolov5_suffixes accept download_ok names_ok
                (WPath "yolov5s_web_model") None
                (Flags false false false false false false false false false false true)).
  { exists "yolov5s_web_model", "yolov5s_web_model". repeat split. }
  assert (Hv : forall b w, exists l, load_ok b w = Ok l).
  { intros b w. eexists. reflexivity. }
  split; [exact H|]. split; [exact Hv|].
  exact (proj1 (tfjs_alone_has_no_inference yolov5_suffixes accept download_ok names_ok
                  load_ok unit (fun x => x) (fun x => x) (fun _ _ x _ => x) (fun x => x)
                  (fun x => x) (fun _ _ x => x) unit_runtime
                  (WPath "yolov5s_web_model") cpu None false _ H Hv) eq_refl).
Defined.

End TfjsFacts.

(** ** CoAtNet: stages and resolution *)

Module CoAtFacts.

Import CoAt.

(** Only the first block of a stage is built with [downsample=True]. *)
Definition first_only (ls : list layer) : Prop :=
  forall i l, nth_error ls i = Some l -> l_downsample l = (i =? 0).

(** Every block of a stage is built by the constructor [b]. *)
Definition built_by (b : block) (ls : list layer) : Prop :=
  Forall (fun l => l_block l = b) ls.

(** The blocks of a stage built without [downsample] keep the resolution. *)
Definition rest_keeps (ls : list layer) : Prop :=
  forall l c hw y, In l ls -> l_downsample l = false ->
                   layer_out l (c, hw) = Ok y -> snd y = hw.

(** A block built with [downsample] halves each side, rounding up. *)
Definition first_halves (ls : list layer) : Prop :=
  forall l c h w y, In l ls -> l_downsample l = true ->
                    layer_out l (c, (h, w)) = Ok y ->
                    snd y = ((h + 1) / 2, (w + 1) / 2).

Example coatnet_0_stages :
  exists net, coatnet_0 = Ok net /\
              stages net (3, (224, 224)) = Ok (768, (7, 7)) /\
              map (@List.length layer) [s0 net; s1 net; s2 net; s3 net; s4 net]
              = [2; 2; 3; 5; 2].
Proof. eexists. repeat split. Qed.

Lemma make_layer_length (b : block) (inp oup depth : nat) (sz : nat * nat) :
  List.length (_make_layer b inp oup depth sz) = depth.
Proof. unfold _make_layer. now rewrite length_map, length_seq. Qed.

Lemma make_layer_nth (b : block) (inp oup depth : nat) (sz : nat * nat) (i : nat) (l : layer) :
  nth_error (_make_layer b inp oup depth sz) i = Some l ->
  l = if i =? 0 then Layer b inp oup sz true else Layer b oup oup sz false.
Proof.
  unfold _make_layer. intros H.
  rewrite nth_error_map in H.
  destruct (nth_error (seq 0 depth) i) as [j|] eqn:E; [|discriminate].
  assert (Hi : i < List.length (seq 0 depth)) by (apply nth_error_Some; congruence).
  rewrite length_seq in Hi.
  rewrite nth_error_nth' with (d := 0) in E by (now rewrite length_seq).
  rewrite seq_nth in E by assumption. simpl in E, H.
  injection E as <-. now injection H as <-.
Qed.

Lemma make_layer_first_only (b : block) (inp oup depth : nat) (sz : nat * nat) :
  first_only (_make_layer b inp oup depth sz).
Proof.
  intros i l H. apply make_layer_nth in H. subst l. now destruct (i =? 0).
Qed.

Lemma make_layer_built_by (b : block) (inp oup depth : nat) (sz : nat * nat) :
  built_by b (_make_layer b inp oup depth sz).
Proof.
  apply Forall_forall. intros l H. apply In_nth_error in H. destruct H as [i H].
  apply make_layer_nth in H. subst l. now destruct (i =? 0).
Qed.

Lemma window_keep3 (n : nat) : 0 < n -> window_out n 3 1 1 = Ok n.
Proof.
  intros H. unfold window_out.
  destruct (n + 2 * 1 <? 3) eqn:E; [apply Nat.ltb_lt in E; lia|].
  f_equal. rewrite Nat.div_1_r. lia.
Qed.

Lemma window_keep1 (n : nat) : 0 < n -> window_out n 1 1 0 = Ok n.
Proof.
  intros H. unfold window_out.
  destruct (n + 2 * 0 <? 1) eqn:E; [apply Nat.ltb_lt in E; lia|].
  f_equal. rewrite Nat.div_1_r. lia.
Qed.

Lemma window_half3 (n : nat) : 0 < n -> window_out n 3 2 1 = Ok ((n + 1) / 2).
Proof.
  intros H. unfold window_out.
  destruct (n + 2 * 1 <? 3) eqn:E; [apply Nat.ltb_lt in E; lia|].
  f_equal. destruct n as [|m]; [lia|].
  replace (S m + 2 * 1 - 3) with m by lia.
  replace (S m + 1) with (m + 1 * 2) by lia.
  rewrite Nat.div_add by lia. reflexivity.
Qed.

Lemma window_half1 (n : nat) : 0 < n -> window_out n 1 2 0 = Ok ((n + 1) / 2).
Proof.
  intros H. unfold window_out.
  destruct (n + 2 * 0 <? 1) eqn:E; [apply Nat.ltb_lt in E; lia|].
  f_equal. destruct n as [|m]; [lia|].
  replace (S m + 2 * 0 - 1) with m by lia.
  replace (S m + 1) with (m + 1 * 2) by lia.
  rewrite Nat.div_add by lia. reflexivity.
Qed.

Lemma window_ok_pos (n k s p m : nat) :
  0 < k -> p = 0 \/ 2 * p < k -> window_out n k s p = Ok m -> 0 < n.
Proof.
  unfold window_out. intros Hk Hp H.
  destruct (n + 2 * p <? k) eqn:E; [discriminate|].
  apply Nat.ltb_ge in E. lia.
Qed.

Lemma window2_half3 (hw y : nat * nat) :
  window_out2 hw 3 2 1 = Ok y -> y = ((fst hw + 1) / 2, (snd hw + 1) / 2).
Proof.
  unfold window_out2. destruct hw as [h w]. cbn [fst snd].
  destruct (window_out h 3 2 1) as [h'|] eqn:Eh; [|discriminate].
  destruct (window_out w 3 2 1) as [w'|] eqn:Ew; [|discriminate]. cbn [Py.bind].
  intros [= <-].
  rewrite window_half3 in Eh by (apply (window_ok_pos h 3 2 1 h'); [lia|lia|assumption]).
  rewrite window_half3 in Ew by (apply (window_ok_pos w 3 2 1 w'); [lia|lia|assumption]).
  cbn [fst snd]. congruence.
Qed.

Lemma window2_keep3 (hw y : nat * nat) :
  window_out2 hw 3 1 1 = Ok y -> y = hw.
Proof.
  unfold window_out2. destruct hw as [h w]. cbn [fst snd].
  destruct (window_out h 3 1 1) as [h'|] eqn:Eh; [|discriminate].
  destruct (window_out w 3 1 1) as [w'|] eqn:Ew; [|discriminate]. cbn [Py.bind].
  intros [= <-].
  rewrite window_keep3 in Eh by (apply (window_ok_pos h 3 1 1 h'); [lia|lia|assumption]).
  rewrite window_keep3 in Ew by (apply (window_ok_pos w 3 1 1 w'); [lia|lia|assumption]).
  cbn [fst snd]. congruence.
Qed.

(** A block built without [downsample] keeps the resolution. *)
Lemma layer_keeps (l : layer) (c : nat) (hw : nat * nat) (y : nat * (nat * nat)) :
  l_downsample l = false -> layer_out l (c, hw) = Ok y -> snd y = hw.
Proof.
  intros Hd. unfold layer_out. rewrite Hd.
  destruct (negb (c =? l_inp l)); [discriminate|].
  destruct (l_block l); simpl.
  - destruct (window_out2 hw 3 1 1) as [hw'|] eqn:E; [|discriminate]. simpl.
    intros [= <-]. simpl. now apply window2_keep3.
  - destruct (window_out2 hw 1 1 0) as [c1|]; [|discriminate]. simpl.
    destruct (window_out2 c1 3 1 1) as [c2|]; [|discriminate]. simpl.
    destruct (same_size hw c2 && (l_inp l =? l_oup l)); [|discriminate].
    now intros [= <-].
  - destruct (same_size hw (l_image_size l) && (l_inp l =? l_oup l)); [|discriminate].
    now intros [= <-].
Qed.

(** A block built with [downsample] halves each side, rounding up. *)
Lemma layer_halves (l : layer) (c h w : nat) (y : nat * (nat * nat)) :
  l_downsample l = true -> layer_out l (c, (h, w)) = Ok y ->
  snd y = ((h + 1) / 2, (w + 1) / 2).
Proof.
  intros Hd. unfold layer_out. rewrite Hd.
  destruct (negb (c =? l_inp l)); [discriminate|].
  destruct (l_block l); simpl.
  - destruct (window_out2 (h, w) 3 2 1) as [hw'|] eqn:E; [|discriminate]. simpl.
    intros [= <-]. simpl. now apply window2_half3 in E.
  - destruct (window_out2 (h, w) 3 2 1) as [hw'|] eqn:E; [|discriminate]. simpl.
    destruct (window_out2 (h, w) 1 2 0) as [c1|]; [|discriminate]. simpl.
    destruct (window_out2 c1 3 1 1) as [c2|]; [|discriminate]. simpl.
    destruct (same_size hw' c2); [|discriminate].
    intros [= <-]. simpl. now apply window2_half3 in E.
  - destruct (window_out2 (h, w) 3 2 1) as [hw'|] eqn:E; [|discriminate]. simpl.
    destruct (same_size hw' (l_image_size l)); [|discriminate].
    intros [= <-]. simpl. now apply window2_half3 in E.
Qed.

Lemma sequential_rest (f : nat -> layer) (l : layer) (y : nat * (nat * nat)) (d k : nat) :
  (forall i, 1 <= i -> f i = l) ->
  layer_out l y = Ok y ->
  1 <= k ->
  sequential (map f (seq k d)) y = Ok y.
Proof.
  intros Hf Hl. revert k. induction d as [|d IH]; intros k Hk; simpl; [reflexivity|].
  rewrite (Hf k Hk), Hl. simpl. apply IH. lia.
Qed.

(** A stage of at least one block: the first block maps [x] to [y], the
    other blocks leave [y] as it is. *)
Lemma sequential_stage (b : block) (inp oup d : nat) (sz : nat * nat)
    (x y : nat * (nat * nat)) :
  layer_out (Layer b inp oup sz true) x = Ok y ->
  layer_out (Layer b oup oup sz false) y = Ok y ->
  sequential (_make_layer b inp oup (S d) sz) x = Ok y.
Proof.
  intros H1 H2. unfold _make_layer. simpl. rewrite H1. simpl.
  apply sequential_rest with (l := Layer b oup oup sz false); trivial.
  intros i Hi. destruct i; [lia|reflexivity].
Qed.

Lemma half_double (h : nat) : (2 * h + 1) / 2 = h.
Proof.
  replace (2 * h + 1) with (1 + h * 2) by lia.
  rewrite Nat.div_add by lia. reflexivity.
Qed.

Lemma window2_down3 (h w : nat) :
  0 < h -> 0 < w -> window_out2 (2 * h, 2 * w) 3 2 1 = Ok (h, w).
Proof.
  intros Hh Hw. unfold window_out2. cbn [fst snd].
  rewrite !window_half3 by lia. cbn [Py.bind]. now rewrite !half_double.
Qed.

Lemma window2_down1 (h w : nat) :
  0 < h -> 0 < w -> window_out2 (2 * h, 2 * w) 1 2 0 = Ok (h, w).
Proof.
  intros Hh Hw. unfold window_out2. cbn [fst snd].
  rewrite !window_half1 by lia. cbn [Py.bind]. now rewrite !half_double.
Qed.

Lemma window2_same3 (h w : nat) :
  0 < h -> 0 < w -> window_out2 (h, w) 3 1 1 = Ok (h, w).
Proof.
  intros Hh Hw. unfold window_out2. cbn [fst snd].
  now rewrite !window_keep3 by lia.
Qed.

Lemma window2_same1 (h w : nat) :
  0 < h -> 0 < w -> window_out2 (h, w) 1 1 0 = Ok (h, w).
Proof.
  intros Hh Hw. unfold window_out2. cbn [fst snd].
  now rewrite !window_keep1 by lia.
Qed.

Lemma same_size_refl (hw : nat * nat) : same_size hw hw = true.
Proof. unfold same_size. now rewrite !Nat.eqb_refl. Qed.

Lemma stage_conv (inp oup d h w : nat) (sz : nat * nat) :
  0 < h -> 0 < w ->
  sequential (_make_layer conv_3x3_bn inp oup (S d) sz) (inp, (2 * h, 2 * w))
  = Ok (oup, (h, w)).
Proof.
  intros Hh Hw. apply sequential_stage; unfold layer_out;
    cbn [l_inp l_oup l_block l_downsample l_image_size];
    rewrite Nat.eqb_refl; cbn [negb].
  - now rewrite window2_down3.
  - now rewrite window2_same3.
Qed.

Lemma stage_mbconv (inp oup d h w : nat) (sz : nat * nat) :
  0 < h -> 0 < w ->
  sequential (_make_layer MBConv inp oup (S d) sz) (inp, (2 * h, 2 * w))
  = Ok (oup, (h, w)).
Proof.
  intros Hh Hw. apply sequential_stage; unfold layer_out;
    cbn [l_inp l_oup l_block l_downsample l_image_size];
    rewrite Nat.eqb_refl; cbn [negb].
  - rewrite window2_down3, window2_down1 by assumption. cbn [Py.bind].
    rewrite window2_same3 by assumption. cbn [Py.bind].
    now rewrite same_size_refl.
  - rewrite window2_same1 by assumption. cbn [Py.bind].
    rewrite window2_same3 by assumption. cbn [Py.bind].
    now rewrite same_size_refl.
Qed.

Lemma stage_transformer (inp oup d h w : nat) :
  0 < h -> 0 < w ->
  sequential (_make_layer Transformer inp oup (S d) (h, w)) (inp, (2 * h, 2 * w))
  = Ok (oup, (h, w)).
Proof.
  intros Hh Hw. apply sequential_stage; unfold layer_out;
    cbn [l_inp l_oup l_block l_downsample l_image_size];
    rewrite Nat.eqb_refl; cbn [negb].
  - rewrite window2_down3 by assumption. cbn [Py.bind].
    now rewrite same_size_refl.
  - cbn [Py.bind]. now rewrite same_size_refl.
Qed.

(** C7: with the default [block_types], for an image whose sides are
    multiples of 32, stages of at least one block each and numbers of
    channels that are all positive (the constructor of [MBConv] refuses a
    block of no input channel), [CoAtNet] builds
    stage [s0] of [conv_3x3_bn] blocks, [s1] and [s2] of [MBConv] blocks, [s3]
    and [s4] of [Transformer] blocks; in each stage the first block alone is
    built with [downsample=True] and halves the resolution, the other blocks
    keep it; the five stages take sides [32 * a] and [32 * b] to [a] and
    [b], ahead of the average pooling of kernel [a] and the linear layer on
    the channels of the last stage. *)
Theorem coatnet_default_stages
    (a b in_channels num_classes n0 n1 n2 n3 n4 c0 c1 c2 c3 c4 : nat) :
  0 < a -> 0 < b ->
  0 < n0 -> 0 < n1 -> 0 < n2 -> 0 < n3 -> 0 < n4 ->
  0 < in_channels -> 0 < c0 -> 0 < c1 -> 0 < c2 -> 0 < c3 -> 0 < c4 ->
  exists net,
    init (32 * a, 32 * b) in_channels [n0; n1; n2; n3; n4] [c0; c1; c2; c3; c4]
         num_classes default_block_types = Ok net /\
    built_by conv_3x3_bn (s0 net) /\
    built_by MBConv (s1 net) /\ built_by MBConv (s2 net) /\
    built_by Transformer (s3 net) /\ built_by Transformer (s4 net) /\
    map (@List.length layer) [s0 net; s1 net; s2 net; s3 net; s4 net]
    = [n0; n1; n2; n3; n4] /\
    Forall (fun s => first_only s /\ rest_keeps s /\ first_halves s)
           [s0 net; s1 net; s2 net; s3 net; s4 net] /\
    stages net (in_channels, (32 * a, 32 * b)) = Ok (c4, (a, b)) /\
    pool net = a /\ fc net = (c4, num_classes).
Proof.
  intros Ha Hb H0 H1 H2 H3 H4 _ _ _ _ _ _.
  eexists. split; [reflexivity|].
  cbn [s0 s1 s2 s3 s4 pool fc].
  repeat split; try apply make_layer_built_by;
    try (rewrite Nat.mul_comm; apply Nat.div_mul; lia).
  - cbn [map]. now rewrite !make_layer_length.
  - repeat constructor; try apply make_layer_first_only;
      try (intros l c hw y _; apply layer_keeps);
      try (intros l c h w y _; apply layer_halves).
  - unfold stages. cbn [s0 s1 s2 s3 s4].
    destruct n0 as [|d0]; [lia|]. destruct n1 as [|d1]; [lia|].
    destruct n2 as [|d2]; [lia|]. destruct n3 as [|d3]; [lia|].
    destruct n4 as [|d4]; [lia|].
    replace (32 * a / 16) with (2 * a) by (apply Nat.div_unique_exact; lia).
    replace (32 * b / 16) with (2 * b) by (apply Nat.div_unique_exact; lia).
    replace (32 * a / 32) with a by (apply Nat.div_unique_exact; lia).
    replace (32 * b / 32) with b by (apply Nat.div_unique_exact; lia).
    replace (32 * a) with (2 * (16 * a)) by lia.
    replace (32 * b) with (2 * (16 * b)) by lia.
    rewrite stage_conv by lia. cbn [Py.bind].
    replace (16 * a) with (2 * (8 * a)) by lia.
    replace (16 * b) with (2 * (8 * b)) by lia.
    rewrite stage_mbconv by lia. cbn [Py.bind].
    replace (8 * a) with (2 * (4 * a)) by lia.
    replace (8 * b) with (2 * (4 * b)) by lia.
    rewrite stage_mbconv by lia. cbn [Py.bind].
    replace (4 * a) with (2 * (2 * a)) by lia.
    replace (4 * b) with (2 * (2 * b)) by lia.
    rewrite stage_transformer by lia. cbn [Py.bind].
    now rewrite stage_transformer by lia.
Qed.

Lemma coatnet_default_stages_witness :
  0 < 7 /\ 0 < 7 /\ 0 < 2 /\ 0 < 2 /\ 0 < 3 /\ 0 < 5 /\ 0 < 2 /\
  0 < 3 /\ 0 < 64 /\ 0 < 96 /\ 0 < 192 /\ 0 < 384 /\ 0 < 768 /\
  exists net,
    init (32 * 7, 32 * 7) 3 [2; 2; 3; 5; 2] [64; 96; 192; 384; 768]
         1000 default_block_types = Ok net /\
    built_by conv_3x3_bn (s0 net) /\
    built_by MBConv (s1 net) /\ built_by MBConv (s2 net) /\
    built_by Transformer (s3 net) /\ built_by Transformer (s4 net) /\
    map (@List.length layer) [s0 net; s1 net; s2 net; s3 net; s4 net]
    = [2; 2; 3; 5; 2] /\
    Forall (fun s => first_only s /\ rest_keeps s /\ first_halves s)
           [s0 net; s1 net; s2 net; s3 net; s4 net] /\
    stages net (3, (32 * 7, 32 * 7)) = Ok (768, (7, 7)) /\
    pool net = 7 /\ fc net = (768, 1000).
Proof.
  repeat (split; [lia|]).
  apply (coatnet_default_stages 7 7 3 1000 2 2 3 5 2 64 96 192 384 768); lia.
Defined.

End CoAtFacts.

Module TensorFacts.

Import Tensor ListFacts.

Lemma numel_cons (d : nat) (sh : list nat) : numel (d :: sh) = d * numel sh.
Proof. reflexivity. Qed.

Lemma unravel_lt (sh : list nat) :
  forall k, k < numel sh -> Forall2 lt (unravel sh k) sh.
Proof.
  induction sh as [|d rest IH]; intros k Hk; simpl; [constructor|].
  rewrite numel_cons in Hk.
  assert (HN : numel rest <> 0) by (intros E; rewrite E in Hk; lia).
  constructor.
  - apply Nat.Div0.div_lt_upper_bound. lia.
  - apply IH. now apply Nat.mod_upper_bound.
Qed.

Lemma ravel_unravel (sh : list nat) :
  forall k, k < numel sh -> ravel sh (unravel sh k) = k.
Proof.
  induction sh as [|d rest IH]; intros k Hk; simpl.
  - simpl in Hk. lia.
  - rewrite numel_cons in Hk.
    assert (HN : numel rest <> 0) by (intros E; rewrite E in Hk; lia).
    rewrite IH by (now apply Nat.mod_upper_bound).
    rewrite (Nat.div_mod_eq k (numel rest)) at 3. lia.
Qed.

Lemma ravel_lt (sh idx : list nat) :
  Forall2 lt idx sh -> ravel sh idx < numel sh.
Proof.
  induction 1 as [|i d idx sh Hi _ IH]; simpl; [lia|].
  fold (numel sh). nia.
Qed.

Lemma unravel_ravel (sh idx : list nat) :
  Forall2 lt idx sh -> unravel sh (ravel sh idx) = idx.
Proof.
  induction 1 as [|i d idx sh Hi H IH]; simpl; [reflexivity|].
  pose proof (ravel_lt sh idx H) as Hr.
  assert (HN : numel sh <> 0) by lia.
  f_equal.
  - rewrite Nat.div_add_l by assumption. rewrite Nat.div_small by assumption. lia.
  - rewrite Nat.add_comm, Nat.Div0.mod_add, Nat.mod_small by assumption. exact IH.
Qed.

Lemma gather_length {A : Type} (xs : list A) (ks : list nat) :
  xs <> [] -> List.length (gather xs ks) = List.length ks.
Proof.
  destruct xs as [|a xs]; [congruence|]. intros _. unfold gather. apply length_map.
Qed.

Lemma gather_nth {A : Type} (xs : list A) (ks : list nat) (i : nat) (d : A) :
  i < List.length ks -> nth i ks 0 < List.length xs ->
  nth i (gather xs ks) d = nth (nth i ks 0) xs d.
Proof.
  intros Hi Hk. destruct xs as [|a xs]; [simpl in Hk; lia|].
  unfold gather.
  rewrite nth_indep with (d' := nth 0 (a :: xs) a) by (now rewrite length_map).
  rewrite (map_nth (fun k => nth k (a :: xs) a) ks 0 i).
  apply nth_indep. assumption.
Qed.

Lemma permute_nth {A : Type} (x : t A) (dims j : list nat) (d : A) :
  Forall2 lt j (shape (permute x dims)) ->
  Forall2 lt (source_index (List.length (shape x)) dims j) (shape x) ->
  wf x ->
  nth (ravel (shape (permute x dims)) j) (data (permute x dims)) d
  = nth (ravel (shape x) (source_index (List.length (shape x)) dims j)) (data x) d.
Proof.
  intros Hj Hs Hwf. unfold permute in *. cbn [shape data] in *.
  set (sh := map (fun d => nth d (shape x) 0) dims) in *.
  pose proof (ravel_lt _ _ Hj) as Hk.
  pose proof (ravel_lt _ _ Hs) as Hk'.
  rewrite gather_nth.
  - rewrite nth_map_seq by assumption. now rewrite unravel_ravel.
  - now rewrite length_map, length_seq.
  - rewrite nth_map_seq by assumption. rewrite unravel_ravel by assumption.
    now rewrite Hwf.
Qed.

Lemma permute_wf {A : Type} (x : t A) (dims : list nat) :
  wf x -> numel (shape (permute x dims)) = numel (shape x) -> wf (permute x dims).
Proof.
  unfold wf. intros Hwf Hn. rewrite Hn.
  unfold permute in *. cbn [shape data] in *.
  destruct (data x) as [|a xs] eqn:E.
  - simpl. exact Hwf.
  - unfold gather. rewrite length_map, length_map, length_seq. exact Hn.
Qed.

(** Two tensors of the same shape with the same element at every
    multi-index are the same tensor. *)
Lemma tensor_ext {A : Type} (x y : t A) :
  shape x = shape y -> wf x -> wf y ->
  (forall j d, Forall2 lt j (shape x) ->
               nth (ravel (shape x) j) (data x) d = nth (ravel (shape x) j) (data y) d) ->
  x = y.
Proof.
  destruct x as [sx dx], y as [sy dy]. unfold wf. cbn [shape data].
  intros <- Hx Hy H. f_equal.
  destruct dx as [|a dx'].
  - destruct dy; [reflexivity|]. simpl in *. congruence.
  - apply nth_ext with (d := a) (d' := a); [congruence|].
    intros k Hk. rewrite Hx in Hk.
    rewrite <- (ravel_unravel sx k Hk).
    apply H. now apply unravel_lt.
Qed.

(** Split a bound on a multi-index into the bounds on its coordinates. *)
Ltac coordinates H :=
  repeat match type of H with
         | Forall2 _ _ (_ :: _) =>
             let i := fresh "i" in let Hi := fresh "Hi" in
             let l := fresh "l" in let Hl := fresh "Hl" in
             inversion H as [|i ? l ? Hi Hl]; subst; clear H; rename Hl into H
         | Forall2 _ _ [] => inversion H; subst; clear H
         end.

Ltac compute_index :=
  cbn [permute shape map nth List.length source_index seq combine find snd fst Nat.eqb].

Ltac compute_index_in H :=
  cbn [permute shape map nth List.length source_index seq combine find snd fst Nat.eqb] in H.

Ltac in_bounds := compute_index; repeat constructor; assumption.

Lemma permute_there_back {A : Type} (p q : list nat) (x : t A) :
  (p = [0; 3; 5; 1; 2; 4] /\ q = [0; 3; 4; 1; 5; 2]) \/
  (p = [0; 3; 4; 1; 5; 2] /\ q = [0; 3; 5; 1; 2; 4]) ->
  List.length (shape x) = 6 -> wf x ->
  permute (permute x p) q = x.
Proof.
  intros Hpq H6 Hwf.
  destruct x as [sh dx].
  destruct sh as [|n0 [|n1 [|n2 [|n3 [|n4 [|n5 [|? ?]]]]]]]; try discriminate.
  assert (Hwf1 : wf (permute (Make [n0; n1; n2; n3; n4; n5] dx) p)).
  { apply permute_wf; [assumption|].
    destruct Hpq as [[-> _]|[-> _]]; cbn; ring. }
  assert (Hwf2 : wf (permute (permute (Make [n0; n1; n2; n3; n4; n5] dx) p) q)).
  { apply permute_wf; [assumption|].
    destruct Hpq as [[-> ->]|[-> ->]]; cbn; ring. }
  apply tensor_ext; trivial.
  - destruct Hpq as [[-> ->]|[-> ->]]; reflexivity.
  - intros j d Hj. pose proof Hj as Hj'.
    destruct Hpq as [[-> ->]|[-> ->]];
      (compute_index_in Hj'; coordinates Hj';
       rewrite permute_nth; [|in_bounds|in_bounds|assumption];
       compute_index;
       match goal with
       | |- nth (ravel ?s ?i) _ _ = _ =>
           match type of Hwf1 with
           | wf ?y => change s with (shape y)
           end
       end;
       rewrite permute_nth; [reflexivity|in_bounds|in_bounds|assumption]).
Qed.

End TensorFacts.

(** ** Contract and Expand are inverse to each other *)

Module ReorgFacts.

Import Tensor Reorg TensorFacts.
Local Open Scope py_scope.

Lemma view_ok {A : Type} (x : t A) (sh : list nat) :
  numel sh = numel (shape x) -> view x sh = Ok (Make sh (data x)).
Proof. intros H. unfold view. now rewrite H, Nat.eqb_refl. Qed.

Lemma floordiv_ok (a b : nat) : 0 < b -> floordiv a b = Ok (a / b).
Proof.
  intros H. unfold floordiv. destruct (b =? 0) eqn:E; [|reflexivity].
  apply Nat.eqb_eq in E. lia.
Qed.

Example contract_2x4 :
  Contract_forward 2 (Make [1; 1; 2; 4] [0; 1; 2; 3; 4; 5; 6; 7])
  = Ok (Make [1; 4; 1; 2] [0; 2; 1; 3; 4; 6; 5; 7]).
Proof. reflexivity. Qed.

Example contract_indivisible :
  Contract_forward 2 (Make [1; 1; 3; 4] (seq 0 12)) = Raise RuntimeError.
Proof. reflexivity. Qed.

Lemma expand_contract {A : Type} (s b c h w : nat) (x : t A) :
  0 < s -> shape x = [b; c; h; w] -> wf x ->
  h mod s = 0 -> w mod s = 0 ->
  (x' <- Contract_forward s x ;; Expand_forward s x') = Ok x.
Proof.
  intros Hs Hsh Hwf Hh Hw.
  destruct x as [sh dx]. cbn [shape] in Hsh. subst sh.
  apply Nat.Div0.div_exact in Hh, Hw.
  set (hs := h / s) in *. set (ws := w / s) in *.
  unfold Contract_forward. cbn [shape].
  rewrite !floordiv_ok by assumption. cbn [Py.bind]. fold hs ws.
  rewrite view_ok by (cbn; rewrite Hh, Hw; ring). cbn [Py.bind].
  set (x1 := Make [b; c; hs; s; ws; s] dx).
  assert (Hwf1 : wf x1).
  { unfold wf in *. cbn in *. rewrite Hwf, Hh, Hw. ring. }
  rewrite view_ok by (cbn; ring). cbn [Py.bind].
  unfold Expand_forward. cbn [shape].
  assert (Hs2 : 0 < s ^ 2) by (simpl; nia).
  rewrite floordiv_ok by assumption.
  replace (c * s * s / s ^ 2) with c
    by (replace (c * s * s) with (c * s ^ 2) by (simpl; ring);
        symmetry; apply Nat.div_mul; lia).
  cbn [Py.bind].
  rewrite view_ok by (cbn; ring). cbn [Py.bind data].
  rewrite view_ok by (cbn; ring).
  change (Make [b; s; s; c; hs; ws]
            (data (permute (Make [b; c; hs; s; ws; s] dx) [0; 3; 5; 1; 2; 4])))
    with (permute x1 [0; 3; 5; 1; 2; 4]).
  rewrite permute_there_back by (auto).
  unfold x1. cbn [data].
  replace (hs * s) with h by lia. replace (ws * s) with w by lia. reflexivity.
Qed.

Lemma contract_expand {A : Type} (s b c h w : nat) (y : t A) :
  0 < s -> shape y = [b; c; h; w] -> wf y ->
  c mod s ^ 2 = 0 ->
  (y' <- Expand_forward s y ;; Contract_forward s y') = Ok y.
Proof.
  intros Hs Hsh Hwf Hc.
  destruct y as [sh dy]. cbn [shape] in Hsh. subst sh.
  assert (Hs2 : 0 < s ^ 2) by (simpl; nia).
  apply Nat.Div0.div_exact in Hc.
  set (cs := c / s ^ 2) in *.
  assert (Hc' : c = cs * s * s) by (rewrite Hc; simpl; ring).
  unfold Expand_forward. cbn [shape].
  rewrite floordiv_ok by assumption. cbn [Py.bind]. fold cs.
  rewrite view_ok by (cbn; rewrite Hc'; ring). cbn [Py.bind].
  set (y1 := Make [b; s; s; cs; h; w] dy).
  assert (Hwf1 : wf y1).
  { unfold wf in *. cbn in *. rewrite Hwf, Hc'. ring. }
  rewrite view_ok by (cbn; ring). cbn [Py.bind].
  unfold Contract_forward. cbn [shape].
  rewrite !floordiv_ok by assumption.
  rewrite !Nat.div_mul by lia.
  cbn [Py.bind].
  rewrite view_ok by (cbn; ring). cbn [Py.bind data].
  rewrite view_ok by (cbn; ring).
  change (Make [b; cs; h; s; w; s]
            (data (permute (Make [b; s; s; cs; h; w] dy) [0; 3; 4; 1; 5; 2])))
    with (permute y1 [0; 3; 4; 1; 5; 2]).
  rewrite permute_there_back by (auto).
  unfold y1. cbn [data]. now rewrite <- Hc'.
Qed.

(** C9: for a gain [s] (positive) and a tensor [x] of shape [(b, c, h, w)],
    [Expand] undoes [Contract] when [s] divides [h] and [w], and [Contract]
    undoes [Expand] when [s ** 2] divides [c]. *)
Theorem contract_expand_inverse {A : Type} (s b c h w : nat) (x : t A) :
  0 < s -> shape x = [b; c; h; w] -> wf x ->
  (h mod s = 0 -> w mod s = 0 ->
   (x' <- Contract_forward s x ;; Expand_forward s x') = Ok x) /\
  (c mod s ^ 2 = 0 ->
   (y' <- Expand_forward s x ;; Contract_forward s y') = Ok x).
Proof.
  intros Hs Hsh Hwf. split.
  - now apply expand_contract with (b := b) (c := c).
  - now apply contract_expand with (b := b) (h := h) (w := w).
Qed.

Lemma contract_expand_inverse_witness :
  0 < 2 /\
  shape (Make [1; 4; 2; 4] (seq 0 32)) = [1; 4; 2; 4] /\
  wf (Make [1; 4; 2; 4] (seq 0 32)) /\
  (2 mod 2 = 0 -> 4 mod 2 = 0 ->
   (x' <- Contract_forward 2 (Make [1; 4; 2; 4] (seq 0 32)) ;; Expand_forward 2 x')
   = Ok (Make [1; 4; 2; 4] (seq 0 32))) /\
  (4 mod 2 ^ 2 = 0 ->
   (y' <- Expand_forward 2 (Make [1; 4; 2; 4] (seq 0 32)) ;; Contract_forward 2 y')
   = Ok (Make [1; 4; 2; 4] (seq 0 32))).
Proof.
  split; [lia|]. split; [reflexivity|]. split; [reflexivity|].
  apply (contract_expand_inverse 2 1 4 2 4 (Make [1; 4; 2; 4] (seq 0 32)));
    [lia | reflexivity | reflexivity].
Defined.

End ReorgFacts.

(** ** Max pooling in cascade *)

Module PoolFacts.

Import Pool ListFacts.

Section Semilattice.

Variable A : Type.
Variable max : A -> A -> A.
Hypothesis max_comm : forall a b, max a b = max b a.
Hypothesis max_assoc : forall a b c, max a (max b c) = max (max a b) c.
Hypothesis max_idem : forall a, max a a = a.

(** The order of the maximum. *)
Definition le (a b : A) : Prop := max a b = b.

Lemma le_refl (a : A) : le a a.
Proof. apply max_idem. Qed.

Lemma le_trans (a b c : A) : le a b -> le b c -> le a c.
Proof. unfold le. intros H1 H2. rewrite <- H2, max_assoc, H1. reflexivity. Qed.

Lemma le_antisym (a b : A) : le a b -> le b a -> a = b.
Proof. unfold le. intros H1 H2. rewrite <- H1, max_comm. symmetry. exact H2. Qed.

Lemma le_max_l (a b : A) : le a (max a b).
Proof. unfold le. now rewrite max_assoc, max_idem. Qed.

Lemma le_max_r (a b : A) : le b (max a b).
Proof. rewrite max_comm. apply le_max_l. Qed.

Lemma max_least (a b z : A) : le a z -> le b z -> le (max a b) z.
Proof. unfold le. intros H1 H2. now rewrite <- max_assoc, H2, H1. Qed.

Lemma fold_upper (vs : list A) :
  forall v u, In u (v :: vs) -> le u (fold_left max vs v).
Proof.
  induction vs as [|w vs IH]; intros v u H; simpl.
  - destruct H as [->|[]]. apply le_refl.
  - destruct H as [->|[->|H]].
    + apply le_trans with (max u w); [apply le_max_l|]. apply IH. now left.
    + apply le_trans with (max v u); [apply le_max_r|]. apply IH. now left.
    + apply IH. now right.
Qed.

Lemma fold_least (vs : list A) :
  forall v z, (forall u, In u (v :: vs) -> le u z) -> le (fold_left max vs v) z.
Proof.
  induction vs as [|w vs IH]; intros v z H; simpl.
  - apply H. now left.
  - apply IH. intros u [Hu|Hu].
    + subst u. apply max_least; apply H; simpl; auto.
    + apply H. simpl. auto.
Qed.

(** [v] is the least upper bound of the elements that satisfy [P]. *)
Definition lub (P : A -> Prop) (v : A) : Prop :=
  (forall u, P u -> le u v) /\ (forall z, (forall u, P u -> le u z) -> le v z).

Lemma lub_unique (P : A -> Prop) (v v' : A) : lub P v -> lub P v' -> v = v'.
Proof.
  intros [U L] [U' L']. apply le_antisym; [apply L, U' | apply L', U].
Qed.

Lemma fold_lub (v : A) (vs : list A) :
  lub (fun u => In u (v :: vs)) (fold_left max vs v).
Proof.
  split; [intros u; apply fold_upper | intros z; apply fold_least].
Qed.

(** *** Planes *)

(** A plane of [h] rows of [w] cells. *)
Definition rect (h w : nat) (x : plane A) : Prop :=
  List.length x = h /\ Forall (fun row => List.length row = w) x.

Lemma rect_row (h w : nat) (x : plane A) (i : nat) :
  rect h w x -> i < h -> List.length (nth i x []) = w.
Proof.
  intros [Hh Hw] Hi. rewrite Forall_forall in Hw. apply Hw, nth_In. lia.
Qed.

Lemma rect_hd (h w : nat) (x : plane A) :
  rect h w x -> 0 < h -> List.length (hd [] x) = w.
Proof.
  intros H Hh. rewrite <- (rect_row h w x 0 H Hh). now destruct x.
Qed.

Lemma cell_some (h w : nat) (x : plane A) (i j : nat) :
  rect h w x -> i < h -> j < w -> exists v, cell x i j = Some v.
Proof.
  intros H Hi Hj. unfold cell.
  destruct (nth_error (nth i x []) j) as [v|] eqn:E; [now exists v|].
  apply nth_error_None in E. rewrite (rect_row h w x i H Hi) in E. lia.
Qed.

Lemma cell_bounds (h w : nat) (x : plane A) (i j : nat) (v : A) :
  rect h w x -> cell x i j = Some v -> i < h /\ j < w.
Proof.
  intros H E. unfold cell in E.
  assert (Hj : j < List.length (nth i x [])) by (apply nth_error_Some; congruence).
  destruct (Nat.lt_ge_cases i h) as [Hi|Hi].
  - split; [assumption|]. now rewrite (rect_row h w x i H Hi) in Hj.
  - rewrite nth_overflow in Hj by (destruct H; lia). simpl in Hj. lia.
Qed.

Lemma rect_ext (h w : nat) (x y : plane A) :
  rect h w x -> rect h w y ->
  (forall i j, i < h -> j < w -> cell x i j = cell y i j) ->
  x = y.
Proof.
  intros Hx Hy H.
  apply nth_ext with (d := []) (d' := []); [destruct Hx, Hy; congruence|].
  intros i Hi. replace (List.length x) with h in Hi by (destruct Hx; congruence).
  apply nth_error_ext. intros j.
  destruct (Nat.lt_ge_cases j w) as [Hj|Hj]; [now apply H|].
  transitivity (@None A); [|symmetry]; apply nth_error_None.
  - now rewrite (rect_row h w x i Hx Hi).
  - now rewrite (rect_row h w y i Hy Hi).
Qed.

Lemma in_window (k p n i a : nat) :
  In a (window k p n i) <-> a < n /\ i <= a + p /\ a + p < i + k.
Proof.
  unfold window. rewrite filter_In, in_seq, andb_true_iff, Nat.leb_le, Nat.ltb_lt. lia.
Qed.

Lemma in_under (k p h w : nat) (x : plane A) (i j : nat) (u : A) :
  rect h w x ->
  In u (under k p x i j) <->
  exists a b, (i <= a + p /\ a + p < i + k) /\ (j <= b + p /\ b + p < j + k) /\
              cell x a b = Some u.
Proof.
  intros H. unfold under. rewrite in_flat_map. split.
  - intros (a & Ha & Hu). rewrite in_flat_map in Hu. destruct Hu as (b & Hb & Hu).
    apply in_window in Ha, Hb.
    destruct (cell x a b) as [v|] eqn:E; [|contradiction].
    destruct Hu as [<-|[]]. exists a, b. repeat split; lia || assumption.
  - intros (a & b & Ha & Hb & E).
    destruct (cell_bounds h w x a b u H E) as [Hah Hbw].
    exists a. split.
    + apply in_window. destruct H as [-> _]. lia.
    + rewrite in_flat_map. exists b. split.
      * apply in_window. rewrite (rect_hd h w x H) by lia. lia.
      * rewrite E. now left.
Qed.

Lemma flat_map_singletons {B C : Type} (g : B -> list C) (l : list B) :
  (forall y, In y l -> List.length (g y) = 1) ->
  List.length (flat_map g l) = List.length l /\
  forall j, nth_error (flat_map g l) j
            = match nth_error l j with
              | Some y => hd_error (g y)
              | None => None
              end.
Proof.
  induction l as [|y l IH]; intros H.
  - split; [reflexivity|]. intros j. now destruct j.
  - destruct IH as [IH1 IH2]; [intros z Hz; apply H; now right|].
    pose proof (H y (or_introl eq_refl)) as Hy.
    destruct (g y) as [|c [|? ?]] eqn:E; try discriminate.
    simpl. rewrite E. simpl. split; [now rewrite IH1|].
    intros [|j]; simpl; [now rewrite E|apply IH2].
Qed.

(** *** Pooling with an odd kernel [2 * r + 1] and padding [r] *)

(** The cells within [r] rows and [r] columns of [(i, j)]. *)
Definition covers (r : nat) (x : plane A) (i j : nat) (u : A) : Prop :=
  exists a b, i <= a + r /\ a <= i + r /\ j <= b + r /\ b <= j + r /\
              cell x a b = Some u.

Lemma under_covers (r h w : nat) (x : plane A) (i j : nat) (u : A) :
  rect h w x -> In u (under (2 * r + 1) r x i j) <-> covers r x i j u.
Proof.
  intros H. rewrite (in_under (2 * r + 1) r h w x i j u H). unfold covers.
  split; intros (a & b & K); exists a, b; intuition lia.
Qed.

Lemma pooled_lub (r h w : nat) (x : plane A) (i j : nat) :
  rect h w x -> i < h -> j < w ->
  exists v, pooled max (2 * r + 1) r x i j = [v] /\ lub (covers r x i j) v.
Proof.
  intros H Hi Hj. unfold pooled.
  destruct (cell_some h w x i j H Hi Hj) as [c Hc].
  assert (Hin : In c (under (2 * r + 1) r x i j)).
  { apply (under_covers r h w x i j c H). exists i, j. repeat split; lia || assumption. }
  destruct (under (2 * r + 1) r x i j) as [|v vs] eqn:E; [contradiction|].
  exists (fold_left max vs v). split; [reflexivity|].
  destruct (fold_lub v vs) as [U L]. split.
  - intros u Hu. apply U. rewrite <- E. now apply (under_covers r h w x i j u H).
  - intros z Hz. apply L. intros u Hu. apply Hz.
    apply (under_covers r h w x i j u H). now rewrite E.
Qed.

Lemma odd_kernel_side (n r : nat) : n + 2 * r + 1 - (2 * r + 1) = n.
Proof. lia. Qed.

Lemma maxpool_row (r h w : nat) (x : plane A) (i : nat) :
  rect h w x -> i < h ->
  List.length (nth i (maxpool2d max (2 * r + 1) r x) []) = w /\
  forall j, j < w ->
            nth_error (nth i (maxpool2d max (2 * r + 1) r x) []) j
            = hd_error (pooled max (2 * r + 1) r x i j).
Proof.
  intros H Hi. unfold maxpool2d. rewrite !odd_kernel_side.
  replace (List.length x) with h by (destruct H; congruence).
  rewrite (rect_hd h w x H) by lia.
  rewrite nth_map_seq by assumption.
  destruct (flat_map_singletons (pooled max (2 * r + 1) r x i) (seq 0 w)) as [L N].
  { intros j Hj. apply in_seq in Hj.
    destruct (pooled_lub r h w x i j H Hi) as (v & -> & _); [lia|reflexivity]. }
  split; [now rewrite L, length_seq|].
  intros j Hj. rewrite N.
  rewrite nth_error_nth' with (d := 0) by (now rewrite length_seq).
  now rewrite seq_nth.
Qed.

Lemma maxpool_rect (r h w : nat) (x : plane A) :
  rect h w x -> rect h w (maxpool2d max (2 * r + 1) r x).
Proof.
  intros H. split.
  - unfold maxpool2d. rewrite length_map, length_seq, odd_kernel_side. now destruct H.
  - apply Forall_forall. intros row Hrow.
    apply In_nth with (d := []) in Hrow. destruct Hrow as (i & Hi & <-).
    unfold maxpool2d in Hi. rewrite length_map, length_seq, odd_kernel_side in Hi.
    replace (List.length x) with h in Hi by (destruct H; congruence).
    exact (proj1 (maxpool_row r h w x i H Hi)).
Qed.

Lemma maxpool_cell (r h w : nat) (x : plane A) (i j : nat) :
  rect h w x -> i < h -> j < w ->
  exists v, cell (maxpool2d max (2 * r + 1) r x) i j = Some v /\
            lub (covers r x i j) v.
Proof.
  intros H Hi Hj. unfold cell.
  destruct (maxpool_row r h w x i H Hi) as [_ N]. rewrite (N j Hj).
  destruct (pooled_lub r h w x i j H Hi Hj) as (v & -> & L).
  now exists v.
Qed.

(** Between two cells at most [a + b] apart along a side there is a cell
    at most [a] from the first and at most [b] from the second. *)
Lemma midpoint (i q a b n : nat) :
  i < n -> q < n -> i <= q + (a + b) -> q <= i + (a + b) ->
  exists m, m < n /\ i <= m + a /\ m <= i + a /\ m <= q + b /\ q <= m + b.
Proof.
  intros Hi Hq H1 H2.
  destruct (Nat.le_ge_cases i q).
  - exists (Nat.min q (i + a)). lia.
  - exists (Nat.max q (i - a)). lia.
Qed.

(** Pooling with radius [b] and then with radius [a] is pooling with
    radius [a + b]. *)
Lemma maxpool_cascade (a b h w : nat) (x : plane A) :
  rect h w x ->
  maxpool2d max (2 * a + 1) a (maxpool2d max (2 * b + 1) b x)
  = maxpool2d max (2 * (a + b) + 1) (a + b) x.
Proof.
  intros H.
  pose proof (maxpool_rect b h w x H) as Hy.
  apply rect_ext with (h := h) (w := w); try (now apply maxpool_rect).
  intros i j Hi Hj.
  destruct (maxpool_cell a h w _ i j Hy Hi Hj) as (v & -> & [U L]).
  destruct (maxpool_cell (a + b) h w x i j H Hi Hj) as (v' & -> & L').
  f_equal. apply lub_unique with (P := covers (a + b) x i j); [|assumption].
  split.
  - intros u (qa & qb & Q1 & Q2 & Q3 & Q4 & E).
    destruct (cell_bounds h w x qa qb u H E) as [Hqa Hqb].
    destruct (midpoint i qa a b h Hi Hqa Q1 Q2) as (ma & M1 & M2 & M3 & M4 & M5).
    destruct (midpoint j qb a b w Hj Hqb Q3 Q4) as (mb & N1 & N2 & N3 & N4 & N5).
    destruct (maxpool_cell b h w x ma mb H M1 N1) as (vm & Em & [Um _]).
    apply le_trans with vm.
    + apply Um. exists qa, qb. repeat split; lia || assumption.
    + apply U. exists ma, mb. repeat split; lia || assumption.
  - intros z Hz. apply L. intros vm (ma & mb & M1 & M2 & M3 & M4 & Em).
    destruct (cell_bounds h w _ ma mb vm Hy Em) as [Hma Hmb].
    destruct (maxpool_cell b h w x ma mb H Hma Hmb) as (vm' & Em' & [_ Lm]).
    rewrite Em in Em'. injection Em' as <-.
    apply Lm. intros u (qa & qb & Q1 & Q2 & Q3 & Q4 & E).
    apply Hz. exists qa, qb. repeat split; lia || assumption.
Qed.

(** *** Batches *)

(** A batch of shape [(b, c, h, w)] for some [b]. *)
Definition batch_of (c h w : nat) (x : tensor4 A) : Prop :=
  Forall (fun img => List.length img = c /\ Forall (rect h w) img) x.

Lemma MaxPool2d_batch (r c h w : nat) (x : tensor4 A) :
  batch_of c h w x -> batch_of c h w (MaxPool2d max (2 * r + 1) r x).
Proof.
  unfold batch_of, MaxPool2d. intros H. apply Forall_map.
  apply Forall_impl with (2 := H). intros img [Hc Hp]. split.
  - now rewrite length_map.
  - apply Forall_map. apply Forall_impl with (2 := Hp).
    intros p. apply maxpool_rect.
Qed.

Lemma MaxPool2d_cascade (a b c h w : nat) (x : tensor4 A) :
  batch_of c h w x ->
  MaxPool2d max (2 * a + 1) a (MaxPool2d max (2 * b + 1) b x)
  = MaxPool2d max (2 * (a + b) + 1) (a + b) x.
Proof.
  unfold batch_of, MaxPool2d. intros H. rewrite map_map.
  apply map_ext_in. intros img Himg. rewrite map_map.
  apply map_ext_in. intros p Hp.
  rewrite Forall_forall in H. destruct (H img Himg) as [_ Hr].
  rewrite Forall_forall in Hr. apply maxpool_cascade with (h := h) (w := w).
  now apply Hr.
Qed.

(** C8: on the output of [cv1], a batch of some shape [(b, c, h, w)], the
    5x5 pooling of [SPPF] applied twice is the 9x9 pooling and applied three
    times the 13x13 pooling of [SPP], so that [SPPF] with [k = 5] and [SPP]
    with [k = (5, 9, 13)], sharing [cv1] and [cv2], compute the same
    output. *)
Theorem sppf_is_spp (cv1 cv2 : tensor4 A -> tensor4 A) (c h w : nat) (x : tensor4 A) :
  batch_of c h w (cv1 x) ->
  MaxPool2d max 5 2 (MaxPool2d max 5 2 (cv1 x)) = MaxPool2d max 9 4 (cv1 x) /\
  MaxPool2d max 5 2 (MaxPool2d max 5 2 (MaxPool2d max 5 2 (cv1 x)))
  = MaxPool2d max 13 6 (cv1 x) /\
  SPPF_forward max cv1 cv2 5 x = SPP_forward max cv1 cv2 [5; 9; 13] x.
Proof.
  intros H.
  assert (H9 : MaxPool2d max 5 2 (MaxPool2d max 5 2 (cv1 x)) = MaxPool2d max 9 4 (cv1 x)).
  { exact (MaxPool2d_cascade 2 2 c h w (cv1 x) H). }
  assert (H13 : MaxPool2d max 5 2 (MaxPool2d max 5 2 (MaxPool2d max 5 2 (cv1 x)))
                = MaxPool2d max 13 6 (cv1 x)).
  { rewrite H9. exact (MaxPool2d_cascade 2 4 c h w (cv1 x) H). }
  split; [exact H9|]. split; [exact H13|].
  unfold SPPF_forward, SPP_forward. cbn [map].
  change (5 / 2) with 2. change (9 / 2) with 4. change (13 / 2) with 6.
  now rewrite H13, H9.
Qed.

End Semilattice.

Example pool_3x7 :
  maxpool2d Nat.max 5 2 [[1; 0; 0; 0; 0; 0; 0]; [0; 0; 0; 0; 0; 0; 0]; [0; 0; 0; 0; 0; 0; 2]]
  = [[1; 1; 1; 0; 2; 2; 2]; [1; 1; 1; 0; 2; 2; 2]; [1; 1; 1; 0; 2; 2; 2]].
Proof. reflexivity. Qed.

(** A batch of one image of one channel of 3 rows of 7 cells. *)
Definition sample_batch : tensor4 nat :=
  [[ [[1; 0; 0; 0; 0; 0; 0]; [0; 0; 0; 0; 0; 0; 0]; [0; 0; 0; 0; 0; 0; 2]] ]].

(** A [Conv] block that hands its input on. *)
Definition pass (t : tensor4 nat) : tensor4 nat := t.

Lemma sppf_is_spp_witness :
  batch_of nat 1 3 7 (pass sample_batch) /\
  MaxPool2d Nat.max 5 2 (MaxPool2d Nat.max 5 2 (pass sample_batch))
  = MaxPool2d Nat.max 9 4 (pass sample_batch) /\
  MaxPool2d Nat.max 5 2 (MaxPool2d Nat.max 5 2 (MaxPool2d Nat.max 5 2 (pass sample_batch)))
  = MaxPool2d Nat.max 13 6 (pass sample_batch) /\
  SPPF_forward Nat.max pass pass 5 sample_batch
  = SPP_forward Nat.max pass pass [5; 9; 13] sample_batch.
Proof.
  assert (H : batch_of nat 1 3 7 (pass sample_batch)).
  { repeat constructor. }
  split; [exact H|].
  exact (sppf_is_spp nat Nat.max Nat.max_comm Nat.max_assoc Nat.max_id pass pass
           1 3 7 sample_batch H).
Defined.

End PoolFacts.

(** ** Exceptions and lists *)

Module PyFacts.

Lemma mapM_map {A B : Type} (f : A -> result B) (g : A -> B) (xs : list A) :
  (forall a, In a xs -> f a = Ok (g a)) -> mapM f xs = Ok (map g xs).
Proof.
  induction xs as [|a xs IH]; intros H; simpl; [reflexivity|].
  rewrite (H a) by now left. rewrite IH; [reflexivity|].
  intros b Hb. apply H. now right.
Qed.

Lemma nth_error_combine {A B : Type} (xs : list A) (ys : list B) (n : nat) (a : A) (b : B) :
  nth_error xs n = Some a -> nth_error ys n = Some b ->
  nth_error (combine xs ys) n = Some (a, b).
Proof.
  revert ys n. induction xs as [|x xs IH]; intros ys n Ha Hb.
  - now destruct n.
  - destruct ys as [|y ys]; [now destruct n|].
    destruct n as [|n]; simpl in *; [congruence|]. now apply IH.
Qed.

Lemma Forall2_nth_error {A B : Type} (P : A -> B -> Prop) (xs : list A) (ys : list B)
    (n : nat) (a : A) :
  Forall2 P xs ys -> nth_error xs n = Some a ->
  exists b, nth_error ys n = Some b /\ P a b.
Proof.
  intros H. revert n. induction H as [|x y xs ys Hxy _ IH]; intros n Hn.
  - now destruct n.
  - destruct n as [|n]; simpl in *.
    + injection Hn as <-. now exists y.
    + now apply IH.
Qed.

Lemma Forall2_combine {A B : Type} (P : A -> B -> Prop) (xs : list A) (ys : list B) :
  Forall2 P xs ys -> Forall (fun ab => P (fst ab) (snd ab)) (combine xs ys).
Proof. induction 1; simpl; constructor; assumption. Qed.

Lemma Forall2_map_r {A B : Type} (P : A -> B -> Prop) (f : A -> B) (xs : list A) :
  Forall (fun a => P a (f a)) xs -> Forall2 P xs (map f xs).
Proof. induction 1; simpl; constructor; assumption. Qed.

End PyFacts.

(** ** Channel attention reweights its input *)

Module AttentionFacts.

Import Pool ListFacts PoolFacts Attention PyFacts.

Lemma sigmoid_bounds (z : R) : (0 < sigmoid z < 1)%R.
Proof.
  unfold sigmoid. pose proof (exp_pos (- z)) as He.
  split.
  - apply Rdiv_lt_0_compat; lra.
  - apply Rmult_lt_reg_r with (1 + exp (- z))%R; [lra|].
    unfold Rdiv. rewrite Rmult_assoc, Rinv_l by lra. lra.
Qed.

(** *** The product with per-channel weights *)

(** A plane with every cell multiplied by [wt]. *)
Definition scale (p : plane R) (wt : R) : plane R :=
  map (map (fun v => (v * wt)%R)) p.

(** [x] with the plane of channel [ch] of image [n] multiplied by the
    weight of [ws] for that image and channel. *)
Definition times (x : tensor) (ws : per_channel) : tensor :=
  map (fun iw => map (fun pw => scale (fst pw) (snd pw)) (combine (fst iw) (snd iw)))
      (combine x ws).

(** [y] holds one number for each image and channel of [x]. *)
Definition channels_match (x : tensor) (y : per_channel) : Prop :=
  Forall2 (fun img w => List.length w = List.length img) x y.

(** The cell at row [i] and column [j] of channel [ch] of image [n]. *)
Definition cell4 (x : tensor) (n ch i j : nat) : option R :=
  match nth_error x n with
  | Some img => match nth_error img ch with
                | Some p => cell p i j
                | None => None
                end
  | None => None
  end.

Definition weight_at (ws : per_channel) (n ch : nat) : option R :=
  match nth_error ws n with
  | Some w => nth_error w ch
  | None => None
  end.

Lemma channels_match_length (x : tensor) (y : per_channel) :
  channels_match x y -> List.length y = List.length x.
Proof. intros H. symmetry. exact (Forall2_length H). Qed.

Lemma channels_match_of (c h w : nat) (x : tensor) (y : per_channel) :
  batch_of R c h w x -> List.length y = List.length x ->
  Forall (fun v => List.length v = c) y -> channels_match x y.
Proof.
  unfold batch_of, channels_match. intros Hx. revert y.
  induction Hx as [|img x [Hc _] _ IH]; intros [|v y] Hl Hy; simpl in *;
    try discriminate; constructor.
  - inversion Hy; subst. congruence.
  - inversion Hy; subst. apply IH; [lia|assumption].
Qed.

Lemma mul_image_ok (img : list (plane R)) (w : list R) :
  List.length w = List.length img ->
  mul_image img w = Ok (map (fun pw => scale (fst pw) (snd pw)) (combine img w)).
Proof. intros H. unfold mul_image. now rewrite H, Nat.eqb_refl. Qed.

Lemma mul_ok (x : tensor) (y : per_channel) :
  channels_match x y -> mul x y = Ok (times x y).
Proof.
  intros H. unfold mul, times.
  rewrite (channels_match_length x y H), Nat.eqb_refl.
  apply mapM_map. intros [img w] Hin.
  apply Forall2_combine in H. rewrite Forall_forall in H.
  apply mul_image_ok. exact (H (img, w) Hin).
Qed.

Lemma expand_as_ok (x : tensor) (y : per_channel) :
  channels_match x y -> expand_as y x = Ok y.
Proof.
  intros H. unfold expand_as.
  rewrite (channels_match_length x y H), Nat.eqb_refl.
  rewrite <- (map_snd_combine x y) at 2 by (symmetry; now apply channels_match_length).
  apply mapM_map. intros [img w] Hin.
  apply Forall2_combine in H. rewrite Forall_forall in H.
  pose proof (H (img, w) Hin) as Hw. simpl in Hw. simpl.
  now rewrite Hw, Nat.eqb_refl.
Qed.

Lemma view_bc_ok (x : tensor) (y : per_channel) :
  channels_match x y -> view_bc y x = Ok y.
Proof.
  intros H. unfold view_bc.
  rewrite (channels_match_length x y H), Nat.eqb_refl. simpl.
  replace (forallb _ _) with true; [reflexivity|].
  symmetry. apply forallb_forall. intros [img w] Hin.
  apply Forall2_combine in H. rewrite Forall_forall in H.
  apply Nat.eqb_eq. exact (H (img, w) Hin).
Qed.

Lemma times_length (x : tensor) (ws : per_channel) :
  channels_match x ws -> List.length (times x ws) = List.length x.
Proof.
  intros H. unfold times. rewrite length_map, length_combine.
  rewrite (channels_match_length x ws H). apply Nat.min_id.
Qed.

Lemma scale_rect (h w : nat) (p : plane R) (wt : R) :
  rect R h w p -> rect R h w (scale p wt).
Proof.
  intros [Hh Hw]. unfold scale. split; [now rewrite length_map|].
  apply Forall_map. apply Forall_impl with (2 := Hw).
  intros row Hr. now rewrite length_map.
Qed.

Lemma times_batch (c h w : nat) (x : tensor) (ws : per_channel) :
  batch_of R c h w x -> channels_match x ws -> batch_of R c h w (times x ws).
Proof.
  unfold batch_of, channels_match, times. intros Hx Hm.
  induction Hm as [|img wi x ws Hl _ IH]; simpl; [constructor|].
  inversion Hx as [|? ? [Hc Hp] Hx']; subst. constructor; [|now apply IH].
  split.
  - rewrite length_map, length_combine, Hl. apply Nat.min_id.
  - apply Forall_map. rewrite Forall_forall in *. intros [p wt] Hin. simpl.
    apply scale_rect. apply Hp. exact (in_combine_l _ _ _ _ Hin).
Qed.

Lemma scale_cell (p : plane R) (wt : R) (i j : nat) (v : R) :
  cell p i j = Some v -> cell (scale p wt) i j = Some (v * wt)%R.
Proof.
  unfold cell, scale. intros H.
  change (@nil R) with (map (fun v => (v * wt)%R) []) at 1.
  rewrite map_nth, nth_error_map, H. reflexivity.
Qed.

Lemma times_cell (x : tensor) (ws : per_channel) (n ch i j : nat) (v : R) :
  channels_match x ws -> cell4 x n ch i j = Some v ->
  exists wt, weight_at ws n ch = Some wt /\
             cell4 (times x ws) n ch i j = Some (v * wt)%R.
Proof.
  intros Hm. unfold cell4, weight_at, times.
  destruct (nth_error x n) as [img|] eqn:En; [|discriminate].
  destruct (Forall2_nth_error _ x ws n img Hm En) as (wi & Ew & Hl).
  destruct (nth_error img ch) as [p|] eqn:Ec; [|discriminate].
  assert (Hch : ch < List.length wi).
  { rewrite Hl. apply nth_error_Some. congruence. }
  destruct (nth_error wi ch) as [wt|] eqn:Ewt;
    [|apply nth_error_None in Ewt; lia].
  intros Hv. exists wt. rewrite Ew. split; [exact Ewt|].
  rewrite nth_error_map, (nth_error_combine x ws n img wi En Ew). simpl.
  rewrite nth_error_map, (nth_error_combine img wi ch p wt Ec Ewt). simpl.
  now apply scale_cell.
Qed.

(** [r] is [x] times per-channel weights that come out of a sigmoid. *)
Definition reweights (c h w : nat) (x : tensor) (r : result tensor) : Prop :=
  exists zs : per_channel,
    let ws := pointwise sigmoid zs in
    channels_match x ws /\
    r = Ok (times x ws) /\
    Forall (Forall (fun wt => (0 < wt < 1)%R)) ws /\
    (forall n ch i j v,
        cell4 x n ch i j = Some v ->
        exists wt, weight_at ws n ch = Some wt /\
                   cell4 (times x ws) n ch i j = Some (v * wt)%R) /\
    List.length (times x ws) = List.length x /\
    batch_of R c h w (times x ws).

Lemma pointwise_match (f : R -> R) (x : tensor) (zs : per_channel) :
  channels_match x zs -> channels_match x (pointwise f zs).
Proof.
  unfold channels_match, pointwise. induction 1; simpl; constructor; trivial.
  now rewrite length_map.
Qed.

Lemma reweights_intro (c h w : nat) (x : tensor) (zs : per_channel) (r : result tensor) :
  batch_of R c h w x -> channels_match x zs ->
  r = Ok (times x (pointwise sigmoid zs)) ->
  reweights c h w x r.
Proof.
  intros Hx Hm Hr. exists zs. cbv zeta.
  pose proof (pointwise_match sigmoid x zs Hm) as Hm'.
  repeat split; trivial.
  - unfold pointwise. apply Forall_map, Forall_forall. intros z _.
    apply Forall_map, Forall_forall. intros t _. apply sigmoid_bounds.
  - intros n ch i j v. now apply times_cell.
  - now apply times_length.
  - now apply times_batch.
Qed.

(** *** The layers on a batch of shape [(b, c, h, w)] *)

Definition mean (p : plane R) : R :=
  (sum (List.concat p) / INR (List.length (List.concat p)))%R.

Definition top (p : plane R) : R :=
  match List.concat p with
  | [] => 0%R
  | v :: vs => fold_left Rmax vs v
  end.

(** The output of a layer on one image. *)
Definition apply (l : Linear) (v : list R) : list R :=
  map (fun row => dot row v) (weight l).

Lemma concat_cells (h w : nat) (p : plane R) :
  rect R h w p -> 0 < h -> 0 < w -> exists v vs, List.concat p = v :: vs.
Proof.
  intros [Hh Hw] H0h H0w.
  destruct p as [|row p]; [simpl in Hh; lia|].
  inversion Hw as [|? ? Hrow _]; subst.
  destruct row as [|v row]; [simpl in H0w; lia|].
  simpl. eauto.
Qed.

Lemma plane_mean_ok (h w : nat) (p : plane R) :
  rect R h w p -> 0 < h -> 0 < w -> plane_mean p = Ok (mean p).
Proof.
  intros H H0h H0w. unfold plane_mean, mean.
  destruct (concat_cells h w p H H0h H0w) as (v & vs & ->). reflexivity.
Qed.

Lemma plane_max_ok (h w : nat) (p : plane R) :
  rect R h w p -> 0 < h -> 0 < w -> plane_max p = Ok (top p).
Proof.
  intros H H0h H0w. unfold plane_max, top.
  destruct (concat_cells h w p H H0h H0w) as (v & vs & ->). reflexivity.
Qed.

Lemma pool_ok (f : plane R -> result R) (g : plane R -> R) (c h w : nat) (x : tensor) :
  (forall p, rect R h w p -> f p = Ok (g p)) ->
  batch_of R c h w x ->
  mapM (mapM f) x = Ok (map (map g) x).
Proof.
  intros Hf Hx. unfold batch_of in Hx. rewrite Forall_forall in Hx.
  apply mapM_map. intros img Himg. apply mapM_map. intros p Hp.
  apply Hf. destruct (Hx img Himg) as [_ Hr]. rewrite Forall_forall in Hr. now apply Hr.
Qed.

Lemma pooled_rows (g : plane R -> R) (c h w : nat) (x : tensor) :
  batch_of R c h w x ->
  List.length (map (map g) x) = List.length x /\
  Forall (fun v => List.length v = c) (map (map g) x).
Proof.
  intros Hx. split; [apply length_map|].
  apply Forall_map. apply Forall_impl with (2 := Hx).
  intros img [Hc _]. now rewrite length_map.
Qed.

Lemma rows_linear_ok (i o : nat) (l : Linear) (y : per_channel) :
  Linear_of i o l -> Forall (fun v => List.length v = i) y ->
  rows (linear l) y = Ok (map (apply l) y) /\
  List.length (map (apply l) y) = List.length y /\
  Forall (fun v => List.length v = o) (map (apply l) y).
Proof.
  intros (Hi & Ho & _) Hy. split; [|split].
  - unfold rows. apply mapM_map. intros v Hv. rewrite Forall_forall in Hy.
    unfold linear. now rewrite (Hy v Hv), Hi, Nat.eqb_refl.
  - apply length_map.
  - apply Forall_map, Forall_forall. intros v _. unfold apply. now rewrite length_map.
Qed.

Lemma conv1x1_ok (i o : nat) (l : Linear) (y : per_channel) :
  Linear_of i o l -> 0 < o -> Forall (fun v => List.length v = i) y ->
  conv1x1 l y = Ok (map (apply l) y) /\
  List.length (map (apply l) y) = List.length y /\
  Forall (fun v => List.length v = o) (map (apply l) y).
Proof.
  intros Hl Ho Hy. unfold conv1x1.
  destruct Hl as (Hi & Hw & Hr). rewrite Hw.
  destruct (Nat.eqb_spec o 0) as [E|_]; [lia|].
  apply (rows_linear_ok i o); [repeat split; assumption|assumption].
Qed.

Lemma pointwise_rows (f : R -> R) (n : nat) (y : per_channel) :
  Forall (fun v => List.length v = n) y ->
  List.length (pointwise f y) = List.length y /\
  Forall (fun v => List.length v = n) (pointwise f y).
Proof.
  intros Hy. unfold pointwise. split; [apply length_map|].
  apply Forall_map. apply Forall_impl with (2 := Hy).
  intros v Hv. now rewrite length_map.
Qed.





Lemma add_rows (n : nat) (a b : per_channel) :
  List.length a = List.length b ->
  Forall (fun v => List.length v = n) a -> Forall (fun v => List.length v = n) b ->
  List.length (add a b) = List.length a /\
  Forall (fun v => List.length v = n) (add a b).
Proof.
  intros Hl Ha Hb. unfold add. split.
  - rewrite length_map, length_combine. lia.
  - apply Forall_map, Forall_forall. intros [u v] Hin. simpl.
    rewrite Forall_forall in Ha, Hb.
    rewrite length_map, length_combine.
    rewrite (Ha u (in_combine_l _ _ _ _ Hin)), (Hb v (in_combine_r _ _ _ _ Hin)).
    apply Nat.min_id.
Qed.

Lemma channel_reweights (c h w r : nat) (m : ChannelAttention) (x : tensor) :
  batch_of R c h w x -> 0 < h -> 0 < w -> 0 < r <= c -> ChannelAttention_init c r m ->
  reweights c h w x (channel_reweight m x).
Proof.
  intros Hx H0h H0w Hr [H1 H2].
  assert (Hq : 0 < c / r) by (apply Nat.div_str_pos; exact Hr).
  assert (Hc : 0 < c) by lia.
  destruct (pooled_rows mean c h w x Hx) as [La0 Ra0].
  destruct (conv1x1_ok _ _ (f1 m) _ H1 Hq Ra0) as (Ea1 & La1 & Ra1).
  destruct (pointwise_rows relu _ _ Ra1) as [La1' Ra1'].
  destruct (conv1x1_ok _ _ (f2 m) _ H2 Hc Ra1') as (Eb2' & La2 & Ra2).
  rename Eb2' into Ea2.
  destruct (pooled_rows top c h w x Hx) as [Lb0 Rb0].
  destruct (conv1x1_ok _ _ (f1 m) _ H1 Hq Rb0) as (Eb1 & Lb1 & Rb1).
  destruct (pointwise_rows relu _ _ Rb1) as [Lb1' Rb1'].
  destruct (conv1x1_ok _ _ (f2 m) _ H2 Hc Rb1') as (Eb2 & Lb2 & Rb2).
  set (a := map (apply (f2 m)) (pointwise relu (map (apply (f1 m)) (map (map mean) x)))) in *.
  set (b := map (apply (f2 m)) (pointwise relu (map (apply (f1 m)) (map (map top) x)))) in *.
  destruct (add_rows c a b) as [Ls Rs]; trivial; [lia|].
  assert (Hm : channels_match x (add a b)).
  { apply channels_match_of with (c := c) (h := h) (w := w); trivial. lia. }
  apply reweights_intro with (zs := add a b); trivial.
  unfold channel_reweight, ChannelAttention_forward, avg_pool, max_pool.
  rewrite (pool_ok plane_mean mean c h w x) by (trivial; intros p Hp; now apply (plane_mean_ok h w)).
  cbn [Py.bind]. rewrite Ea1. cbn [Py.bind]. rewrite Ea2. cbn [Py.bind].
  rewrite (pool_ok plane_max top c h w x) by (trivial; intros p Hp; now apply (plane_max_ok h w)).
  cbn [Py.bind]. rewrite Eb1. cbn [Py.bind]. rewrite Eb2. cbn [Py.bind].
  fold a b.
  apply mul_ok. now apply pointwise_match.
Qed.


(** One image of two channels of one row of two cells. *)
Definition sample : tensor := [[ [[1; 2]]; [[3; 4]] ]]%R.






End AttentionFacts.

(** ** Loops that record their calls *)

Module IoFacts.

Import Io.

Lemma io_bind_ok {E A B : Type} (m : io E A) (k : A -> io E B)
    (tr tr' : list E) (a : A) (r : result B) :
  m = (tr, Ok a) -> k a = (tr', r) -> io_bind m k = ((tr ++ tr')%list, r).
Proof. intros -> H. unfold io_bind. now rewrite H. Qed.

Lemma io_bind_call {E A B : Type} (c : E) (a : A) (k : A -> io E B)
    (tr' : list E) (r : result B) :
  k a = (tr', r) -> io_bind (io_call c a) k = (c :: tr', r).
Proof. intros H. unfold io_bind, io_call. now rewrite H. Qed.

Lemma io_bind_lift {E A B : Type} (r0 : result A) (a : A) (k : A -> io E B)
    (tr' : list E) (r : result B) :
  r0 = Ok a -> k a = (tr', r) -> io_bind (io_lift r0) k = (tr', r).
Proof. intros -> H. unfold io_bind, io_lift. now rewrite H. Qed.

Lemma io_mapM_call {E A B : Type} (e : A -> E) (g : A -> B) (xs : list A) :
  io_mapM (fun a => io_call (e a) (g a)) xs = (map e xs, Ok (map g xs)).
Proof.
  induction xs as [|a xs IH]; simpl; [reflexivity|].
  rewrite IH. simpl. now rewrite app_nil_r.
Qed.

Lemma io_mapM_length {E A B : Type} (f : A -> io E B) (xs : list A) :
  forall tr bs, io_mapM f xs = (tr, Ok bs) -> List.length bs = List.length xs.
Proof.
  induction xs as [|a xs IH]; simpl; intros tr bs H.
  - injection H as _ <-. reflexivity.
  - unfold io_bind in H.
    destruct (f a) as [t1 [b|e]]; [|discriminate].
    destruct (io_mapM f xs) as [t2 [bs'|e]]; [|discriminate].
    simpl in H. injection H as _ <-. simpl. f_equal. now apply (IH t2).
Qed.

Lemma io_bind_trace {E A B : Type} (P : E -> Prop) (m : io E A) (k : A -> io E B) :
  Forall P (fst m) -> (forall a, Forall P (fst (k a))) -> Forall P (fst (io_bind m k)).
Proof.
  intros Hm Hk. unfold io_bind. destruct m as [tr [a|e]]; simpl in *; [|assumption].
  specialize (Hk a). destruct (k a) as [tr' r]. simpl in *.
  apply Forall_app. now split.
Qed.

Lemma io_mapM_trace {E A B : Type} (P : E -> Prop) (f : A -> io E B) (xs : list A) :
  (forall a, Forall P (fst (f a))) -> Forall P (fst (io_mapM f xs)).
Proof.
  intros Hf. induction xs as [|a xs IH]; simpl; [constructor|].
  apply io_bind_trace; [apply Hf|]. intros b.
  apply io_bind_trace; [exact IH|]. intros bs. constructor.
Qed.

Lemma io_bind_inv {E A B : Type} (m : io E A) (k : A -> io E B)
    (tr : list E) (b : B) :
  io_bind m k = (tr, Ok b) ->
  exists tr1 a tr2, m = (tr1, Ok a) /\ k a = (tr2, Ok b) /\ tr = (tr1 ++ tr2)%list.
Proof.
  unfold io_bind. destruct m as [tr1 [a|e]]; [|discriminate].
  destruct (k a) as [tr2 r] eqn:Ek. intros [= <- ->].
  now exists tr1, a, tr2.
Qed.

Lemma io_mapM_post {E A B : Type} (P : B -> Prop) (f : A -> io E B) (xs : list A) :
  (forall a tr b, f a = (tr, Ok b) -> P b) ->
  forall tr bs, io_mapM f xs = (tr, Ok bs) -> Forall P bs.
Proof.
  intros Hf. induction xs as [|a xs IH]; simpl; intros tr bs H.
  - injection H as _ <-. constructor.
  - apply io_bind_inv in H. destruct H as (t1 & b & t2 & Hb & H & _).
    apply io_bind_inv in H. destruct H as (t3 & bs' & t4 & Hbs & H & _).
    injection H as _ <-. constructor; [exact (Hf a t1 b Hb)|exact (IH t3 bs' Hbs)].
Qed.

End IoFacts.

(** ** AutoShape.forward *)

Module AutoShapeFacts.

Import Io ListFacts IoFacts Rows AutoShape.

Section Forward.

Variable pil : Type.
Variable Image_open : string -> result pil.
Variable asarray : pil -> ndarray.
Variable filename : pil -> option string.
Variable jpg_name : string -> result string.
Variable true_div : nat -> nat -> Q.
Variable float_mul : nat -> Q -> Q.
Variable make_divisible : Q -> nat -> nat.
Variable letterbox : array3 -> nat * nat -> array3.
Variable div_255 : Q -> Q.
Variable raw : Type.
Variable model : batch -> bool -> bool -> raw.
Variable index0 : raw -> raw.
Variable non_max_suppression :
  raw -> Q -> Q -> option (list nat) -> bool -> bool -> nat -> list (list row).
Variable scale_coords : nat * nat -> Q * Q * Q * Q -> nat * nat -> Q * Q * Q * Q.
Variable time_sync : nat -> Q.

Local Abbreviation prepare :=
  (AutoShape.prepare Image_open asarray filename jpg_name true_div float_mul).
Local Abbreviation forward :=
  (AutoShape.forward Image_open asarray filename jpg_name true_div float_mul make_divisible
     letterbox div_255 model index0 non_max_suppression scale_coords time_sync).

(** The images of an input that is not a torch tensor. *)
Definition images_of (imgs : input pil) : option (list (source pil)) :=
  match imgs with
  | Torch _ _ => None
  | Single s => Some [s]
  | Several l => Some l
  end.

(** The stack handed to the model: the images letterboxed to [shape1],
    channels first, divided by 255. *)
Definition model_input (shape1 : nat * nat) (ps : list prepared) : batch :=
  scale_255 div_255 (map hwc_to_chw (map (fun p => letterbox (p_im p) shape1) ps)).

(** What non-max suppression returns on the output of the model. *)
Definition suppressed (self : t) (x : batch) (augment profile : bool) : list (list row) :=
  non_max_suppression
    (if dmb self then model x augment profile else index0 (model x augment profile))
    (conf self) (iou self) (classes self) (agnostic self) (multi_label self) (max_det self).

(** The predictions after the loop over [scale_coords]: the first [n] are
    rescaled from [shape1] to the shape of their image. *)
Definition rescaled (shape1 : nat * nat) (ps : list prepared) (y : list (list row))
  : list (list row) :=
  (map (fun ip => map (rescale scale_coords shape1 (p_shape0 (snd ip))) (nth (fst ip) y []))
       (combine (seq 0 (List.length ps)) ps)
   ++ skipn (List.length ps) y)%list.

Lemma inference_shape_ok (self : t) (size : nat) (ps : list prepared) :
  ps <> [] -> exists shape1, inference_shape make_divisible self size ps = Ok shape1.
Proof.
  intros H. unfold inference_shape. destruct ps as [|p ps]; [congruence|].
  simpl. eexists. reflexivity.
Qed.

Lemma scale_loop (shape1 : nat * nat) (y : list (list row)) (ps : list prepared) :
  forall k, k + List.length ps <= List.length y ->
  io_mapM (fun ip => io_bind (io_lift (item y (fst ip)))
                       (fun rows => io_call (scale_coords_call (fst ip))
                          (map (rescale scale_coords shape1 (p_shape0 (snd ip))) rows)))
          (combine (seq k (List.length ps)) ps)
  = (map scale_coords_call (seq k (List.length ps)),
     Ok (map (fun ip => map (rescale scale_coords shape1 (p_shape0 (snd ip)))
                            (nth (fst ip) y []))
             (combine (seq k (List.length ps)) ps))).
Proof.
  induction ps as [|p ps IH]; intros k Hk; simpl; [reflexivity|].
  simpl in Hk.
  unfold item at 1.
  destruct (nth_error y k) as [rows|] eqn:E; [|apply nth_error_None in E; lia].
  rewrite (nth_error_nth y k [] E).
  simpl. rewrite IH by lia. simpl. now rewrite app_nil_r.
Qed.

Lemma stack_ok (xs xs' : list array3) : stack xs = Ok xs' -> xs' = xs.
Proof.
  unfold stack. destruct xs as [|a rest]; [now intros [= <-]|].
  destruct (forallb _ rest); [now intros [= <-]|discriminate].
Qed.

(** The calls of a run on [n] images under the inference shape [shape1],
    in their order: the clock, the files opened, the letterbox of each
    image, the clock, the model, the clock, non-max suppression, the
    rescaling of each prediction, the clock. *)
Definition calls (self : t) (opens : list event) (n : nat) (shape1 : nat * nat)
           (x : batch) (augment profile : bool) : list event :=
  ([time_sync_call 0] ++ opens
   ++ map (fun i => letterbox_call i shape1) (seq 0 n)
   ++ [time_sync_call 1; model_call x augment profile; time_sync_call 2;
       non_max_suppression_call (conf self) (iou self) (classes self)
         (agnostic self) (multi_label self) (max_det self)]
   ++ map scale_coords_call (seq 0 n)
   ++ [time_sync_call 3])%list.

(** The object a run returns. *)
Definition detections (self : t) (ps : list prepared) (shape1 : nat * nat)
           (augment profile : bool) : Detections :=
  let x := model_input shape1 ps in
  let y := rescaled shape1 ps (suppressed self x augment profile) in
  MkDetections (map p_im ps) y (names self) (map p_file ps)
               [time_sync 0; time_sync 1; time_sync 2; time_sync 3]
               y (List.length y) (shape4 x).

Lemma forward_images (self : t) (srcs : list (source pil)) (size : nat)
    (augment profile : bool) (opens : list event) (ps : list prepared)
    (shape1 : nat * nat) (xs : list array3) :
  srcs <> [] ->
  io_mapM (prepare size) (combine (seq 0 (List.length srcs)) srcs) = (opens, Ok ps) ->
  inference_shape make_divisible self size ps = Ok shape1 ->
  stack (map (fun p => letterbox (p_im p) shape1) ps) = Ok xs ->
  List.length ps
  <= List.length (suppressed self (model_input shape1 ps) augment profile) ->
  forward self (Several srcs) size augment profile
  = (calls self opens (List.length ps) shape1 (model_input shape1 ps) augment profile,
     Ok (Detected raw (detections self ps shape1 augment profile))).
Proof.
  intros Hne Hload Hshape Hstack Hnms.
  pose proof (io_mapM_length _ _ _ _ Hload) as Hlen.
  rewrite length_combine, length_seq, Nat.min_id in Hlen.
  apply stack_ok in Hstack as Hxs. subst xs.
  assert (Hy : exists r rs, rescaled shape1 ps
                 (suppressed self (model_input shape1 ps) augment profile) = r :: rs).
  { destruct (rescaled shape1 ps _) as [|r rs] eqn:Er; [|eauto].
    exfalso. unfold rescaled in Er. apply app_eq_nil in Er. destruct Er as [Er _].
    apply map_eq_nil in Er. apply (f_equal (@List.length _)) in Er.
    rewrite length_combine, length_seq, Nat.min_id in Er.
    destruct srcs; [congruence|]. simpl in *. lia. }
  unfold AutoShape.forward, calls. cbn [app].
  apply io_bind_call.
  eapply io_bind_ok; [exact Hload|]. cbv beta.
  eapply io_bind_lift; [exact Hshape|]. cbv beta.
  rewrite io_mapM_call. rewrite <- Hlen.
  rewrite <- (map_map fst (fun i => letterbox_call i shape1)).
  rewrite <- (map_map snd (fun p => letterbox (p_im p) shape1)).
  rewrite map_fst_combine, map_snd_combine by (now rewrite length_seq).
  eapply io_bind_ok; [reflexivity|]. cbv beta.
  eapply io_bind_lift; [exact Hstack|]. cbv beta.
  fold (model_input shape1 ps).
  apply io_bind_call. apply io_bind_call. apply io_bind_call. apply io_bind_call.
  fold (suppressed self (model_input shape1 ps) augment profile).
  eapply io_bind_ok; [apply (scale_loop shape1 _ ps 0); simpl; exact Hnms|]. cbv beta.
  fold (rescaled shape1 ps (suppressed self (model_input shape1 ps) augment profile)).
  apply io_bind_call.
  eapply io_bind_lift; [|reflexivity].
  unfold Detections_init, detections. cbv zeta.
  destruct Hy as (r & rs & ->). reflexivity.
Qed.

(** The calls of the loop over the images are the files it opens. *)
Definition is_open (e : event) : Prop := exists p, e = Image_open_call p.

Lemma prepare_opens (size : nat) (ix : nat * source pil) :
  Forall is_open (fst (prepare size ix)).
Proof.
  destruct ix as [i src]. unfold AutoShape.prepare.
  apply io_bind_trace.
  - destruct src as [p|im|a]; [|constructor|constructor].
    apply io_bind_trace; [repeat constructor; now exists p|]. intros r.
    apply io_bind_trace; [constructor|]. intros im. constructor.
  - intros imf. apply io_bind_trace; [constructor|]. intros file.
    apply io_bind_trace; [constructor|]. intros im.
    destruct (Nat.max _ _ =? 0); constructor.
Qed.

Lemma load_opens (size : nat) (l : list (nat * source pil)) :
  Forall is_open (fst (io_mapM (prepare size) l)).
Proof. apply io_mapM_trace. apply prepare_opens. Qed.

(** An image as the loop leaves it: at most three channels for each pixel,
    and [shape0] its height and width. *)
Definition three_channels (p : prepared) : Prop :=
  Forall (Forall (fun px => List.length px <= 3)) (p_im p) /\
  p_shape0 p = (List.length (p_im p), List.length (hd [] (p_im p))).

Lemma enforce_3ch_channels (im : ndarray) (a : array3) :
  enforce_3ch im = Ok a -> Forall (Forall (fun px => List.length px <= 3)) a.
Proof.
  destruct im as [g|c]; unfold enforce_3ch.
  - destruct (List.length g <? 5); [discriminate|]. intros [= <-].
    apply Forall_map, Forall_forall. intros row _.
    apply Forall_map, Forall_forall. intros v _. simpl. lia.
  - intros [= <-].
    apply Forall_map, Forall_forall. intros row _.
    apply Forall_map, Forall_forall. intros px _. exact (firstn_le_length 3 px).
Qed.

Example gray_to_three :
  enforce_3ch (Arr2 [[1; 2]; [3; 4]; [5; 6]; [7; 8]; [9; 0]]%Q)
  = Ok [[[1; 1; 1]; [2; 2; 2]]; [[3; 3; 3]; [4; 4; 4]]; [[5; 5; 5]; [6; 6; 6]];
        [[7; 7; 7]; [8; 8; 8]]; [[9; 9; 9]; [0; 0; 0]]]%Q.
Proof. reflexivity. Qed.

Lemma prepare_channels (size : nat) (ix : nat * source pil) (tr : list event) (p : prepared) :
  prepare size ix = (tr, Ok p) -> three_channels p.
Proof.
  destruct ix as [i src]. unfold AutoShape.prepare. intros H.
  apply io_bind_inv in H. destruct H as (t1 & imf & t2 & _ & H & _).
  apply io_bind_inv in H. destruct H as (t3 & file & t4 & _ & H & _).
  apply io_bind_inv in H. destruct H as (t5 & im & t6 & Him & H & _).
  unfold io_lift in Him. injection Him as _ Him.
  destruct (Nat.max _ _ =? 0); [discriminate|].
  injection H as _ <-. split; [|reflexivity].
  cbn [p_im]. exact (enforce_3ch_channels _ _ Him).
Qed.

(** The predictions keep their rows through the loop over [scale_coords]. *)
Lemma skipn_nth {A : Type} (d : A) (l : list A) :
  forall k, k < List.length l -> skipn k l = nth k l d :: skipn (S k) l.
Proof.
  induction l as [|a l IH]; intros k Hk; simpl in Hk; [lia|].
  destruct k as [|k]; [reflexivity|].
  cbn [skipn nth]. rewrite IH by lia. reflexivity.
Qed.

Lemma rescaled_rows (shape1 : nat * nat) (y : list (list row)) (ps : list prepared) :
  forall k, k + List.length ps <= List.length y ->
  map (fun ip => List.length (map (rescale scale_coords shape1 (p_shape0 (snd ip)))
                                  (nth (fst ip) y [])))
      (combine (seq k (List.length ps)) ps)
  = map (@List.length row) (firstn (List.length ps) (skipn k y)).
Proof.
  induction ps as [|p ps IH]; intros k Hk; [reflexivity|].
  cbn [List.length] in *. cbn [seq combine map fst snd].
  rewrite (skipn_nth [] y k) by lia. cbn [firstn map].
  rewrite length_map. f_equal. apply IH. lia.
Qed.

Lemma rescaled_lengths (shape1 : nat * nat) (ps : list prepared) (y : list (list row)) :
  List.length ps <= List.length y ->
  map (@List.length row) (rescaled shape1 ps y) = map (@List.length row) y.
Proof.
  intros H. unfold rescaled. rewrite map_app, map_map.
  rewrite (rescaled_rows shape1 y ps 0) by (simpl; exact H).
  cbn [skipn]. rewrite <- map_app. now rewrite firstn_skipn.
Qed.

Lemma nms_call_in_calls (self : t) (opens : list event) (n : nat) (shape1 : nat * nat)
    (x : batch) (augment profile : bool)
    (c i : Q) (cl : option (list nat)) (ag ml : bool) (md : nat) :
  Forall is_open opens ->
  In (non_max_suppression_call c i cl ag ml md)
     (calls self opens n shape1 x augment profile) ->
  non_max_suppression_call c i cl ag ml md
  = non_max_suppression_call (conf self) (iou self) (classes self)
      (agnostic self) (multi_label self) (max_det self).
Proof.
  intros Ho H. unfold calls in H.
  repeat (apply in_app_or in H; destruct H as [H|H]).
  - destruct H as [H|[]]. discriminate.
  - rewrite Forall_forall in Ho. destruct (Ho _ H) as [p Hp]. discriminate.
  - apply in_map_iff in H. destruct H as (k & Hk & _). discriminate.
  - destruct H as [H|[H|[H|[H|[]]]]]; try discriminate. now symmetry.
  - apply in_map_iff in H. destruct H as (k & Hk & _). discriminate.
  - destruct H as [H|[]]. discriminate.
Qed.

(** X29: on an input that is not a torch tensor, with at least one image,
    once each image loads and converts, the letterboxed images stack and
    non-max suppression returns a prediction for each image, [forward] makes
    its calls in the order of [calls]: it opens the files, brings every
    image to height, width and at most three channels, and letterboxes it to
    the one inference shape, hands the stack (channels first, each cell
    divided by 255) to the model, hands the output of the model to non-max
    suppression, rescales the boxes that are left to the shape of each
    image, and returns the [Detections] of the images, the predictions, the
    file names and the four readings of the clock. *)
Theorem forward_stage_order (self : t) (imgs : input pil) (srcs : list (source pil))
    (size : nat) (augment profile : bool) (opens : list event) (ps : list prepared) :
  images_of imgs = Some srcs ->
  srcs <> [] ->
  io_mapM (prepare size) (combine (seq 0 (List.length srcs)) srcs) = (opens, Ok ps) ->
  (forall shape1,
      inference_shape make_divisible self size ps = Ok shape1 ->
      (exists xs, stack (map (fun p => letterbox (p_im p) shape1) ps) = Ok xs) /\
      List.length ps
      <= List.length (suppressed self (model_input shape1 ps) augment profile)) ->
  exists shape1,
    inference_shape make_divisible self size ps = Ok shape1 /\
    forward self imgs size augment profile
    = (calls self opens (List.length ps) shape1 (model_input shape1 ps) augment profile,
       Ok (Detected raw (detections self ps shape1 augment profile))) /\
    Forall is_open opens /\
    List.length ps = List.length srcs /\
    Forall three_channels ps.
Proof.
  intros Himgs Hne Hload Hrest.
  pose proof (io_mapM_length _ _ _ _ Hload) as Hlen.
  rewrite length_combine, length_seq, Nat.min_id in Hlen.
  destruct (inference_shape_ok self size ps) as [shape1 Hshape].
  { intros ->. destruct srcs; [congruence|discriminate]. }
  destruct (Hrest shape1 Hshape) as [[xs Hstack] Hnms].
  exists shape1. split; [exact Hshape|]. split; [|split; [|split]].
  - destruct imgs as [x|s|l]; simpl in Himgs; try discriminate;
      injection Himgs as <-;
      now apply (forward_images self _ size augment profile opens ps shape1 xs).
  - pose proof (load_opens size (combine (seq 0 (List.length srcs)) srcs)) as H.
    now rewrite Hload in H.
  - exact Hlen.
  - apply (io_mapM_post three_channels _ _ (prepare_channels size) _ _ Hload).
Qed.

(** X30: an [AutoShape] object as [__init__] leaves it has [conf = 0.25],
    [iou = 0.45] and [max_det = 1000], and on an input that is not a torch
    tensor a run of [forward] that returns calls non-max suppression, and
    never with other arguments than these three, [classes = None],
    [agnostic = False] and [multi_label = False]; the predictions of the
    [Detections] it returns are what non-max suppression returned on the
    output of the model, the boxes of the first [n] rescaled, with the same
    number of rows each. *)
Theorem forward_nms_arguments (w : wrapped) (imgs : input pil) (srcs : list (source pil))
    (size : nat) (augment profile : bool) (opens : list event) (ps : list prepared) :
  images_of imgs = Some srcs ->
  srcs <> [] ->
  io_mapM (prepare size) (combine (seq 0 (List.length srcs)) srcs) = (opens, Ok ps) ->
  (forall shape1,
      inference_shape make_divisible (init w) size ps = Ok shape1 ->
      (exists xs, stack (map (fun p => letterbox (p_im p) shape1) ps) = Ok xs) /\
      List.length ps
      <= List.length (suppressed (init w) (model_input shape1 ps) augment profile)) ->
  conf (init w) = 0.25%Q /\ iou (init w) = 0.45%Q /\ max_det (init w) = 1000 /\
  exists tr d shape1 y,
    forward (init w) imgs size augment profile = (tr, Ok (Detected raw d)) /\
    In (non_max_suppression_call 0.25 0.45 None false false 1000) tr /\
    (forall c i cl ag ml md,
        In (non_max_suppression_call c i cl ag ml md) tr ->
        non_max_suppression_call c i cl ag ml md
        = non_max_suppression_call 0.25 0.45 None false false 1000) /\
    inference_shape make_divisible (init w) size ps = Ok shape1 /\
    y = non_max_suppression
          (let out := model (model_input shape1 ps) augment profile in
           if dmb (init w) then out else index0 out)
          0.25 0.45 None false false 1000 /\
    d_pred d = rescaled shape1 ps y /\
    map (@List.length row) (d_pred d) = map (@List.length row) y.
Proof.
  intros Himgs Hne Hload Hrest.
  assert (Hattr : conf (init w) = 0.25%Q /\ iou (init w) = 0.45%Q /\
                  classes (init w) = None /\ agnostic (init w) = false /\
                  multi_label (init w) = false /\ max_det (init w) = 1000).
  { destruct w; repeat split. }
  destruct Hattr as (Hc & Hi & Hcl & Hag & Hml & Hmd).
  split; [exact Hc|]. split; [exact Hi|]. split; [exact Hmd|].
  destruct (inference_shape_ok (init w) size ps) as [shape1 Hshape].
  { intros ->. apply io_mapM_length in Hload.
    rewrite length_combine, length_seq, Nat.min_id in Hload.
    destruct srcs; [congruence|discriminate]. }
  destruct (Hrest shape1 Hshape) as [[xs Hstack] Hnms].
  assert (Hrun : forward (init w) imgs size augment profile
                 = (calls (init w) opens (List.length ps) shape1
                      (model_input shape1 ps) augment profile,
                    Ok (Detected raw (detections (init w) ps shape1 augment profile)))).
  { destruct imgs as [x|s|l]; simpl in Himgs; try discriminate;
      injection Himgs as <-;
      now apply (forward_images (init w) _ size augment profile opens ps shape1 xs). }
  assert (Hopen : Forall is_open opens).
  { pose proof (load_opens size (combine (seq 0 (List.length srcs)) srcs)) as H.
    now rewrite Hload in H. }
  assert (Hy : suppressed (init w) (model_input shape1 ps) augment profile
               = non_max_suppression
                   (let out := model (model_input shape1 ps) augment profile in
                    if dmb (init w) then out else index0 out)
                   0.25 0.45 None false false 1000).
  { unfold suppressed. rewrite Hc, Hi, Hcl, Hag, Hml, Hmd. cbv zeta.
    now destruct (dmb (init w)). }
  exists (calls (init w) opens (List.length ps) shape1 (model_input shape1 ps)
                augment profile),
         (detections (init w) ps shape1 augment profile), shape1,
         (suppressed (init w) (model_input shape1 ps) augment profile).
  split; [exact Hrun|]. split; [|split; [|split; [exact Hshape|split; [exact Hy|split]]]].
  - unfold calls. rewrite Hc, Hi, Hcl, Hag, Hml, Hmd.
    apply in_or_app. right. apply in_or_app. right. apply in_or_app. right.
    apply in_or_app. left. simpl. auto.
  - intros c i cl ag ml md H.
    rewrite (nms_call_in_calls _ _ _ _ _ _ _ c i cl ag ml md Hopen H).
    now rewrite Hc, Hi, Hcl, Hag, Hml, Hmd.
  - reflexivity.
  - unfold detections. cbn [d_pred]. now apply rescaled_lengths.
Qed.

End Forward.

(** *** A run on one small image *)

(** A world where no file opens, the floats are all the rationals, the
    letterbox leaves the image as it is, the model has three candidates for
    the image and non-max suppression keeps the candidates above the
    threshold of confidence. *)
Definition demo_open (p : string) : result unit := Raise (Exception "no file").
Definition demo_asarray (_ : unit) : ndarray := Arr2 [].
Definition demo_filename (_ : unit) : option string := None.
Definition demo_jpg (f : string) : result string := Ok (f ++ ".jpg")%string.
Definition demo_true_div (a b : nat) : Q := Qred (of_nat a / of_nat b).
Definition demo_float_mul (y : nat) (g : Q) : Q := Qred (of_nat y * g).
Definition demo_divisible (_ : Q) (s : nat) : nat := s.
Definition demo_letterbox (im : array3) (_ : nat * nat) : array3 := im.
Definition demo_div_255 (v : Q) : Q := Qred (v / 255).
Definition demo_raw : list (list row) :=
  [[Row (0, 0, 1, 1)%Q 0.9 0; Row (0, 0, 1, 1)%Q 0.8 0; Row (5, 5, 6, 6)%Q 0.1 0]].
Definition demo_model (_ : batch) (_ _ : bool) : list (list row) := demo_raw.
Definition demo_index0 (y : list (list row)) : list (list row) := y.
Definition demo_nms (prediction : list (list row)) (conf_thres _ : Q)
           (_ : option (list nat)) (_ _ : bool) (_ : nat) : list (list row) :=
  map (filter (fun r => negb (Qle_bool (score r) conf_thres))) prediction.
Definition demo_scale (_ : nat * nat) (b : Q * Q * Q * Q) (_ : nat * nat) : Q * Q * Q * Q := b.
Definition demo_clock (k : nat) : Q := of_nat k.

(** [forward] and the loop over the images in this world. *)
Definition demo_prepare : nat -> nat * source unit -> io event prepared :=
  AutoShape.prepare demo_open demo_asarray demo_filename demo_jpg demo_true_div
                    demo_float_mul.

Definition demo_forward
  : t -> input unit -> nat -> bool -> bool -> io event (output (list (list row))) :=
  AutoShape.forward demo_open demo_asarray demo_filename demo_jpg demo_true_div
    demo_float_mul demo_divisible demo_letterbox demo_div_255 demo_model demo_index0
    demo_nms demo_scale demo_clock.

(** One image, channels first: 3 channels of 1 row of 2 pixels. *)
Definition demo_image : ndarray := Arr3 [[[255; 0]]; [[51; 0]]; [[0; 102]]]%Q.

(** What the loop over the images keeps of it. *)
Definition demo_prepared : list prepared :=
  Eval vm_compute in
    match snd (io_mapM (demo_prepare 640) [(0, Src_array unit demo_image)]) with
    | Ok ps => ps
    | Raise _ => []
    end.

Definition demo_self : t := init (Plain 32 ["fish"%string]).

Example demo_run :
  demo_forward demo_self (Single (Src_array unit demo_image)) 640 false false
  = ([time_sync_call 0; letterbox_call 0 (32, 32); time_sync_call 1;
      model_call [[[[1; 0]]; [[1 # 5; 0]]; [[0; 2 # 5]]]]%Q false false;
      time_sync_call 2; non_max_suppression_call 0.25 0.45 None false false 1000;
      scale_coords_call 0; time_sync_call 3],
     Ok (Detected (list (list row))
           (MkDetections [[[[255; 51; 0]; [0; 0; 102]]]]%Q
              [[Row (0, 0, 1, 1)%Q 0.9 0; Row (0, 0, 1, 1)%Q 0.8 0]]
              ["fish"%string] ["image0.jpg"%string]
              [0; 1; 2; 3]%Q [[Row (0, 0, 1, 1)%Q 0.9 0; Row (0, 0, 1, 1)%Q 0.8 0]]
              1 [1; 3; 1; 2]))).
Proof. reflexivity. Qed.

Lemma forward_stage_order_witness :
  images_of unit (Single (Src_array unit demo_image)) = Some [Src_array unit demo_image] /\
  [Src_array unit demo_image] <> [] /\
  io_mapM (demo_prepare 640) (combine (seq 0 1) [Src_array unit demo_image])
  = ([], Ok demo_prepared) /\
  exists shape1,
    inference_shape demo_divisible demo_self 640 demo_prepared = Ok shape1 /\
    demo_forward demo_self (Single (Src_array unit demo_image)) 640 false false
    = (calls demo_self [] (List.length demo_prepared) shape1
         (model_input demo_letterbox demo_div_255 shape1 demo_prepared) false false,
       Ok (Detected (list (list row))
             (detections demo_letterbox demo_div_255 (list (list row)) demo_model
                demo_index0 demo_nms demo_scale demo_clock
                demo_self demo_prepared shape1 false false))) /\
    Forall is_open [] /\
    List.length demo_prepared = List.length [Src_array unit demo_image] /\
    Forall three_channels demo_prepared.
Proof.
  split; [reflexivity|]. split; [discriminate|]. split; [reflexivity|].
  apply (forward_stage_order unit demo_open demo_asarray demo_filename demo_jpg
           demo_true_div demo_float_mul demo_divisible demo_letterbox demo_div_255
           (list (list row)) demo_model demo_index0 demo_nms demo_scale demo_clock
           demo_self (Single (Src_array unit demo_image)) [Src_array unit demo_image]
           640 false false [] demo_prepared).
  - reflexivity.
  - discriminate.
  - reflexivity.
  - intros shape1 H. injection H as <-. split; [eexists; reflexivity|].
    vm_compute. lia.
Defined.

Lemma forward_nms_arguments_witness :
  images_of unit (Single (Src_array unit demo_image)) = Some [Src_array unit demo_image] /\
  [Src_array unit demo_image] <> [] /\
  io_mapM (demo_prepare 640) (combine (seq 0 1) [Src_array unit demo_image])
  = ([], Ok demo_prepared) /\
  conf demo_self = 0.25%Q /\ iou demo_self = 0.45%Q /\ max_det demo_self = 1000 /\
  exists tr d shape1 y,
    demo_forward demo_self (Single (Src_array unit demo_image)) 640 false false
    = (tr, Ok (Detected (list (list row)) d)) /\
    In (non_max_suppression_call 0.25 0.45 None false false 1000) tr /\
    (forall c i cl ag ml md,
        In (non_max_suppression_call c i cl ag ml md) tr ->
        non_max_suppression_call c i cl ag ml md
        = non_max_suppression_call 0.25 0.45 None false false 1000) /\
    inference_shape demo_divisible demo_self 640 demo_prepared = Ok shape1 /\
    y = demo_nms
          (let out := demo_model (model_input demo_letterbox demo_div_255 shape1
                                    demo_prepared) false false in
           if dmb demo_self then out else demo_index0 out)
          0.25 0.45 None false false 1000 /\
    d_pred d = rescaled demo_scale shape1 demo_prepared y /\
    map (@List.length row) (d_pred d) = map (@List.length row) y.
Proof.
  split; [reflexivity|]. split; [discriminate|]. split; [reflexivity|].
  apply (forward_nms_arguments unit demo_open demo_asarray demo_filename demo_jpg
           demo_true_div demo_float_mul demo_divisible demo_letterbox demo_div_255
           (list (list row)) demo_model demo_index0 demo_nms demo_scale demo_clock
           (Plain 32 ["fish"%string])
           (Single (Src_array unit demo_image)) [Src_array unit demo_image]
           640 false false [] demo_prepared).
  - reflexivity.
  - discriminate.
  - reflexivity.
  - intros shape1 H. injection H as <-. split; [eexists; reflexivity|].
    vm_compute. lia.
Defined.

(** *** An image of two channels *)

(** A numpy image of 8 rows, 4 columns and 2 channels, as [np.asarray]
    gives for a grey image with an alpha channel (PIL mode LA): each pixel
    is its grey level and 255. *)
Definition gray_alpha : array3 :=
  map (fun i => map (fun j => [of_nat (8 * i + j); 255%Q]) (seq 0 4)) (seq 0 8).

(** C1: the line of [forward] that its comment gives as enforcing three
    channels leaves an image of three axes and two channels as it is:
    [im[..., :3]] takes the first three channels of each pixel, and there
    are two.  Whatever the world around [forward], the loop over the images
    keeps the 8 rows, 4 columns and 2 channels of this image, and in the
    run below the model receives a stack of one image of 2 channels, not
    of 3. *)
Theorem two_channels_reach_model :
  shape3 gray_alpha = (8, 4, 2) /\
  enforce_3ch (Arr3 gray_alpha) = Ok gray_alpha /\
  (forall (pil : Type) (Image_open : string -> result pil) (asarray : pil -> ndarray)
          (filename : pil -> option string) (jpg_name : string -> result string)
          (true_div : nat -> nat -> Q) (float_mul : nat -> Q -> Q) (size i : nat),
      AutoShape.prepare Image_open asarray filename jpg_name true_div float_mul size
                        (i, Src_array pil (Arr3 gray_alpha))
      = ([], match jpg_name (image_name i) with
             | Ok file =>
                 Ok (Prepared gray_alpha file (8, 4)
                              (float_mul 8 (true_div size 8), float_mul 4 (true_div size 8)))
             | Raise e => Raise e
             end)) /\
  exists x tr d,
    demo_forward demo_self (Single (Src_array unit (Arr3 gray_alpha))) 640 false false
    = (tr, Ok (Detected (list (list row)) d)) /\
    In (model_call x false false) tr /\
    shape4 x = [1; 2; 8; 4] /\
    map shape3 (d_imgs d) = [(8, 4, 2)] /\
    d_s d = [1; 2; 8; 4].
Proof.
  split; [reflexivity|]. split; [reflexivity|]. split.
  - intros. unfold AutoShape.prepare, io_bind, io_ret, io_lift. cbn [fst snd app].
    destruct (jpg_name (image_name i)) as [file|e]; reflexivity.
  - eexists. eexists. eexists. split; [vm_compute; reflexivity|].
    split; [right; right; right; left; reflexivity|].
    split; [reflexivity|]. split; reflexivity.
Qed.

End AutoShapeFacts.

(** ** More on lists and on lookups *)

Module ListMore.

Import ListFacts.

Lemma map_seq_eq {B : Type} (f : nat -> B) (l : list B) (d : B) :
  (forall i, i < List.length l -> f i = nth i l d) ->
  map f (seq 0 (List.length l)) = l.
Proof.
  intros H. apply nth_ext with (d := d) (d' := d).
  - now rewrite length_map, length_seq.
  - intros i Hi. rewrite length_map, length_seq in Hi.
    rewrite nth_map_seq by assumption. now apply H.
Qed.

Lemma map_nth_seq {B : Type} (l : list B) (d : B) :
  map (fun i => nth i l d) (seq 0 (List.length l)) = l.
Proof. apply map_seq_eq with (d := d). reflexivity. Qed.

Lemma nth_map_default {B C : Type} (f : B -> C) (l : list B) (i : nat) (db : B) (dc : C) :
  f db = dc -> nth i (map f l) dc = f (nth i l db).
Proof. intros <-. apply map_nth. Qed.

Lemma concat_singletons {B C : Type} (h : B -> C) (l : list B) :
  List.concat (map (fun a => [h a]) l) = map h l.
Proof. induction l as [|a l IH]; simpl; [reflexivity|now rewrite IH]. Qed.

Lemma item_nth {B : Type} (xs : list B) (i : nat) (d : B) :
  i < List.length xs -> item xs i = Ok (nth i xs d).
Proof.
  intros H. unfold item.
  destruct (nth_error xs i) as [x|] eqn:E.
  - now rewrite (nth_error_nth xs i d E).
  - apply nth_error_None in E. lia.
Qed.

Lemma item_out {B : Type} (xs : list B) (i : nat) :
  List.length xs <= i -> item xs i = Raise IndexError.
Proof.
  intros H. unfold item. apply nth_error_None in H. now rewrite H.
Qed.

Lemma item_ok_lt {B : Type} (l : list B) (i : nat) (a : B) :
  item l i = Ok a -> i < List.length l.
Proof.
  unfold item. destruct (nth_error l i) eqn:E; [|discriminate].
  intros _. apply nth_error_Some. congruence.
Qed.

(** A loop whose body can only fail with [e] fails with [e] once it
    fails for an element. *)
Lemma mapM_raise {B C : Type} (f : B -> result C) (e : exn) (xs : list B) :
  (forall a, In a xs -> f a = Raise e \/ exists b, f a = Ok b) ->
  (exists a, In a xs /\ f a = Raise e) ->
  mapM f xs = Raise e.
Proof.
  induction xs as [|a xs IH]; intros Hall (a0 & Hin & Ha0); [contradiction|].
  simpl. destruct (Hall a (or_introl eq_refl)) as [-> | [b Hb]]; [reflexivity|].
  rewrite Hb. rewrite IH; [reflexivity| |].
  - intros a' Ha'. apply Hall. now right.
  - destruct Hin as [<- | Hin]; [congruence|]. now exists a0.
Qed.

(** A loop with one body for every element. *)
Lemma mapM_const {B C : Type} (r : result C) (xs : list B) (ms : list C) :
  mapM (fun _ => r) xs = Ok ms ->
  List.length ms = List.length xs /\ Forall (fun m => r = Ok m) ms.
Proof.
  revert ms. induction xs as [|a xs IH]; intros ms H; simpl in H.
  - injection H as <-. split; [reflexivity|constructor].
  - destruct r as [b|e] eqn:Er; [|discriminate].
    destruct (mapM (fun _ => Ok b) xs) as [bs|]; [|discriminate].
    injection H as <-. destruct (IH bs eq_refl) as [Hl Hf].
    split; [simpl; now f_equal|]. constructor; [reflexivity|exact Hf].
Qed.

(** Induction on lists, two elements at a time. *)
Lemma pairs_ind {B : Type} (P : list B -> Prop) :
  P [] -> (forall a, P [a]) -> (forall a b l, P l -> P (a :: b :: l)) ->
  forall l, P l.
Proof.
  intros H0 H1 H2 l.
  assert (H : P l /\ forall a, P (a :: l)).
  { induction l as [|b l [IH1 IH2]]; [split; [exact H0|exact H1]|].
    split; [apply IH2|]. intros a. now apply H2. }
  apply H.
Qed.

End ListMore.

(** ** model_type: only the last component of the path counts *)

Module PathFacts.

Import Backend StrFacts ModelTypeFacts.
Local Open Scope string_scope.

(** The components [Path(p).name] chooses from. *)
Definition named (x : string) : bool :=
  negb (x =? EmptyString) && negb (x =? ".").

Lemma split_slash_cons (p : string) : exists h t, Str.split_slash p = h :: t.
Proof.
  induction p as [|c p (h & t & IH)]; simpl; [eauto|].
  destruct (Ascii.eqb c "/"); [eauto|]. rewrite IH. eauto.
Qed.

Lemma split_slash_join (d n : string) :
  Str.split_slash (d ++ "/" ++ n) = (Str.split_slash d ++ Str.split_slash n)%list.
Proof.
  induction d as [|c d IH]; [reflexivity|].
  change (String c d ++ "/" ++ n) with (String c (d ++ "/" ++ n)).
  cbn [Str.split_slash]. rewrite IH.
  destruct (Ascii.eqb c "/"); [reflexivity|].
  destruct (split_slash_cons d) as (h & t & ->). reflexivity.
Qed.

Lemma last_app_r {A : Type} (l1 l2 : list A) (d : A) :
  l2 <> [] -> last (l1 ++ l2) d = last l2 d.
Proof.
  intros H. induction l1 as [|a l1 IH]; [reflexivity|].
  cbn [app last]. destruct (l1 ++ l2)%list eqn:E; [|exact IH].
  apply app_eq_nil in E. destruct E as [_ E]. contradiction.
Qed.

(** The name of a joined path is the name of its right part, or of its left
    part when the right part has no name (it is empty, or made of
    separators and dots). *)
Lemma Path_name_join (d n : string) :
  Str.Path_name (d ++ "/" ++ n)
  = if Str.Path_name n =? EmptyString then Str.Path_name d else Str.Path_name n.
Proof.
  unfold Str.Path_name. rewrite split_slash_join, filter_app.
  fold named.
  destruct (filter named (Str.split_slash n)) as [|x l] eqn:E.
  - rewrite app_nil_r. reflexivity.
  - rewrite last_app_r by discriminate.
    assert (Hin : In (last (x :: l) EmptyString) (filter named (Str.split_slash n))).
    { rewrite E. destruct (exists_last (l := x :: l)) as (l' & a & ->); [discriminate|].
      rewrite last_last. apply in_or_app. right. now left. }
    apply filter_In in Hin. destruct Hin as [_ Hin].
    unfold named in Hin. apply andb_true_iff in Hin. destruct Hin as [Hin _].
    apply negb_true_iff in Hin. now rewrite Hin.
Qed.

Example model_type_folder :
  model_type yolov5_suffixes accept "runs.pt/weights/best.onnx//"
  = model_type yolov5_suffixes accept "best.onnx".
Proof. reflexivity. Qed.

(** X1: [model_type] reads the flags off the last component of the path alone:
    on [d/n] it answers as on [n] when [n] has a name, whatever the
    directories [d] are called, and a trailing separator changes nothing
    (when [check_suffix] lets the paths through). *)
Theorem model_type_last_component
    (tbl : list string) (check_suffix : string -> list string -> bool) (d n : string) :
  check_suffix (d ++ "/" ++ n) (tbl ++ [".xml"])%list = true ->
  (Str.Path_name n <> EmptyString ->
   check_suffix n (tbl ++ [".xml"])%list = true ->
   model_type tbl check_suffix (d ++ "/" ++ n) = model_type tbl check_suffix n) /\
  (Str.Path_name n = EmptyString ->
   check_suffix d (tbl ++ [".xml"])%list = true ->
   model_type tbl check_suffix (d ++ "/" ++ n) = model_type tbl check_suffix d).
Proof.
  intros Hdn. split; intros Hn Hc; unfold model_type;
    rewrite Hdn, Hc, Path_name_join.
  - apply String.eqb_neq in Hn. now rewrite Hn.
  - now rewrite Hn.
Qed.

Lemma model_type_last_component_witness :
  accept ("runs.pt/weights" ++ "/" ++ "best.onnx") (yolov5_suffixes ++ [".xml"])%list = true /\
  (Str.Path_name "best.onnx" <> EmptyString ->
   accept "best.onnx" (yolov5_suffixes ++ [".xml"])%list = true ->
   model_type yolov5_suffixes accept ("runs.pt/weights" ++ "/" ++ "best.onnx")
   = model_type yolov5_suffixes accept "best.onnx") /\
  (Str.Path_name "best.onnx" = EmptyString ->
   accept "runs.pt/weights" (yolov5_suffixes ++ [".xml"])%list = true ->
   model_type yolov5_suffixes accept ("runs.pt/weights" ++ "/" ++ "best.onnx")
   = model_type yolov5_suffixes accept "runs.pt/weights").
Proof.
  split; [reflexivity|].
  apply (model_type_last_component yolov5_suffixes accept "runs.pt/weights" "best.onnx").
  reflexivity.
Defined.

End PathFacts.

(** ** DetectMultiBackend.__init__: half precision, stride and names *)

Module InitMore.

Import Backend DMB ModelTypeFacts InitFacts.
Local Open Scope string_scope.

(** The backends whose loader can hand [stride] and [names] to
    [__init__]. *)
Definition carries_metadata (b : backend) : bool :=
  match b with
  | PyTorch | TorchScript | ONNX_Runtime => true
  | _ => false
  end.

(** The [names] ahead of the loaders: those of the [data] file when one is
    given, the thousand defaults otherwise. *)
Definition names_before (load_names : string -> result (list string))
           (data : option string) (names : list string) : Prop :=
  match data with
  | Some d => if d =? EmptyString then names = default_names
              else load_names d = Ok names
  | None => names = default_names
  end.

Section Init.

Variable export_suffixes : list string.
Variable check_suffix : string -> list string -> bool.
Variable attempt_download : string -> result string.
Variable load_names : string -> result (list string).
Variable vendor_load : backend -> weights -> result loaded.

Local Abbreviation init :=
  (DMB.init export_suffixes check_suffix attempt_download load_names vendor_load).

(** What the chain of loaders leaves of the [fp16], [stride] and [names] it
    is entered with. *)
Lemma load_settings (ws : weights) (w : string) (f : flags) (device : device)
    (dnn fp16 : bool) (names : list string) (self : t) :
  load vendor_load ws w f device dnn fp16 names = Ok self ->
  dev self = device /\
  (net self <> Some TensorRT -> DMB.fp16 self = fp16) /\
  (net self = Some TensorRT ->
   exists l, vendor_load TensorRT (WPath w) = Ok l /\
             DMB.fp16 self = l_fp16_input l /\ images_shape self = l_images_shape l) /\
  (net self = Some PyTorch -> 32 <= stride self) /\
  (forall b, net self = Some b -> carries_metadata b = false ->
             stride self = 32 /\ DMB.names self = names).
Proof.
  unfold load. intros H.
  repeat match type of H with
         | (if ?b then _ else _) = _ => destruct b
         | Py.bind ?m _ = _ => destruct m as [l|] eqn:?; simpl in H
         | (let '(_, _) := ?p in _) = _ => destruct p
         end;
    try discriminate; injection H as <-; cbn [dev net DMB.fp16 stride DMB.names images_shape].
  all: split; [reflexivity|].
  all: split; [try (intros _; reflexivity); intros K; now contradiction K|].
  all: split; [first [discriminate | intros _; eexists; split; [reflexivity|split; reflexivity]]|].
  all: split; [try discriminate; intros _; apply Nat.le_max_r|].
  all: intros b [= <-]; try discriminate; intros _; split; reflexivity.
Qed.

Lemma init_settings (ws : weights) (device : device) (dnn : bool)
    (data : option string) (fp16 : bool) (self : t) :
  init ws device dnn data fp16 = Ok self ->
  exists w names,
    load vendor_load ws w (fl self) device dnn
         (fp16 && ((pt (fl self) || jit (fl self) || onnx (fl self) || engine (fl self))
                   && negb (is_cpu device)))
         names
    = Ok self /\
    names_before load_names data names.
Proof.
  unfold DMB.init. intros H.
  destruct (first_weight ws) as [w|]; [|discriminate]. simpl in H.
  destruct (model_type export_suffixes check_suffix w) as [f|]; [|discriminate].
  simpl in H.
  destruct (attempt_download w) as [w'|]; [|discriminate]. simpl in H.
  destruct (match data with
            | Some d => if d =? EmptyString then Ok default_names else load_names d
            | None => Ok default_names
            end) as [names|] eqn:En; [|discriminate].
  simpl in H. pose proof (load_flags _ _ _ _ _ _ _ _ _ H) as [Hf _]. subst f.
  exists w', names. split; [exact H|].
  unfold names_before. destruct data as [d|]; [|now injection En as <-].
  destruct (d =? EmptyString); [now injection En as <-|exact En].
Qed.

(** X2: Half precision is what the caller asked for only on a device other
    than the CPU and for PyTorch, TorchScript, ONNX or TensorRT weights; on
    the CPU it is off whatever was asked.  The TensorRT arm alone decides
    anew, from the input binding of the engine. *)
Theorem init_fp16 (ws : weights) (device : device) (dnn : bool)
    (data : option string) (fp16 : bool) (self : t) :
  init ws device dnn data fp16 = Ok self ->
  (net self <> Some TensorRT ->
   DMB.fp16 self
   = fp16 && ((pt (fl self) || jit (fl self) || onnx (fl self) || engine (fl self))
              && negb (is_cpu device)) /\
   (device = cpu -> DMB.fp16 self = false)) /\
  (net self = Some TensorRT ->
   exists w l, vendor_load TensorRT (WPath w) = Ok l /\ DMB.fp16 self = l_fp16_input l).
Proof.
  intros H. apply init_settings in H. destruct H as (w & names & H & _).
  apply load_settings in H. destruct H as (_ & Hf & Ht & _).
  split.
  - intros Hn. rewrite (Hf Hn). split; [reflexivity|].
    intros ->. simpl. now rewrite andb_false_r, andb_false_r.
  - intros Hn. destruct (Ht Hn) as (l & Hl & Hfp & _). now exists w, l.
Qed.

(** X3: A PyTorch model is given a stride of at least 32.  A backend whose
    loader reads no metadata (OpenCV DNN, OpenVINO, TensorRT, CoreML and
    the TensorFlow ones) is left with the stride 32 and with the names of
    the [data] file, or with the names [class0] to [class999] when no
    [data] is given. *)
Theorem init_stride_names (ws : weights) (device : device) (dnn : bool)
    (data : option string) (fp16 : bool) (self : t) :
  init ws device dnn data fp16 = Ok self ->
  (net self = Some PyTorch -> 32 <= stride self) /\
  (forall b, net self = Some b -> carries_metadata b = false ->
             stride self = 32 /\ names_before load_names data (names self)) /\
  List.length default_names = 1000.
Proof.
  intros H. apply init_settings in H. destruct H as (w & names & H & Hn).
  apply load_settings in H. destruct H as (_ & _ & _ & Hpt & Hb).
  split; [exact Hpt|]. split.
  - intros b Eb Hm. destruct (Hb b Eb Hm) as [Hs ->]. now split.
  - unfold default_names. now rewrite length_map, length_seq.
Qed.

End Init.

(** Loaders and helpers that succeed, with names read from a file. *)
Definition names_fish (_ : string) : result (list string) := Ok ["fish"; "coral"].

Lemma init_fp16_witness :
  init yolov5_suffixes accept download_ok names_fish load_ok
       (WPath "yolov5s.onnx") cpu true (Some "data.yaml") true
  = Ok (Self (Flags false false true false false false false false false false false)
             true cpu false false 32 ["fish"; "coral"] (Some OpenCV_DNN) []) /\
  DMB.fp16 (Self (Flags false false true false false false false false false false false)
                 true cpu false false 32 ["fish"; "coral"] (Some OpenCV_DNN) []) = false.
Proof.
  split; [reflexivity|].
  apply (init_fp16 yolov5_suffixes accept download_ok names_fish load_ok
           (WPath "yolov5s.onnx") cpu true (Some "data.yaml") true _ eq_refl);
    [discriminate | reflexivity].
Defined.

Lemma init_stride_names_witness :
  init yolov5_suffixes accept download_ok names_fish load_ok
       (WPath "yolov5s.onnx") cpu true (Some "data.yaml") true
  = Ok (Self (Flags false false true false false false false false false false false)
             true cpu false false 32 ["fish"; "coral"] (Some OpenCV_DNN) []) /\
  forall b,
    Some OpenCV_DNN = Some b -> carries_metadata b = false ->
    32 = 32 /\ names_before names_fish (Some "data.yaml") ["fish"; "coral"].
Proof.
  split; [reflexivity|].
  apply (init_stride_names yolov5_suffixes accept download_ok names_fish load_ok
           (WPath "yolov5s.onnx") cpu true (Some "data.yaml") true _ eq_refl).
Defined.

End InitMore.

(** ** DetectMultiBackend.warmup *)

Module WarmFacts.

Import Backend Io DMB ForwardFacts Warm.

(** The number of inferences [warmup] asks for. *)
Definition passes (self : t) : nat :=
  if (pt (fl self) || jit (fl self) || onnx (fl self) || engine (fl self)
      || saved_model (fl self) || pb (fl self))
     && negb (is_cpu (dev self))
  then if jit (fl self) then 2 else 1
  else 0.

Lemma io_times_ok {E A : Type} (n : nat) (tr : list E) (a : A) :
  io_times n (tr, Ok a) = (List.concat (repeat tr n), Ok tt).
Proof.
  induction n as [|n IH]; [reflexivity|].
  cbn [io_times io_bind repeat List.concat]. now rewrite IH.
Qed.

Lemma io_times_raise {E A : Type} (n : nat) (tr : list E) (e : exn) :
  io_times (S n) ((tr, Raise e) : io E A) = (tr, Raise e).
Proof. reflexivity. Qed.

Lemma filter_concat_repeat {E : Type} (f : E -> bool) (tr : list E) (n : nat) :
  List.length (filter f (List.concat (repeat tr n))) = n * List.length (filter f tr).
Proof.
  induction n as [|n IH]; [reflexivity|].
  cbn [repeat List.concat]. rewrite filter_app, length_app, IH. reflexivity.
Qed.

Lemma warmup_passes {data : Type} (permute_0231 to_pil : data -> data)
    (coreml_rows : nat -> nat -> data -> data -> data)
    (descale rescale : data -> data) (to_pixels : nat -> nat -> data -> data)
    (rt : runtime data) (zeros : list nat -> bool -> data) (self : t) (imgsz : list nat) :
  warmup permute_0231 to_pil coreml_rows descale rescale to_pixels rt zeros self imgsz
  = io_times (passes self)
      (forward permute_0231 to_pil coreml_rows descale rescale to_pixels rt self
               (Im (dev self) imgsz (zeros imgsz (fp16 self))) false false false).
Proof.
  unfold warmup, passes.
  destruct (pt (fl self) || jit (fl self) || onnx (fl self) || engine (fl self)
            || saved_model (fl self) || pb (fl self)); [|reflexivity].
  destruct (negb (is_cpu (dev self))); reflexivity.
Qed.

(** [warmup] asks for an inference only of an object with a backend. *)
Lemma passes_backend (self : t) : 0 < passes self -> has_backend self = true.
Proof.
  unfold passes, has_backend.
  destruct (pt (fl self)); [reflexivity|].
  destruct (jit (fl self)); [reflexivity|].
  destruct (onnx (fl self)); [intros _; now rewrite !orb_true_r|].
  destruct (engine (fl self)); [intros _; now rewrite !orb_true_r|].
  destruct (saved_model (fl self)); [intros _; now rewrite !orb_true_r|].
  destruct (pb (fl self)); [intros _; now rewrite !orb_true_r|].
  simpl. lia.
Qed.

Section Warmup.

Variable data : Type.
Variable permute_0231 to_pil : data -> data.
Variable coreml_rows : nat -> nat -> data -> data -> data.
Variable descale rescale : data -> data.
Variable to_pixels : nat -> nat -> data -> data.
Variable rt : runtime data.
Variable zeros : list nat -> bool -> data.

Local Abbreviation forward :=
  (DMB.forward permute_0231 to_pil coreml_rows descale rescale to_pixels rt).
Local Abbreviation warmup :=
  (Warm.warmup permute_0231 to_pil coreml_rows descale rescale to_pixels rt zeros).

(** X4: [warmup] runs [forward] on a tensor of zeros twice for TorchScript and
    once for PyTorch, ONNX, TensorRT, SavedModel and GraphDef weights, on a
    device other than the CPU; on the CPU, and for OpenVINO, CoreML, TFLite
    and Edge TPU weights, it makes no call at all, whatever [imgsz] is.  On
    a four-dimensional [imgsz] (of the shape of the [images] binding for
    TensorRT) the calls are those of [forward], once for each pass, and
    the network runs once in each; a TensorRT engine of another shape
    stops the first pass with the failed assertion of [forward]. *)
Theorem warmup_runs (self : t) (imgsz : list nat) :
  let im := Im (dev self) imgsz (zeros imgsz (fp16 self)) in
  let tr := fst (forward self im false false false) in
  (passes self = 0 -> warmup self imgsz = ([], Ok tt)) /\
  (List.length imgsz = 4 ->
   (selected self = A_TensorRT -> imgsz = images_shape self) ->
   warmup self imgsz = (List.concat (repeat tr (passes self)), Ok tt) /\
   List.length (filter runs_network (fst (warmup self imgsz))) = passes self) /\
  (0 < passes self -> List.length imgsz = 4 -> selected self = A_TensorRT ->
   imgsz <> images_shape self ->
   warmup self imgsz = ([], Raise AssertionError)).
Proof.
  cbv zeta. rewrite warmup_passes. split; [|split].
  - intros ->. reflexivity.
  - intros H4 Hs.
    destruct (Nat.eq_0_gt_0_cases (passes self)) as [H0|Hp];
      [rewrite H0; split; reflexivity|].
    destruct (infer_returns data permute_0231 to_pil coreml_rows descale rescale to_pixels
                rt self (Im (dev self) imgsz (zeros imgsz (fp16 self))) false false
                (passes_backend self Hp) H4 Hs)
      as (tr & y & E).
    pose proof (infer_one_run data permute_0231 to_pil coreml_rows descale rescale
                  to_pixels rt self (Im (dev self) imgsz (zeros imgsz (fp16 self)))
                  false false) as (_ & _ & Hone).
    cbv zeta in Hone. rewrite E in Hone. cbn [fst snd] in Hone.
    specialize (Hone y eq_refl).
    unfold DMB.forward. rewrite E. cbn [io_bind io_ret fst]. rewrite app_nil_r.
    rewrite io_times_ok. split; [reflexivity|].
    cbn [fst]. rewrite filter_concat_repeat, Hone. lia.
  - intros Hp H4 Hs Hne.
    destruct (passes self) as [|n]; [lia|].
    assert (E : forward self (Im (dev self) imgsz (zeros imgsz (fp16 self))) false false false
                = ([], Raise AssertionError)).
    { unfold DMB.forward, DMB.infer. cbn [im_shape].
      destruct imgsz as [|b [|ch [|h [|w [|? ?]]]]]; try discriminate.
      revert Hs. unfold selected, priority. cbn [find fst].
      destruct (pt (fl self)); [discriminate|].
      destruct (jit (fl self)); [discriminate|].
      destruct (dnn self); [discriminate|].
      destruct (onnx (fl self)); [discriminate|].
      destruct (xml (fl self)); [discriminate|].
      destruct (engine (fl self)); [|destruct (coreml (fl self)); discriminate].
      intros _.
      destruct (shape_eqb [b; ch; h; w] (images_shape self)) eqn:Eq; [|reflexivity].
      exfalso. apply Hne. clear - Eq.
      revert Eq. generalize (images_shape self). generalize [b; ch; h; w].
      induction l as [|x l IH]; intros [|y l']; simpl; try discriminate; [reflexivity|].
      intros H. apply andb_true_iff in H. destruct H as [Hx Hl].
      apply Nat.eqb_eq in Hx. subst y. f_equal. now apply IH. }
    rewrite E. apply io_times_raise.
Qed.

End Warmup.

(** A TorchScript model on a GPU. *)
Definition jit_cuda : t :=
  Self (Flags false true false false false false false false false false false)
       false cuda true false 32 [] (Some TorchScript) [].

Lemma warmup_runs_witness :
  List.length [1; 3; 640; 640] = 4 /\
  Warm.warmup (fun x => x) (fun x => x) (fun _ _ x _ => x) (fun x => x) (fun x => x)
              (fun _ _ x => x) unit_runtime (fun _ _ => tt) jit_cuda [1; 3; 640; 640]
  = ([jit_call; jit_call], Ok tt) /\
  List.length (filter runs_network
                 (fst (Warm.warmup (fun x => x) (fun x => x) (fun _ _ x _ => x) (fun x => x)
                         (fun x => x) (fun _ _ x => x) unit_runtime (fun _ _ => tt)
                         jit_cuda [1; 3; 640; 640]))) = 2.
Proof.
  split; [reflexivity|].
  apply (warmup_runs unit (fun x => x) (fun x => x) (fun _ _ x _ => x) (fun x => x)
           (fun x => x) (fun _ _ x => x) unit_runtime (fun _ _ => tt) jit_cuda
           [1; 3; 640; 640]).
  - reflexivity.
  - discriminate.
Defined.

End WarmFacts.

(** ** AutoShape: the two transposes and the first three channels *)

Module AutoShapeMore.

Import Io ListFacts ListMore IoFacts Rows AutoShape AutoShapeFacts.

(** *** The two transposes *)

(** An array of three axes of the sizes [n0], [n1] and [n2]. *)
Definition rect3 (n0 n1 n2 : nat) (a : array3) : Prop :=
  List.length a = n0 /\
  Forall (fun row => List.length row = n1 /\
                     Forall (fun px => List.length px = n2) row) a.

Lemma nth_nil_Q (k : nat) : nth k ([] : list Q) 0%Q = 0%Q.
Proof. now destruct k. Qed.

Lemma rect3_row (n0 n1 n2 : nat) (a : array3) (i : nat) :
  rect3 n0 n1 n2 a -> i < n0 ->
  List.length (nth i a []) = n1 /\
  Forall (fun px => List.length px = n2) (nth i a []).
Proof.
  intros [Hl Hr] Hi. rewrite Forall_forall in Hr. apply Hr, nth_In. lia.
Qed.

Lemma rect3_cell (n0 n1 n2 : nat) (a : array3) (i j : nat) :
  rect3 n0 n1 n2 a -> i < n0 -> j < n1 ->
  List.length (nth j (nth i a []) []) = n2.
Proof.
  intros Ha Hi Hj. destruct (rect3_row _ _ _ _ i Ha Hi) as [Hl Hp].
  rewrite Forall_forall in Hp. apply Hp, nth_In. lia.
Qed.

Lemma rect3_hd (n0 n1 n2 : nat) (a : array3) :
  rect3 n0 n1 n2 a -> 0 < n0 -> 0 < n1 ->
  List.length (hd [] a) = n1 /\ List.length (hd [] (hd [] a)) = n2.
Proof.
  intros Ha H0 H1.
  pose proof (rect3_row _ _ _ _ 0 Ha H0) as [Hl _].
  pose proof (rect3_cell _ _ _ _ 0 0 Ha H0 H1) as Hc.
  destruct a as [|r a]; [destruct Ha; simpl in *; lia|].
  cbn [nth hd] in *. split; [exact Hl|].
  destruct r as [|px r]; [simpl in *; lia|]. exact Hc.
Qed.

Lemma hwc_to_chw_cell (a : array3) (n2 c i j : nat) :
  c < n2 -> List.length (hd [] (hd [] a)) = n2 ->
  nth j (nth i (nth c (hwc_to_chw a) []) []) 0%Q = nth c (nth j (nth i a []) []) 0%Q.
Proof.
  intros Hc Hn. unfold hwc_to_chw. rewrite Hn.
  rewrite nth_map_seq by assumption.
  change ([] : list (list Q)) with (map (fun px : list Q => nth c px 0%Q) []) at 1.
  rewrite map_nth.
  rewrite <- (nth_nil_Q c) at 1.
  rewrite (map_nth (fun px : list Q => nth c px 0%Q)). reflexivity.
Qed.

Lemma chw_to_hwc_cell (b : array3) (n1 n2 c i j : nat) :
  i < n1 -> j < n2 ->
  List.length (hd [] b) = n1 -> List.length (hd [] (hd [] b)) = n2 ->
  nth c (nth j (nth i (chw_to_hwc b) []) []) 0%Q = nth j (nth i (nth c b []) []) 0%Q.
Proof.
  intros Hi Hj H1 H2. unfold chw_to_hwc. rewrite H1, H2.
  rewrite nth_map_seq by assumption. rewrite nth_map_seq by assumption.
  assert (E : nth j (nth i [] []) 0%Q = 0%Q)
    by (destruct i; simpl; apply nth_nil_Q).
  rewrite <- E at 1.
  rewrite (map_nth (fun plane : list (list Q) => nth j (nth i plane []) 0%Q)).
  reflexivity.
Qed.

Lemma hwc_to_chw_rect (h w c : nat) (a : array3) :
  rect3 h w c a -> 0 < h -> 0 < w -> rect3 c h w (hwc_to_chw a).
Proof.
  intros Ha Hh Hw. destruct (rect3_hd _ _ _ _ Ha Hh Hw) as [_ Hc].
  unfold hwc_to_chw. rewrite Hc. split; [now rewrite length_map, length_seq|].
  apply Forall_map, Forall_forall. intros ch _.
  destruct Ha as [Hl Hr]. split; [now rewrite length_map|].
  apply Forall_map. apply Forall_impl with (2 := Hr). intros row [Hrow _].
  now rewrite length_map.
Qed.

Lemma chw_to_hwc_rect (c h w : nat) (b : array3) :
  rect3 c h w b -> 0 < c -> 0 < h -> rect3 h w c (chw_to_hwc b).
Proof.
  intros Hb Hc Hh. destruct (rect3_hd _ _ _ _ Hb Hc Hh) as [H1 H2].
  unfold chw_to_hwc. rewrite H1, H2. split; [now rewrite length_map, length_seq|].
  apply Forall_map, Forall_forall. intros i _.
  split; [now rewrite length_map, length_seq|].
  apply Forall_map, Forall_forall. intros j _.
  rewrite length_map. apply Hb.
Qed.

(** Two arrays of the same sizes with the same cells are the same array. *)
Lemma rect3_ext (n0 n1 n2 : nat) (a b : array3) :
  rect3 n0 n1 n2 a -> rect3 n0 n1 n2 b ->
  (forall i j k, i < n0 -> j < n1 -> k < n2 ->
     nth k (nth j (nth i a []) []) 0%Q = nth k (nth j (nth i b []) []) 0%Q) ->
  a = b.
Proof.
  intros Ha Hb H.
  apply nth_ext with (d := []) (d' := []); [destruct Ha, Hb; congruence|].
  intros i Hi. replace (List.length a) with n0 in Hi by (symmetry; apply Ha).
  destruct (rect3_row _ _ _ _ i Ha Hi) as [Hla _].
  destruct (rect3_row _ _ _ _ i Hb Hi) as [Hlb _].
  apply nth_ext with (d := []) (d' := []); [congruence|].
  intros j Hj. rewrite Hla in Hj.
  pose proof (rect3_cell _ _ _ _ i j Ha Hi Hj) as Hca.
  pose proof (rect3_cell _ _ _ _ i j Hb Hi Hj) as Hcb.
  apply nth_ext with (d := 0%Q) (d' := 0%Q); [congruence|].
  intros k Hk. rewrite Hca in Hk. now apply H.
Qed.

Lemma chw_hwc (h w c : nat) (a : array3) :
  rect3 h w c a -> 0 < h -> 0 < w -> 0 < c -> chw_to_hwc (hwc_to_chw a) = a.
Proof.
  intros Ha Hh Hw Hc.
  pose proof (hwc_to_chw_rect _ _ _ _ Ha Hh Hw) as Hb.
  pose proof (chw_to_hwc_rect _ _ _ _ Hb Hc Hh) as Hab.
  destruct (rect3_hd _ _ _ _ Hb Hc Hh) as [H1 H2].
  destruct (rect3_hd _ _ _ _ Ha Hh Hw) as [_ H3].
  apply (rect3_ext h w c); trivial.
  intros i j k Hi Hj Hk.
  rewrite (chw_to_hwc_cell _ h w) by assumption.
  now rewrite (hwc_to_chw_cell _ c).
Qed.

Lemma hwc_chw (c h w : nat) (b : array3) :
  rect3 c h w b -> 0 < c -> 0 < h -> 0 < w -> hwc_to_chw (chw_to_hwc b) = b.
Proof.
  intros Hb Hc Hh Hw.
  pose proof (chw_to_hwc_rect _ _ _ _ Hb Hc Hh) as Ha.
  pose proof (hwc_to_chw_rect _ _ _ _ Ha Hh Hw) as Hba.
  destruct (rect3_hd _ _ _ _ Hb Hc Hh) as [H1 H2].
  destruct (rect3_hd _ _ _ _ Ha Hh Hw) as [_ H3].
  apply (rect3_ext c h w); trivial.
  intros k i j Hk Hi Hj.
  rewrite (hwc_to_chw_cell _ c) by assumption.
  now rewrite (chw_to_hwc_cell _ h w).
Qed.

(** X5: The transpose of [forward] that brings a channels-first image to
    channels last and the one that brings the stack to channels first undo
    each other, on arrays with no empty axis. *)
Theorem transposes_inverse (h w c : nat) (a b : array3) :
  0 < h -> 0 < w -> 0 < c ->
  (rect3 h w c a -> chw_to_hwc (hwc_to_chw a) = a /\ rect3 c h w (hwc_to_chw a)) /\
  (rect3 c h w b -> hwc_to_chw (chw_to_hwc b) = b /\ rect3 h w c (chw_to_hwc b)).
Proof.
  intros Hh Hw Hc. split; intros H.
  - split; [now apply (chw_hwc h w c) | now apply hwc_to_chw_rect].
  - split; [now apply (hwc_chw c h w) | now apply chw_to_hwc_rect].
Qed.

Definition two_by_two : array3 := [[[1; 2; 3]; [4; 5; 6]]; [[7; 8; 9]; [10; 11; 12]]]%Q.

Lemma transposes_inverse_witness :
  chw_to_hwc (hwc_to_chw two_by_two) = two_by_two /\ rect3 3 2 2 (hwc_to_chw two_by_two).
Proof.
  apply (transposes_inverse 2 2 3 two_by_two two_by_two); try lia.
  split; [reflexivity|]. repeat constructor.
Defined.

(** X6: An image of five rows or more and fewer than five channels is prepared
    the same whether it comes channels last or channels first: both are
    cut to the first three channels of the channels-last image.  An image
    of fewer than five rows is taken for a channels-first one: its rows
    become the channels, of which the first three are kept. *)
Theorem enforce_3ch_layout (h w c : nat) (a : array3) :
  rect3 h w c a -> 0 < h -> 0 < w -> 0 < c ->
  (5 <= h -> c < 5 ->
   enforce_3ch (Arr3 (hwc_to_chw a)) = Ok (map (map (firstn 3)) a) /\
   enforce_3ch (Arr3 a) = Ok (map (map (firstn 3)) a)) /\
  (h < 5 ->
   exists a', enforce_3ch (Arr3 a) = Ok a' /\ rect3 w c (Nat.min 3 h) a' /\
              forall i j k, i < w -> j < c -> k < Nat.min 3 h ->
                nth k (nth j (nth i a' []) []) 0%Q = nth j (nth i (nth k a []) []) 0%Q).
Proof.
  intros Ha Hh Hw Hc. split.
  - intros H5 Hc5.
    pose proof (hwc_to_chw_rect _ _ _ _ Ha Hh Hw) as Hb.
    unfold enforce_3ch.
    replace (List.length (hwc_to_chw a)) with c by (symmetry; apply Hb).
    replace (List.length a) with h by (symmetry; apply Ha).
    destruct (Nat.ltb_spec c 5) as [_|]; [|lia].
    destruct (Nat.ltb_spec h 5) as [|_]; [lia|].
    now rewrite (chw_hwc h w c).
  - intros H5.
    destruct (rect3_hd _ _ _ _ Ha Hh Hw) as [H1 H2].
    pose proof (chw_to_hwc_rect _ _ _ _ Ha Hh Hw) as Ht.
    unfold enforce_3ch.
    replace (List.length a) with h by (symmetry; apply Ha).
    destruct (Nat.ltb_spec h 5) as [_|]; [|lia].
    eexists. split; [reflexivity|]. split.
    + destruct Ht as [Hl Hr]. split; [now rewrite length_map|].
      apply Forall_map. apply Forall_impl with (2 := Hr). intros row [Hrow Hpx].
      split; [now rewrite length_map|].
      apply Forall_map. apply Forall_impl with (2 := Hpx). intros px Hlen.
      rewrite length_firstn, Hlen. reflexivity.
    + intros i j k Hi Hj Hk.
      rewrite (nth_map_default (map (@firstn Q 3)) _ i [] []) by reflexivity.
      rewrite (nth_map_default (@firstn Q 3) _ j [] []) by reflexivity.
      rewrite nth_firstn.
      destruct (Nat.ltb_spec k 3) as [_|]; [|lia].
      apply (chw_to_hwc_cell a w c k i j Hi Hj H1 H2).
Qed.

Definition five_rows : array3 :=
  [[[1; 2; 3; 4]]; [[5; 6; 7; 8]]; [[9; 10; 11; 12]]; [[13; 14; 15; 16]]; [[17; 18; 19; 20]]]%Q.

Lemma enforce_3ch_layout_witness :
  rect3 5 1 4 five_rows /\
  enforce_3ch (Arr3 (hwc_to_chw five_rows)) = Ok (map (map (firstn 3)) five_rows) /\
  enforce_3ch (Arr3 five_rows) = Ok (map (map (firstn 3)) five_rows).
Proof.
  assert (H : rect3 5 1 4 five_rows) by (split; [reflexivity|repeat constructor]).
  split; [exact H|].
  apply (enforce_3ch_layout 5 1 4 five_rows H); lia.
Defined.

End AutoShapeMore.

(** ** AutoShape.forward: batches that cannot be loaded *)

Module AutoShapeRuns.

Import Io ListFacts IoFacts Rows AutoShape AutoShapeFacts.

Section Forward.

Variable pil : Type.
Variable Image_open : string -> result pil.
Variable asarray : pil -> ndarray.
Variable filename : pil -> option string.
Variable jpg_name : string -> result string.
Variable true_div : nat -> nat -> Q.
Variable float_mul : nat -> Q -> Q.
Variable make_divisible : Q -> nat -> nat.
Variable letterbox : array3 -> nat * nat -> array3.
Variable div_255 : Q -> Q.
Variable raw : Type.
Variable model : batch -> bool -> bool -> raw.
Variable index0 : raw -> raw.
Variable non_max_suppression :
  raw -> Q -> Q -> option (list nat) -> bool -> bool -> nat -> list (list row).
Variable scale_coords : nat * nat -> Q * Q * Q * Q -> nat * nat -> Q * Q * Q * Q.
Variable time_sync : nat -> Q.

Local Abbreviation prepare :=
  (AutoShape.prepare Image_open asarray filename jpg_name true_div float_mul).
Local Abbreviation forward :=
  (AutoShape.forward Image_open asarray filename jpg_name true_div float_mul make_divisible
     letterbox div_255 model index0 non_max_suppression scale_coords time_sync).

(** X8: [forward] does not reach the model on a batch it cannot load: on an
    empty list it raises [ValueError] right after the first reading of the
    clock, and when an image fails to open or to convert it raises the
    exception of that image, having only opened files. *)
Theorem forward_stops_before_model (self : t) (imgs : input pil)
    (srcs : list (source pil)) (size : nat) (augment profile : bool) :
  images_of pil imgs = Some srcs ->
  (srcs = [] ->
   forward self imgs size augment profile = ([time_sync_call 0], Raise ValueError)) /\
  (forall opens e,
      io_mapM (prepare size) (combine (seq 0 (List.length srcs)) srcs) = (opens, Raise e) ->
      forward self imgs size augment profile = (time_sync_call 0 :: opens, Raise e) /\
      Forall is_open opens).
Proof.
  intros Himgs.
  assert (E : forward self imgs size augment profile
              = forward self (Several srcs) size augment profile).
  { destruct imgs as [x|s|l]; simpl in Himgs; try discriminate;
      now injection Himgs as <-. }
  rewrite E. clear E Himgs. split.
  - intros ->. reflexivity.
  - intros opens e Hload. split.
    + unfold AutoShape.forward. apply io_bind_call.
      unfold io_bind at 1. now rewrite Hload.
    + pose proof (load_opens pil Image_open asarray filename jpg_name true_div float_mul size
                    (combine (seq 0 (List.length srcs)) srcs)) as H.
      now rewrite Hload in H.
Qed.

End Forward.

Lemma forward_stops_before_model_witness :
  images_of unit (Single (Src_path unit "none.jpg")) = Some [Src_path unit "none.jpg"] /\
  demo_forward demo_self (Single (Src_path unit "none.jpg")) 640 false false
  = ([time_sync_call 0; Image_open_call "none.jpg"], Raise (Exception "no file")).
Proof.
  split; [reflexivity|].
  apply (forward_stops_before_model unit demo_open demo_asarray demo_filename demo_jpg
           demo_true_div demo_float_mul demo_divisible demo_letterbox demo_div_255
           (list (list row)) demo_model demo_index0 demo_nms demo_scale demo_clock demo_self
           (Single (Src_path unit "none.jpg")) [Src_path unit "none.jpg"] 640 false false
           eq_refl).
  reflexivity.
Defined.

End AutoShapeRuns.

(** ** Detections.tolist *)

Module ResultsFacts.

Import ListFacts ListMore PyFacts Rows AutoShape Results.

(** X9: [tolist] splits the results that [__init__] could build (from at
    least one prediction and four times) image by image: for as many images
    and file names as predictions it returns [len(self)] objects of length
    one, each with the names, the times and the inference shape of the
    whole, and the images, predictions and file names of the parts, put end
    to end, are those of the whole.  With fewer images or file names than
    predictions it raises [IndexError]. *)
Theorem tolist_splits (imgs : list array3) (pred : list (list row))
    (files : list string) (times : list Q) (names : list string) (shape : list nat)
    (d : Detections) :
  Detections_init imgs pred files times names shape = Ok d ->
  (List.length imgs = List.length pred -> List.length files = List.length pred ->
   exists ds,
     tolist d = Ok ds /\
     List.length ds = __len__ d /\
     Forall (fun d' => __len__ d' = 1 /\ d_names d' = names /\
                       d_times d' = times /\ d_s d' = shape) ds /\
     List.concat (map d_pred ds) = pred /\
     List.concat (map d_imgs ds) = imgs /\
     List.concat (map d_files ds) = files) /\
  (List.length imgs < List.length pred \/ List.length files < List.length pred ->
   tolist d = Raise IndexError).
Proof.
  unfold Detections_init. destruct pred as [|p0 pred0] eqn:Ep; [discriminate|].
  rewrite <- Ep. destruct (List.length times <? 4) eqn:Et; [discriminate|].
  intros [= <-]. unfold tolist, __len__.
  cbn [d_imgs d_pred d_files d_times d_names d_s d_n]. split.
  - intros Hi Hf.
    set (g := fun i => MkDetections [nth i imgs []] [nth i pred []] names
                         [nth i files EmptyString] times [nth i pred []] 1 shape).
    exists (map g (seq 0 (List.length pred))). split; [|split; [|split; [|split; [|split]]]].
    + apply mapM_map. intros i Hin. apply in_seq in Hin.
      rewrite (item_nth imgs i []) by lia.
      rewrite (item_nth pred i []) by lia.
      rewrite (item_nth files i EmptyString) by lia.
      cbn [Py.bind]. unfold Detections_init. now rewrite Et.
    + now rewrite length_map, length_seq.
    + apply Forall_map, Forall_forall. intros i _. repeat split.
    + rewrite map_map. unfold g. cbn [d_pred].
      rewrite (concat_singletons (fun i => nth i pred [])). apply map_nth_seq.
    + rewrite map_map. unfold g. cbn [d_imgs].
      rewrite (concat_singletons (fun i => nth i imgs [])). rewrite <- Hi. apply map_nth_seq.
    + rewrite map_map. unfold g. cbn [d_files].
      rewrite (concat_singletons (fun i => nth i files EmptyString)).
      rewrite <- Hf. apply map_nth_seq.
  - intros Hshort. apply mapM_raise.
    + intros i Hin. apply in_seq in Hin.
      destruct (Nat.lt_ge_cases i (List.length imgs)) as [Hi|Hi];
        [rewrite (item_nth imgs i []) by lia | rewrite item_out by lia; now left].
      rewrite (item_nth pred i []) by lia.
      destruct (Nat.lt_ge_cases i (List.length files)) as [Hf|Hf];
        [rewrite (item_nth files i EmptyString) by lia | rewrite item_out by lia; now left].
      right. eexists. cbn [Py.bind]. unfold Detections_init. now rewrite Et.
    + exists (Nat.min (List.length imgs) (List.length files)). split; [apply in_seq; lia|].
      destruct (Nat.le_gt_cases (List.length imgs) (List.length files)) as [Hle|Hgt].
      * rewrite Nat.min_l by assumption. now rewrite item_out by lia.
      * rewrite Nat.min_r by lia.
        rewrite (item_nth imgs _ []) by lia.
        rewrite (item_nth pred _ []) by lia.
        now rewrite item_out by lia.
Qed.

Definition two_results : Detections :=
  MkDetections [[[[1; 2; 3]]]; [[[4; 5; 6]]]]%Q
               [[Row (0, 0, 1, 1)%Q 0.9 0]; []] ["fish"%string] ["a.jpg"; "b.jpg"]%string
               [0; 1; 2; 3]%Q [[Row (0, 0, 1, 1)%Q 0.9 0]; []] 2 [2; 3; 1; 1].

Lemma tolist_splits_witness :
  Detections_init (d_imgs two_results) (d_pred two_results) (d_files two_results)
                  (d_times two_results) (d_names two_results) (d_s two_results)
  = Ok two_results /\
  exists ds,
    tolist two_results = Ok ds /\
    List.length ds = __len__ two_results /\
    Forall (fun d' => __len__ d' = 1 /\ d_names d' = d_names two_results /\
                      d_times d' = d_times two_results /\ d_s d' = d_s two_results) ds /\
    List.concat (map d_pred ds) = d_pred two_results /\
    List.concat (map d_imgs ds) = d_imgs two_results /\
    List.concat (map d_files ds) = d_files two_results.
Proof.
  split; [reflexivity|].
  apply (tolist_splits (d_imgs two_results) (d_pred two_results) (d_files two_results)
           (d_times two_results) (d_names two_results) (d_s two_results) two_results
           eq_refl); reflexivity.
Defined.

End ResultsFacts.

(** ** The hard sigmoid and the hard swish *)

Module HardFacts.

Import Hard.

Lemma relu6_cases (z : R) :
  (z <= 0 /\ relu6 z = 0)%R \/ (0 <= z <= 6 /\ relu6 z = z)%R \/ (6 <= z /\ relu6 z = 6)%R.
Proof.
  unfold relu6, Rmin, Rmax.
  destruct (Rle_dec 0 z) as [H0|H0].
  - destruct (Rle_dec z 6) as [H6|H6]; [right; left; split; [lra|reflexivity]|].
    right; right. split; [lra|reflexivity].
  - destruct (Rle_dec 0 6) as [_|]; [|lra]. left. split; [lra|reflexivity].
Qed.

Lemma h_sigmoid_cases (x : R) :
  (x <= -3 /\ h_sigmoid x = 0)%R \/
  (-3 <= x <= 3 /\ h_sigmoid x = (x + 3) / 6)%R \/
  (3 <= x /\ h_sigmoid x = 1)%R.
Proof.
  unfold h_sigmoid.
  destruct (relu6_cases (x + 3)) as [[H ->] | [[H ->] | [H ->]]].
  - left. split; lra.
  - right; left. split; lra.
  - right; right. split; lra.
Qed.

(** X10: The hard sigmoid is 0 up to -3, rises in a straight line to 1 at 3
    and stays there: it is between 0 and 1 and never falls. *)
Theorem h_sigmoid_shape (x y : R) :
  (0 <= h_sigmoid x <= 1)%R /\
  (x <= -3 -> h_sigmoid x = 0)%R /\
  (-3 <= x <= 3 -> h_sigmoid x = (x + 3) / 6)%R /\
  (3 <= x -> h_sigmoid x = 1)%R /\
  (x <= y -> h_sigmoid x <= h_sigmoid y)%R.
Proof.
  destruct (h_sigmoid_cases x) as [[Hx Ex] | [[Hx Ex] | [Hx Ex]]];
    destruct (h_sigmoid_cases y) as [[Hy Ey] | [[Hy Ey] | [Hy Ey]]];
    rewrite Ex, Ey; repeat split; intros; lra.
Qed.

(** X11: The hard swish is the identity from 3 on and 0 up to -3; in between it
    is [x * (x + 3) / 6], which is lowest at [-3/2], where it is [-3/8].  On
    a positive input it is between 0 and the input. *)
Theorem h_swish_shape (x : R) :
  (3 <= x -> h_swish x = x)%R /\
  (x <= -3 -> h_swish x = 0)%R /\
  (-3 <= x <= 3 -> h_swish x = x * (x + 3) / 6)%R /\
  (- (3 / 8) <= h_swish x)%R /\
  (h_swish (- (3 / 2)) = - (3 / 8))%R /\
  (0 <= x -> 0 <= h_swish x <= x)%R.
Proof.
  unfold h_swish.
  assert (Hmid : h_sigmoid (- (3 / 2)) = (1 / 4)%R).
  { destruct (h_sigmoid_cases (- (3 / 2))) as [[H E] | [[H E] | [H E]]]; lra. }
  rewrite Hmid.
  pose proof (Rle_0_sqr (x + 3 / 2)) as Hsq. unfold Rsqr in Hsq.
  destruct (h_sigmoid_cases x) as [[Hx Ex] | [[Hx Ex] | [Hx Ex]]]; rewrite Ex;
    repeat split; intros; try lra; try nra.
Qed.

End HardFacts.

(** ** Contract and Expand: where each cell goes, and what is refused *)

Module ReorgCells.

Import Tensor Reorg TensorFacts ReorgFacts.
Local Open Scope py_scope.

(** The element of [x] at the multi-index [idx]. *)
Definition at_index {A : Type} (x : t A) (idx : list nat) (d : A) : A :=
  nth (ravel (shape x) idx) (data x) d.

Lemma mul_lt_slot (q s i r : nat) : i < q -> r < s -> i * s + r < q * s.
Proof. intros Hi Hr. nia. Qed.

(** X12: [Contract] is space to depth: it succeeds when the gain [s] divides the
    height and the width, its output is of shape [(b, c*s*s, h/s, w/s)], and
    the cell at row [i*s + si] and column [j*s + sj] of channel [ch] of the
    input is the cell at row [i] and column [j] of channel
    [(si*s + sj)*c + ch] of the output. *)
Theorem contract_space_to_depth {A : Type} (s b c h w : nat) (x : t A) :
  0 < s -> shape x = [b; c; h; w] -> wf x -> h mod s = 0 -> w mod s = 0 ->
  exists y,
    Contract_forward s x = Ok y /\
    shape y = [b; c * s * s; h / s; w / s] /\ wf y /\
    forall n ch i j si sj d,
      n < b -> ch < c -> i < h / s -> j < w / s -> si < s -> sj < s ->
      at_index y [n; (si * s + sj) * c + ch; i; j] d
      = at_index x [n; ch; i * s + si; j * s + sj] d.
Proof.
  intros Hs Hsh Hwf Hh Hw.
  destruct x as [sh dx]. cbn [shape] in Hsh. subst sh.
  apply Nat.Div0.div_exact in Hh, Hw.
  set (hs := h / s) in *. set (ws := w / s) in *.
  unfold Contract_forward. cbn [shape].
  rewrite !floordiv_ok by assumption. cbn [Py.bind]. fold hs ws.
  rewrite view_ok by (cbn; rewrite Hh, Hw; ring). cbn [Py.bind].
  set (x1 := Make [b; c; hs; s; ws; s] dx).
  assert (Hwf1 : wf x1).
  { unfold wf in *. cbn in *. rewrite Hwf, Hh, Hw. ring. }
  rewrite view_ok by (cbn; ring).
  eexists. split; [reflexivity|]. split; [reflexivity|]. split.
  - assert (Hp : wf (permute x1 [0; 3; 5; 1; 2; 4]))
      by (apply permute_wf; [assumption | cbn; ring]).
    unfold wf in Hp |- *. cbn [shape data]. fold x1. rewrite Hp. cbn. ring.
  - intros n ch i j si sj d Hn Hch Hi Hj Hsi Hsj.
    unfold at_index. cbn [shape data]. fold x1.
    replace (ravel [b; c * s * s; hs; ws] [n; (si * s + sj) * c + ch; i; j])
      with (ravel (shape (permute x1 [0; 3; 5; 1; 2; 4])) [n; si; sj; ch; i; j])
      by (cbn; ring).
    rewrite permute_nth; [|in_bounds|in_bounds|assumption].
    unfold x1. compute_index. cbn [data ravel numel fold_right].
    f_equal. rewrite Hh, Hw. ring.
Qed.

(** X13: [Expand] is depth to space: it succeeds when [s ** 2] divides the
    number of channels, its output is of shape [(b, c/s**2, h*s, w*s)], and
    the cell at row [i] and column [j] of channel [(si*s + sj)*(c/s**2) + ch]
    of the input is the cell at row [i*s + si] and column [j*s + sj] of
    channel [ch] of the output. *)
Theorem expand_depth_to_space {A : Type} (s b c h w : nat) (x : t A) :
  0 < s -> shape x = [b; c; h; w] -> wf x -> c mod s ^ 2 = 0 ->
  exists y,
    Expand_forward s x = Ok y /\
    shape y = [b; c / s ^ 2; h * s; w * s] /\ wf y /\
    forall n ch i j si sj d,
      n < b -> ch < c / s ^ 2 -> i < h -> j < w -> si < s -> sj < s ->
      at_index y [n; ch; i * s + si; j * s + sj] d
      = at_index x [n; (si * s + sj) * (c / s ^ 2) + ch; i; j] d.
Proof.
  intros Hs Hsh Hwf Hc.
  destruct x as [sh dx]. cbn [shape] in Hsh. subst sh.
  assert (Hs2 : 0 < s ^ 2) by (simpl; nia).
  apply Nat.Div0.div_exact in Hc.
  set (cs := c / s ^ 2) in *.
  assert (Hc' : c = cs * s * s) by (rewrite Hc; simpl; ring).
  unfold Expand_forward. cbn [shape].
  rewrite floordiv_ok by assumption. cbn [Py.bind]. fold cs.
  rewrite view_ok by (cbn; rewrite Hc'; ring). cbn [Py.bind].
  set (x1 := Make [b; s; s; cs; h; w] dx).
  assert (Hwf1 : wf x1).
  { unfold wf in *. cbn in *. rewrite Hwf, Hc'. ring. }
  rewrite view_ok by (cbn; ring).
  eexists. split; [reflexivity|]. split; [reflexivity|]. split.
  - assert (Hp : wf (permute x1 [0; 3; 4; 1; 5; 2]))
      by (apply permute_wf; [assumption | cbn; ring]).
    unfold wf in Hp |- *. cbn [shape data]. fold x1. rewrite Hp. cbn. ring.
  - intros n ch i j si sj d Hn Hch Hi Hj Hsi Hsj.
    unfold at_index. cbn [shape data]. fold x1.
    replace (ravel [b; cs; h * s; w * s] [n; ch; i * s + si; j * s + sj])
      with (ravel (shape (permute x1 [0; 3; 4; 1; 5; 2])) [n; ch; i; si; j; sj])
      by (cbn; ring).
    rewrite permute_nth; [|in_bounds|in_bounds|assumption].
    unfold x1. compute_index. cbn [data ravel numel fold_right].
    f_equal. rewrite Hc'. ring.
Qed.

Lemma view_refused {A : Type} (x : t A) (sh : list nat) :
  numel sh <> numel (shape x) -> view x sh = Raise RuntimeError.
Proof.
  intros H. unfold view. apply Nat.eqb_neq in H. now rewrite H.
Qed.

Lemma short_of (a s : nat) : 0 < s -> a mod s <> 0 -> a / s * s < a.
Proof.
  intros Hs Hm. pose proof (Nat.div_mod_eq a s). nia.
Qed.

Lemma upto (a s : nat) : a / s * s <= a.
Proof.
  destruct s as [|s]; [simpl; lia|].
  pose proof (Nat.div_mod_eq a (S s)). nia.
Qed.

(** X14: What [Contract] and [Expand] refuse, on a tensor of four axes that
    holds at least one element: a gain of 0 raises [ZeroDivisionError]; a
    gain that does not divide the height or the width stops [Contract] at
    its first [view], and a number of channels that [s ** 2] does not divide
    stops [Expand] at its first [view], with the [RuntimeError] of
    torch. *)
Theorem reorg_refuses {A : Type} (s b c h w : nat) (x : t A) :
  shape x = [b; c; h; w] -> 0 < numel (shape x) ->
  (s = 0 -> Contract_forward s x = Raise ZeroDivisionError /\
            Expand_forward s x = Raise ZeroDivisionError) /\
  (0 < s -> h mod s <> 0 \/ w mod s <> 0 -> Contract_forward s x = Raise RuntimeError) /\
  (0 < s -> c mod s ^ 2 <> 0 -> Expand_forward s x = Raise RuntimeError).
Proof.
  intros Hsh Hn. rewrite Hsh in Hn. cbn in Hn.
  assert (Hb : 0 < b) by nia. assert (Hc : 0 < c) by nia.
  assert (Hh : 0 < h) by nia. assert (Hw : 0 < w) by nia.
  split; [|split].
  - intros ->. unfold Contract_forward, Expand_forward. rewrite Hsh. split; reflexivity.
  - intros Hs Hdiv. unfold Contract_forward. rewrite Hsh.
    rewrite !floordiv_ok by assumption. cbn [Py.bind].
    rewrite view_refused; [reflexivity|].
    rewrite Hsh. cbn.
    pose proof (upto h s) as Uh. pose proof (upto w s) as Uw.
    assert (K : h / s * s * (w / s * s) < h * w).
    { destruct Hdiv as [Hd|Hd]; apply (short_of _ s Hs) in Hd; nia. }
    nia.
  - intros Hs Hdiv. unfold Expand_forward. rewrite Hsh.
    assert (Hs2 : 0 < s ^ 2) by (simpl; nia).
    rewrite floordiv_ok by assumption. cbn [Py.bind].
    rewrite view_refused; [reflexivity|].
    rewrite Hsh. cbn.
    apply (short_of _ _ Hs2) in Hdiv. simpl in Hdiv. nia.
Qed.

Definition strip : t nat := Make [1; 1; 2; 4] [0; 1; 2; 3; 4; 5; 6; 7].

Definition deep : t nat := Make [1; 4; 1; 2] [0; 2; 1; 3; 4; 6; 5; 7].

Lemma contract_space_to_depth_witness :
  exists y,
    Contract_forward 2 strip = Ok y /\
    shape y = [1; 1 * 2 * 2; 2 / 2; 4 / 2] /\ wf y /\
    forall n ch i j si sj d,
      n < 1 -> ch < 1 -> i < 2 / 2 -> j < 4 / 2 -> si < 2 -> sj < 2 ->
      at_index y [n; (si * 2 + sj) * 1 + ch; i; j] d
      = at_index strip [n; ch; i * 2 + si; j * 2 + sj] d.
Proof.
  apply (contract_space_to_depth 2 1 1 2 4 strip); [lia| | |reflexivity|reflexivity];
    reflexivity.
Defined.

Lemma expand_depth_to_space_witness :
  exists y,
    Expand_forward 2 deep = Ok y /\
    shape y = [1; 4 / 2 ^ 2; 1 * 2; 2 * 2] /\ wf y /\
    forall n ch i j si sj d,
      n < 1 -> ch < 4 / 2 ^ 2 -> i < 1 -> j < 2 -> si < 2 -> sj < 2 ->
      at_index y [n; ch; i * 2 + si; j * 2 + sj] d
      = at_index deep [n; (si * 2 + sj) * (4 / 2 ^ 2) + ch; i; j] d.
Proof.
  apply (expand_depth_to_space 2 1 4 1 2 deep); [lia| | |reflexivity]; reflexivity.
Defined.

Lemma reorg_refuses_witness :
  (0 < 2 -> 3 mod 2 <> 0 \/ 4 mod 2 <> 0 ->
   Contract_forward 2 (Make [1; 1; 3; 4] (seq 0 12)) = Raise RuntimeError) /\
  (0 < 2 -> 1 mod 2 ^ 2 <> 0 ->
   Expand_forward 2 (Make [1; 1; 3; 4] (seq 0 12)) = Raise RuntimeError).
Proof.
  apply (reorg_refuses 2 1 1 3 4 (Make [1; 1; 3; 4] (seq 0 12))); [reflexivity|].
  simpl. lia.
Defined.

End ReorgCells.

(** ** The shapes through Conv, DWConv, C3, GhostConv, SPP and SPPF *)

Module BlocksFacts.

Import ListMore CoAt CoAtFacts PyFacts Blocks.
Local Open Scope py_scope.

(** The side a window of an odd kernel [2r + 1], padded by [r], leaves. *)
Lemma window_odd (n r s : nat) :
  0 < n -> window_out n (2 * r + 1) s ((2 * r + 1) / 2) = Ok ((n - 1) / s + 1).
Proof.
  intros Hn. unfold window_out.
  replace ((2 * r + 1) / 2) with r by (symmetry; apply half_double).
  destruct (Nat.ltb_spec (n + 2 * r) (2 * r + 1)) as [H|_]; [lia|].
  do 3 f_equal. lia.
Qed.

(** The side a window of an even kernel [2r], padded by [r], leaves. *)
Lemma window_even (n r s : nat) :
  window_out n (2 * r) s ((2 * r) / 2) = Ok (n / s + 1).
Proof.
  unfold window_out.
  replace ((2 * r) / 2) with r by (symmetry; rewrite Nat.mul_comm; apply Nat.div_mul; lia).
  destruct (Nat.ltb_spec (n + 2 * r) (2 * r)) as [H|_]; [lia|].
  do 3 f_equal. lia.
Qed.

Lemma odd_form (k : nat) : Nat.odd k = true -> exists r, k = 2 * r + 1.
Proof. intros H. apply Nat.odd_spec in H. exact H. Qed.

Lemma even_form (k : nat) : Nat.even k = true -> exists r, k = 2 * r.
Proof. intros H. apply Nat.even_spec in H. exact H. Qed.

Lemma nn_Conv2d_inv (c1 c2 : nat) (k s p : size) (g : nat) (m : Conv2d) :
  nn_Conv2d c1 c2 k s p g = Ok m ->
  m = MkConv2d c1 c2 k s p g /\ g <> 0 /\ c1 mod g = 0 /\ c2 mod g = 0.
Proof.
  unfold nn_Conv2d.
  destruct (g =? 0) eqn:Eg; [discriminate|].
  destruct (c1 mod g =? 0) eqn:E1; [|discriminate].
  destruct (c2 mod g =? 0) eqn:E2; [|discriminate].
  simpl. intros [= <-].
  apply Nat.eqb_neq in Eg. apply Nat.eqb_eq in E1, E2. auto.
Qed.

Lemma nn_Conv2d_ok (c1 c2 : nat) (k s p : size) (g : nat) :
  g <> 0 -> c1 mod g = 0 -> c2 mod g = 0 ->
  nn_Conv2d c1 c2 k s p g = Ok (MkConv2d c1 c2 k s p g).
Proof.
  intros Hg H1 H2. unfold nn_Conv2d.
  apply Nat.eqb_neq in Hg. rewrite Hg, H1, H2. reflexivity.
Qed.

(** The shape through a [Conv] of an odd kernel with the padding of
    [autopad]. *)
Lemma groups_fit (c g : nat) : g <> 0 -> c mod g = 0 -> 0 < c -> (c <? g) = false.
Proof.
  intros Hg Hc H0. apply Nat.ltb_ge.
  apply Nat.Lcm0.mod_divide in Hc. destruct Hc as [q ->].
  destruct q as [|q]; simpl in *; lia.
Qed.

(** The checks of [Conv_forward] that a layer of at least one output
    channel and of a positive stride passes on an input of its channels. *)
Lemma Conv_forward_checks (c1 c2 k s p g h w : nat) (m : Conv2d) :
  nn_Conv2d c1 c2 (Int k) (Int s) (Int p) g = Ok m -> 0 < c2 -> 0 < s ->
  Conv_forward m (c1, (h, w))
  = (h' <- window_out h k s p ;; w' <- window_out w k s p ;; Ok (c2, (h', w'))).
Proof.
  intros Hm Hc Hs. apply nn_Conv2d_inv in Hm. destruct Hm as (-> & Hg & _ & H2).
  unfold Conv_forward.
  cbn [in_channels kernel_size stride padding out_channels groups pair].
  rewrite Nat.eqb_refl, (groups_fit c2 g Hg H2 Hc). cbn [negb Py.bind fst snd].
  destruct (Nat.eqb_spec s 0) as [E|_]; [lia|]. reflexivity.
Qed.

Lemma Conv_forward_odd (c1 c2 k s g h w : nat) (m : Conv2d) :
  Conv c1 c2 (Int k) (Int s) None g = Ok m ->
  Nat.odd k = true -> 0 < c2 -> 0 < s -> 0 < h -> 0 < w ->
  Conv_forward m (c1, (h, w)) = Ok (c2, ((h - 1) / s + 1, (w - 1) / s + 1)).
Proof.
  intros Hm Hk Hc Hs Hh Hw.
  rewrite (Conv_forward_checks c1 c2 k s (k / 2) g h w m Hm Hc Hs).
  destruct (odd_form k Hk) as [r ->].
  rewrite !window_odd by assumption. reflexivity.
Qed.

Lemma Conv_forward_keeps (c1 c2 k g h w : nat) (m : Conv2d) :
  Conv c1 c2 (Int k) (Int 1) None g = Ok m ->
  Nat.odd k = true -> 0 < c2 -> 0 < h -> 0 < w ->
  Conv_forward m (c1, (h, w)) = Ok (c2, (h, w)).
Proof.
  intros Hm Hk Hc Hh Hw.
  rewrite (Conv_forward_odd c1 c2 k 1 g h w m Hm Hk Hc Nat.lt_0_1 Hh Hw).
  rewrite !Nat.div_1_r. do 3 f_equal; lia.
Qed.

(** X15: [autopad] pads to "same" for an odd kernel: the output of a [Conv]
    of at least one channel is then of [ceil(h / s)] by [ceil(w / s)] cells,
    and of the height and the width of the input at a stride of 1.  For
    an even kernel it is of [h // s + 1] by [w // s + 1] cells, one more
    than the input at a stride of 1.  A padding that is given is taken as
    it is. *)
Theorem autopad_same (c1 c2 k s g h w : nat) (m : Conv2d) :
  Conv c1 c2 (Int k) (Int s) None g = Ok m ->
  0 < c1 -> 0 < c2 -> 0 < k -> 0 < s -> 0 < h -> 0 < w ->
  (Nat.odd k = true ->
   Conv_forward m (c1, (h, w)) = Ok (c2, ((h - 1) / s + 1, (w - 1) / s + 1)) /\
   (s = 1 -> Conv_forward m (c1, (h, w)) = Ok (c2, (h, w)))) /\
  (Nat.even k = true ->
   Conv_forward m (c1, (h, w)) = Ok (c2, (h / s + 1, w / s + 1))) /\
  (forall p, autopad (Int k) (Some p) = p).
Proof.
  intros Hm _ Hc _ Hs Hh Hw. split; [|split].
  - intros Hk. split; [now apply (Conv_forward_odd c1 c2 k s g)|].
    intros ->. now apply (Conv_forward_keeps c1 c2 k g).
  - intros Hk.
    rewrite (Conv_forward_checks c1 c2 k s (k / 2) g h w m Hm Hc Hs).
    destruct (even_form k Hk) as [r ->].
    rewrite !window_even. reflexivity.
  - reflexivity.
Qed.

Lemma autopad_same_witness :
  Conv 3 32 (Int 3) (Int 2) None 1 = Ok (MkConv2d 3 32 (Int 3) (Int 2) (Int 1) 1) /\
  Conv_forward (MkConv2d 3 32 (Int 3) (Int 2) (Int 1) 1) (3, (640, 639))
  = Ok (32, ((640 - 1) / 2 + 1, (639 - 1) / 2 + 1)).
Proof.
  split; [reflexivity|].
  apply (autopad_same 3 32 3 2 1 640 639 _ eq_refl); try lia. reflexivity.
Defined.

(** X16: [DWConv] groups its channels by [gcd(c1, c2)], which divides both
    numbers of channels, so that the convolution is always accepted, for
    positive numbers of channels; any other grouping that divides both is
    coarser.  With [c1 = c2] each channel is a group of its own. *)
Theorem DWConv_groups (c1 c2 : nat) (k s : size) :
  0 < c1 -> 0 < c2 ->
  exists m,
    DWConv c1 c2 k s = Ok m /\
    groups m = Nat.gcd c1 c2 /\
    padding m = autopad k None /\
    (c1 = c2 -> groups m = in_channels m) /\
    (forall g m', Conv c1 c2 k s None g = Ok m' -> Nat.divide g (groups m)).
Proof.
  intros Hc _.
  assert (Hg : Nat.gcd c1 c2 <> 0).
  { intros E. apply Nat.gcd_eq_0_l in E. lia. }
  destruct (Nat.gcd_divide_l c1 c2) as [q1 H1], (Nat.gcd_divide_r c1 c2) as [q2 H2].
  eexists. split; [|split; [|split; [|split]]].
  - unfold DWConv, Conv. apply nn_Conv2d_ok; [exact Hg| |].
    + rewrite H1 at 1. apply Nat.Div0.mod_mul.
    + rewrite H2 at 1. apply Nat.Div0.mod_mul.
  - reflexivity.
  - reflexivity.
  - intros <-. cbn [groups in_channels]. apply Nat.gcd_diag.
  - intros g m' Hm'. apply nn_Conv2d_inv in Hm'. destruct Hm' as (_ & Hg0 & G1 & G2).
    cbn [groups]. apply Nat.gcd_greatest.
    + apply Nat.Lcm0.mod_divide. exact G1.
    + apply Nat.Lcm0.mod_divide. exact G2.
Qed.

Lemma DWConv_groups_witness :
  exists m,
    DWConv 64 96 (Int 3) (Int 2) = Ok m /\
    groups m = Nat.gcd 64 96 /\
    padding m = autopad (Int 3) None /\
    (64 = 96 -> groups m = in_channels m) /\
    (forall g m', Conv 64 96 (Int 3) (Int 2) None g = Ok m' -> Nat.divide g (groups m)).
Proof. apply (DWConv_groups 64 96 (Int 3) (Int 2)); lia. Defined.

(** *** Bottleneck and C3 *)

Lemma broadcast_same (a : nat) : broadcast a a = Ok a.
Proof. unfold broadcast. now rewrite Nat.eqb_refl. Qed.

Lemma add_same (x : shape) : add x x = Ok x.
Proof.
  destruct x as [c [h w]]. unfold add. cbn [fst snd].
  now rewrite !broadcast_same.
Qed.

Lemma Sequential_keeps {M : Type} (forward : M -> shape -> result shape)
    (ms : list M) (x : shape) :
  Forall (fun m => forward m x = Ok x) ms -> Sequential forward ms x = Ok x.
Proof.
  induction 1 as [|m ms Hm _ IH]; [reflexivity|].
  cbn [Sequential]. rewrite Hm. exact IH.
Qed.

Section Expansion.

Variable float : Type.
Variable int_times : nat -> float -> nat.
Variable one : float.

Lemma Bottleneck_keeps (c1 c2 : nat) (shortcut : bool) (g : nat) (e : float)
    (h w : nat) (m : Bottleneck) :
  Bottleneck_init int_times c1 c2 shortcut g e = Ok m ->
  0 < c2 -> 0 < int_times c2 e -> 0 < h -> 0 < w ->
  Bottleneck_forward m (c1, (h, w)) = Ok (c2, (h, w)).
Proof.
  unfold Bottleneck_init. intros Hm Hc Hc_ Hh Hw.
  destruct (Conv c1 (int_times c2 e) (Int 1) (Int 1) None 1) as [cv1|] eqn:E1;
    [|discriminate].
  destruct (Conv (int_times c2 e) c2 (Int 3) (Int 1) None g) as [cv2|] eqn:E2;
    [|discriminate].
  cbn [Py.bind] in Hm. injection Hm as <-.
  unfold Bottleneck_forward. cbn [b_cv1 b_cv2 b_add].
  rewrite (Conv_forward_keeps _ _ 1 1 h w cv1 E1) by (trivial). cbn [Py.bind].
  rewrite (Conv_forward_keeps _ _ 3 g h w cv2 E2) by (trivial). cbn [Py.bind].
  destruct shortcut; [|reflexivity]. cbn [andb].
  destruct (Nat.eqb_spec c1 c2) as [->|_]; [apply add_same|reflexivity].
Qed.

(** X17: A [C3] block that could be built, with [c_ = int(c2 * e)] hidden
    channels, at least one, that [int(c_ * 1.0)] gives back (as it does
    below [2 ** 53]), turns a feature map of [c1] channels into one of [c2]
    channels of the same height and width, whatever the number [n] of its
    bottlenecks, each of which keeps the shape: the shortcut is added only
    between equal shapes, and the two branches that are concatenated hold
    [2 * c_] channels, as [cv3] expects. *)
Theorem C3_shape (c1 c2 n : nat) (shortcut : bool) (g : nat) (e : float)
    (h w : nat) (m : C3) :
  C3_init int_times one c1 c2 n shortcut g e = Ok m ->
  int_times (int_times c2 e) one = int_times c2 e ->
  0 < c1 -> 0 < c2 -> 0 < int_times c2 e -> 0 < h -> 0 < w ->
  C3_forward m (c1, (h, w)) = Ok (c2, (h, w)) /\
  List.length (c3_m m) = n /\
  Forall (fun b => Bottleneck_forward b (int_times c2 e, (h, w))
                   = Ok (int_times c2 e, (h, w)))
         (c3_m m).
Proof.
  unfold C3_init. intros Hm H1 _ Hc Hc_ Hh Hw.
  set (c_ := int_times c2 e) in *.
  destruct (Conv c1 c_ (Int 1) (Int 1) None 1) as [cv1|] eqn:E1; [|discriminate].
  cbn [Py.bind] in Hm.
  destruct (Conv (2 * c_) c2 (Int 1) (Int 1) None 1) as [cv3|] eqn:E3; [|discriminate].
  cbn [Py.bind] in Hm.
  destruct (mapM (fun _ => Bottleneck_init int_times c_ c_ shortcut g one) (seq 0 n))
    as [bs|] eqn:Eb; [|discriminate].
  cbn [Py.bind] in Hm. injection Hm as <-.
  apply mapM_const in Eb. destruct Eb as [Hlen Eb]. rewrite length_seq in Hlen.
  assert (Hbs : Forall (fun b => Bottleneck_forward b (c_, (h, w)) = Ok (c_, (h, w))) bs).
  { apply Forall_impl with (2 := Eb).
    intros b Hb. apply (Bottleneck_keeps c_ c_ shortcut g one); trivial.
    now rewrite H1. }
  split; [|split; [exact Hlen|exact Hbs]].
  unfold C3_forward. cbn [c3_cv1 c3_cv2 c3_cv3 c3_m].
  rewrite (Conv_forward_keeps _ _ 1 1 h w cv1 E1) by trivial. cbn [Py.bind].
  rewrite (Sequential_keeps _ _ _ Hbs). cbn [Py.bind].
  unfold cat. cbn [forallb snd]. rewrite same_size_refl. cbn [andb map fold_right fst Py.bind].
  replace (c_ + (c_ + 0)) with (2 * c_) by lia.
  now apply (Conv_forward_keeps _ _ 1 1 h w cv3 E3).
Qed.

End Expansion.

(** Floats that are a whole number of halves, [k] standing for [k / 2]:
    their product with an integer is exact, and cut down to an integer. *)
Definition halves_times (c k : nat) : nat := c * k / 2.

(** [C3(64, 128, n=3)] with the default expansion [e = 0.5]. *)
Lemma C3_shape_witness :
  exists m,
    C3_init halves_times 2 64 128 3 true 1 1 = Ok m /\
    halves_times (halves_times 128 1) 2 = halves_times 128 1 /\
    C3_forward m (64, (80, 80)) = Ok (128, (80, 80)) /\
    List.length (c3_m m) = 3.
Proof.
  eexists. split; [reflexivity|]. split; [reflexivity|].
  pose proof (C3_shape nat halves_times 2 64 128 3 true 1 1 80 80 _ eq_refl eq_refl) as H.
  destruct H as (H1 & H2 & _); try lia; [vm_compute; lia|]. split; [exact H1 | exact H2].
Defined.

(** *** GhostConv *)

(** X18: [GhostConv] concatenates [c2 // 2] channels with as many made from
    them: its output holds [2 * (c2 // 2)] channels, which is [c2] for an
    even [c2] and one short of it for an odd one.  It is built only for
    [c2] of 2 or more. *)
Theorem GhostConv_channels (c1 c2 k s g h w : nat) (m : GhostConv) :
  GhostConv_init c1 c2 (Int k) (Int s) g = Ok m ->
  Nat.odd k = true -> 0 < c1 -> 0 < s -> 0 < h -> 0 < w ->
  2 <= c2 /\
  GhostConv_forward m (c1, (h, w))
  = Ok (2 * (c2 / 2), ((h - 1) / s + 1, (w - 1) / s + 1)) /\
  (Nat.even c2 = true -> 2 * (c2 / 2) = c2) /\
  (Nat.odd c2 = true -> 2 * (c2 / 2) = c2 - 1).
Proof.
  unfold GhostConv_init. intros Hm Hk _ Hs Hh Hw.
  destruct (Conv c1 (c2 / 2) (Int k) (Int s) None g) as [cv1|] eqn:E1; [|discriminate].
  cbn [Py.bind] in Hm.
  destruct (Conv (c2 / 2) (c2 / 2) (Int 5) (Int 1) None (c2 / 2)) as [cv2|] eqn:E2;
    [|discriminate].
  cbn [Py.bind] in Hm. injection Hm as <-.
  assert (Hc_ : 0 < c2 / 2).
  { pose proof E2 as E. apply nn_Conv2d_inv in E. lia. }
  split; [|split; [|split]].
  - destruct (Nat.lt_ge_cases c2 2) as [Hlt|]; [|assumption].
    rewrite Nat.div_small in Hc_ by assumption. lia.
  - unfold GhostConv_forward. cbn [g_cv1 g_cv2].
    rewrite (Conv_forward_odd _ _ k s g h w cv1 E1) by trivial. cbn [Py.bind].
    rewrite (Conv_forward_keeps _ _ 5 _ _ _ cv2 E2) by (trivial; lia). cbn [Py.bind].
    unfold cat. cbn [forallb snd]. rewrite same_size_refl.
    cbn [andb map fold_right fst]. reflexivity.
  - intros H. destruct (even_form c2 H) as [r ->].
    rewrite (Nat.mul_comm 2 r), Nat.div_mul by lia. lia.
  - intros H. destruct (odd_form c2 H) as [r ->].
    rewrite half_double. lia.
Qed.

Lemma GhostConv_channels_witness :
  exists m,
    GhostConv_init 16 33 (Int 1) (Int 1) 1 = Ok m /\
    GhostConv_forward m (16, (40, 40)) = Ok (2 * (33 / 2), ((40 - 1) / 1 + 1, (40 - 1) / 1 + 1)) /\
    2 * (33 / 2) = 33 - 1.
Proof.
  eexists. split; [reflexivity|].
  pose proof (GhostConv_channels 16 33 1 1 1 40 40 _ eq_refl) as H.
  destruct H as (_ & H1 & _ & H3); try lia; [reflexivity|].
  split; [exact H1 | apply H3; reflexivity].
Defined.

(** *** SPP and SPPF *)

(** What a pooling layer of [SPP] leaves of the height and the width. *)
Definition pooled_side (k n : nat) : nat := if Nat.odd k then n else n + 1.

Lemma MaxPool2d_side (k c h w : nat) :
  0 < k -> 0 < h -> 0 < w ->
  MaxPool2d k 1 (k / 2) (c, (h, w)) = Ok (c, (pooled_side k h, pooled_side k w)).
Proof.
  intros Hk Hh Hw. unfold MaxPool2d, pooled_side. cbn [fst snd].
  destruct (Nat.eqb_spec k 0) as [E|_]; [lia|].
  rewrite Nat.ltb_irrefl. cbn [orb Nat.eqb].
  destruct (Nat.odd k) eqn:Ek.
  - destruct (odd_form k Ek) as [r ->].
    rewrite !window_odd by assumption. cbn [Py.bind].
    rewrite !Nat.div_1_r. do 3 f_equal; lia.
  - assert (Hev : Nat.even k = true) by (rewrite <- Nat.negb_odd, Ek; reflexivity).
    destruct (even_form k Hev) as [r ->].
    rewrite !window_even. cbn [Py.bind]. now rewrite !Nat.div_1_r.
Qed.

Lemma sum_const (c : nat) {A : Type} (xs : list A) (hw : A -> nat * nat) :
  fold_right Nat.add 0 (map fst (map (fun a => (c, hw a)) xs)) = c * List.length xs.
Proof.
  induction xs as [|a xs IH]; simpl; [lia|]. rewrite IH. lia.
Qed.

Lemma same_size_grown (h w : nat) : same_size (h + 1, w + 1) (h, w) = false.
Proof.
  unfold same_size. cbn [fst snd].
  destruct (Nat.eqb_spec (h + 1) h); [lia|reflexivity].
Qed.

Lemma MaxPool2d_cases (k c h w : nat) :
  0 < h -> 0 < w ->
  MaxPool2d k 1 (k / 2) (c, (h, w)) = Raise RuntimeError \/
  exists y, MaxPool2d k 1 (k / 2) (c, (h, w)) = Ok y.
Proof.
  intros Hh Hw. destruct k as [|k]; [left; reflexivity|].
  right. eexists. apply MaxPool2d_side; trivial. lia.
Qed.

Lemma odd_pos (k : nat) : Nat.odd k = true -> 0 < k.
Proof. destruct k; [discriminate|lia]. Qed.

(** X19: [SPP] and [SPPF] are for odd kernels: with them every pooling layer
    keeps the height and the width, the concatenation holds the
    [c_ * (len(k) + 1)] channels ([c_ * 4] for [SPPF]) that [cv2] was built
    for, and the output is of [c2] channels and of the height and the width
    of the input.  An even kernel makes its pooling layer return one row
    and one column more, and the concatenation fails (a kernel of 0 is
    refused by the pooling layer itself). *)
Theorem SPP_odd_kernels (c1 c2 h w : nat) :
  2 <= c1 -> 0 < c2 -> 0 < h -> 0 < w ->
  (forall ks m, SPP_init c1 c2 ks = Ok m ->
     (Forall (fun k => Nat.odd k = true) ks ->
      SPP_forward m (c1, (h, w)) = Ok (c2, (h, w))) /\
     (Exists (fun k => Nat.even k = true) ks ->
      SPP_forward m (c1, (h, w)) = Raise RuntimeError)) /\
  (forall k m, SPPF_init c1 c2 k = Ok m ->
     (Nat.odd k = true -> SPPF_forward m (c1, (h, w)) = Ok (c2, (h, w))) /\
     (Nat.even k = true -> SPPF_forward m (c1, (h, w)) = Raise RuntimeError)).
Proof.
  intros Hc1 Hc2 Hh Hw.
  assert (Hc_ : 0 < c1 / 2).
  { apply Nat.div_str_pos. lia. }
  split.
  - intros ks m Hm. unfold SPP_init in Hm.
    destruct (Conv c1 (c1 / 2) (Int 1) (Int 1) None 1) as [cv1|] eqn:E1; [|discriminate].
    cbn [Py.bind] in Hm.
    destruct (Conv (c1 / 2 * (List.length ks + 1)) c2 (Int 1) (Int 1) None 1) as [cv2|] eqn:E2;
      [|discriminate].
    cbn [Py.bind] in Hm. injection Hm as <-.
    unfold SPP_forward. cbn [spp_cv1 spp_cv2 spp_m].
    rewrite (Conv_forward_keeps _ _ 1 1 h w cv1 E1) by trivial. cbn [Py.bind].
    assert (Hpos : Forall (fun k => 0 < k) ks ->
                   mapM (fun k => MaxPool2d k 1 (k / 2) (c1 / 2, (h, w))) ks
                   = Ok (map (fun k => (c1 / 2, (pooled_side k h, pooled_side k w))) ks)).
    { intros Hpos. rewrite Forall_forall in Hpos.
      apply mapM_map. intros k Hk. apply MaxPool2d_side; trivial. now apply Hpos. }
    split.
    + intros Hodd. rewrite Hpos
        by (apply Forall_impl with (2 := Hodd); intros k; apply odd_pos).
      cbn [Py.bind]. unfold cat. cbn [snd].
      match goal with
      | |- context [forallb ?f ?l] => assert (E : forallb f l = true)
      end.
      { apply forallb_forall. intros y Hy. apply in_map_iff in Hy.
        destruct Hy as (k & <- & Hk). rewrite Forall_forall in Hodd.
        unfold pooled_side. rewrite (Hodd k Hk). apply same_size_refl. }
      rewrite E. cbn [Py.bind map fst fold_right].
      rewrite (sum_const (c1 / 2) ks (fun k => (pooled_side k h, pooled_side k w))).
      replace (c1 / 2 + c1 / 2 * List.length ks) with (c1 / 2 * (List.length ks + 1)) by lia.
      now apply (Conv_forward_keeps _ _ 1 1 h w cv2 E2).
    + intros Hev. destruct (in_dec Nat.eq_dec 0 ks) as [H0|H0].
      * rewrite (mapM_raise _ RuntimeError ks); [reflexivity| |].
        -- intros k _. now apply MaxPool2d_cases.
        -- exists 0. split; [exact H0|reflexivity].
      * rewrite Hpos.
        2:{ apply Forall_forall. intros k Hk. destruct k; [contradiction|lia]. }
        cbn [Py.bind]. unfold cat. cbn [snd].
        match goal with
        | |- context [forallb ?f ?l] => assert (E : forallb f l = false)
        end.
        { apply Exists_exists in Hev. destruct Hev as (k & Hk & Hke).
          destruct (forallb _ _) eqn:F; [|reflexivity].
          rewrite forallb_forall in F.
          specialize (F _ (in_map _ _ _ Hk)). cbn [snd] in F.
          unfold pooled_side in F. rewrite <- Nat.negb_even, Hke in F. cbn [negb] in F.
          now rewrite same_size_grown in F. }
        now rewrite E.
  - intros k m Hm. unfold SPPF_init in Hm.
    destruct (Conv c1 (c1 / 2) (Int 1) (Int 1) None 1) as [cv1|] eqn:E1; [|discriminate].
    cbn [Py.bind] in Hm.
    destruct (Conv (c1 / 2 * 4) c2 (Int 1) (Int 1) None 1) as [cv2|] eqn:E2; [|discriminate].
    cbn [Py.bind] in Hm. injection Hm as <-.
    unfold SPPF_forward. cbn [sppf_cv1 sppf_cv2 sppf_m].
    rewrite (Conv_forward_keeps _ _ 1 1 h w cv1 E1) by trivial. cbn [Py.bind].
    destruct k as [|k]; [split; [discriminate|reflexivity]|].
    assert (Hk : 0 < S k) by lia. revert Hk. generalize (S k). clear k. intros k Hk.
    assert (P1 : 0 < pooled_side k h /\ 0 < pooled_side k w)
      by (unfold pooled_side; destruct (Nat.odd k); lia).
    assert (P2 : 0 < pooled_side k (pooled_side k h) /\ 0 < pooled_side k (pooled_side k w))
      by (unfold pooled_side; destruct (Nat.odd k); lia).
    rewrite MaxPool2d_side by assumption. cbn [Py.bind].
    rewrite MaxPool2d_side by (trivial; apply P1). cbn [Py.bind].
    rewrite MaxPool2d_side by (trivial; apply P2). cbn [Py.bind].
    unfold cat, pooled_side. cbn [snd forallb]. split.
    + intros Ho. rewrite Ho. rewrite !same_size_refl.
      cbn [andb Py.bind map fst fold_right].
      replace (c1 / 2 + (c1 / 2 + (c1 / 2 + (c1 / 2 + 0)))) with (c1 / 2 * 4) by lia.
      now apply (Conv_forward_keeps _ _ 1 1 h w cv2 E2).
    + intros He. rewrite <- Nat.negb_even, He. cbn [negb].
      now rewrite same_size_grown.
Qed.

Lemma SPP_odd_kernels_witness :
  (exists m, SPP_init 512 512 [5; 9; 13] = Ok m /\
             SPP_forward m (512, (20, 20)) = Ok (512, (20, 20))) /\
  (exists m, SPP_init 512 512 [5; 8; 13] = Ok m /\
             SPP_forward m (512, (20, 20)) = Raise RuntimeError) /\
  (exists m, SPPF_init 512 512 5 = Ok m /\
             SPPF_forward m (512, (20, 20)) = Ok (512, (20, 20))).
Proof.
  destruct (SPP_odd_kernels 512 512 20 20) as [Hspp Hsppf]; try lia.
  split; [|split]; eexists; (split; [reflexivity|]).
  - apply (Hspp [5; 9; 13] _ eq_refl). repeat constructor.
  - apply (Hspp [5; 8; 13] _ eq_refl). apply Exists_cons_tl, Exists_cons_hd. reflexivity.
  - apply (Hsppf 5 _ eq_refl). reflexivity.
Defined.

End BlocksFacts.

(** ** Channel attention on fewer channels than the reduction ratio *)

Module NarrowFacts.

Import Pool ListFacts PoolFacts Attention PyFacts AttentionFacts.

Lemma sigmoid_0 : sigmoid 0 = (1 / 2)%R.
Proof. unfold sigmoid. rewrite Ropp_0, exp_0. lra. Qed.

(** A layer without output features returns nothing, and a layer without
    input features returns zeros. *)
Lemma apply_no_output (i : nat) (l : Linear) (v : list R) :
  Linear_of i 0 l -> apply l v = [].
Proof.
  intros (_ & Ho & _). unfold apply.
  destruct (weight l); [reflexivity|discriminate].
Qed.

Lemma apply_no_input (o : nat) (l : Linear) :
  Linear_of 0 o l -> apply l [] = repeat 0%R o.
Proof.
  intros (_ & Ho & Hrows). unfold apply. rewrite <- Ho. clear Ho.
  induction Hrows as [|row rows Hrow _ IH]; [reflexivity|].
  cbn [map List.length repeat]. rewrite IH. f_equal.
  destruct row; [reflexivity|discriminate].
Qed.

Lemma times_const (c h w : nat) (x : tensor) (a : R) :
  batch_of R c h w x ->
  times x (map (fun _ => repeat a c) x) = map (map (fun p => scale p a)) x.
Proof.
  unfold batch_of, times. induction 1 as [|img x [Hc _] _ IH]; [reflexivity|].
  cbn [map combine fst snd]. f_equal; [|exact IH].
  clear IH. subst c. induction img as [|p img IH]; [reflexivity|].
  cbn [List.length repeat combine map fst snd]. now rewrite IH.
Qed.

Lemma halves_match (c h w : nat) (x : tensor) (a : R) :
  batch_of R c h w x -> channels_match x (map (fun _ => repeat a c) x).
Proof.
  intros Hx. apply channels_match_of with (c := c) (h := h) (w := w); trivial.
  - now rewrite length_map.
  - apply Forall_map, Forall_forall. intros img _. apply repeat_length.
Qed.

(** The two layers of a module built for [c] channels with no hidden
    feature turn the pooled rows into zeros. *)
Lemma squeezed_to_zero (c : nat) (la lb : Linear) (f : R -> R) (y : per_channel) :
  Linear_of c 0 la -> Linear_of 0 c lb ->
  Forall (fun v => List.length v = c) y ->
  exists y1,
    rows (linear la) y = Ok y1 /\
    rows (linear lb) (pointwise f y1) = Ok (map (fun _ => repeat 0%R c) y).
Proof.
  intros Ha Hb Hy.
  destruct (rows_linear_ok _ _ la _ Ha Hy) as (E1 & L1 & R1).
  destruct (pointwise_rows f _ _ R1) as [L1' R1'].
  destruct (rows_linear_ok _ _ lb _ Hb R1') as (E2 & _ & _).
  eexists. split; [exact E1|]. rewrite E2. f_equal.
  unfold pointwise. rewrite !map_map. apply map_ext. intros v.
  rewrite (apply_no_output c la v Ha). cbn [map]. now apply apply_no_input.
Qed.

(** X20: On fewer channels than the reduction ratio the hidden layer of [SE]
    has no feature ([c1 // r] is 0): whatever the weights, the gate is the
    sigmoid of 0 and each cell of the input is halved.  The same holds for
    the [SE] of the CoAtNet blocks when [int(inp * expansion)] is 0. *)
Theorem narrow_attention_halves (c h w r : nat) (x : tensor) :
  batch_of R c h w x -> 0 < h -> 0 < w -> c < r ->
  (forall m, SE_init c r m ->
             SE_forward m x = Ok (map (map (fun p => scale p (1 / 2)%R)) x)) /\
  (forall gelu m, SE_coat_init c 0 m ->
                  SE_coat_forward gelu m x = Ok (map (map (fun p => scale p (1 / 2)%R)) x)).
Proof.
  intros Hx H0h H0w Hr.
  assert (Hz : c / r = 0) by (now apply Nat.div_small).
  destruct (pooled_rows mean c h w x Hx) as [_ Rm].
  assert (Hhalf : pointwise sigmoid (map (fun _ => repeat 0%R c) x)
                  = map (fun _ => repeat (1 / 2)%R c) x).
  { unfold pointwise. rewrite map_map. apply map_ext. intros img.
    induction c as [|c' IH] in |- *; [reflexivity|].
    cbn [repeat map]. now rewrite sigmoid_0, IH. }
  pose proof (halves_match c h w x (1 / 2)%R Hx) as Hm.
  assert (Hview : view_bc (map (map mean) x) x = Ok (map (map mean) x)).
  { apply view_bc_ok. apply channels_match_of with (c := c) (h := h) (w := w); trivial.
    now rewrite length_map. }
  split.
  - intros m [H1 H2]. rewrite Hz in H1, H2.
    destruct (squeezed_to_zero c (l1 m) (l2 m) relu _ H1 H2 Rm) as (y1 & E1 & E2).
    rewrite map_map in E2.
    unfold SE_forward, avg_pool.
    rewrite (pool_ok plane_mean mean c h w x)
      by (trivial; intros p Hp; now apply (plane_mean_ok h w)).
    cbn [Py.bind]. rewrite Hview.
    cbn [Py.bind]. rewrite E1. cbn [Py.bind]. rewrite E2. cbn [Py.bind].
    rewrite Hhalf.
    rewrite view_bc_ok by assumption. cbn [Py.bind].
    rewrite expand_as_ok by assumption. cbn [Py.bind].
    rewrite mul_ok by assumption. now rewrite (times_const c h w).
  - intros gelu m [H1 H2].
    destruct (squeezed_to_zero c (fc1 m) (fc2 m) gelu _ H1 H2 Rm) as (y1 & E1 & E2).
    rewrite map_map in E2.
    unfold SE_coat_forward, avg_pool.
    rewrite (pool_ok plane_mean mean c h w x)
      by (trivial; intros p Hp; now apply (plane_mean_ok h w)).
    cbn [Py.bind]. rewrite Hview.
    cbn [Py.bind]. rewrite E1. cbn [Py.bind]. rewrite E2. cbn [Py.bind].
    rewrite Hhalf.
    rewrite view_bc_ok by assumption. cbn [Py.bind].
    rewrite mul_ok by assumption. now rewrite (times_const c h w).
Qed.

(** An [SE] block for two channels at the default ratio of 16. *)
Definition narrow_SE : SE := MkSE (MkLinear 2 []) (MkLinear 0 [[]; []]).

Lemma narrow_attention_halves_witness :
  batch_of R 2 1 2 sample /\ SE_init 2 16 narrow_SE /\
  SE_forward narrow_SE sample = Ok (map (map (fun p => scale p (1 / 2)%R)) sample).
Proof.
  assert (Hx : batch_of R 2 1 2 sample) by (repeat constructor).
  assert (Hm : SE_init 2 16 narrow_SE) by (repeat constructor).
  split; [exact Hx|]. split; [exact Hm|].
  apply (narrow_attention_halves 2 1 2 16 sample Hx); [lia | lia | lia | exact Hm].
Defined.

End NarrowFacts.

(** ** CoAtNet: what is built and what the head returns *)

Module CoAtRunFacts.

Import ListMore CoAt CoAtFacts CoAtRun.
Local Open Scope py_scope.

(** The five stages of a network of the default block types, on sides
    that are multiples of 32. *)
Lemma stages_default (a b in_channels num_classes n0 n1 n2 n3 n4 c0 c1 c2 c3 c4 : nat) :
  0 < a -> 0 < b ->
  0 < n0 -> 0 < n1 -> 0 < n2 -> 0 < n3 -> 0 < n4 ->
  exists net,
    init (32 * a, 32 * b) in_channels [n0; n1; n2; n3; n4] [c0; c1; c2; c3; c4]
         num_classes default_block_types = Ok net /\
    stages net (in_channels, (32 * a, 32 * b)) = Ok (c4, (a, b)) /\
    pool net = a /\ fc net = (c4, num_classes).
Proof.
  intros Ha Hb H0 H1 H2 H3 H4.
  eexists. split; [reflexivity|].
  cbn [s0 s1 s2 s3 s4 pool fc].
  split; [|split; [rewrite Nat.mul_comm; apply Nat.div_mul; lia|reflexivity]].
  unfold stages. cbn [s0 s1 s2 s3 s4].
  destruct n0 as [|d0]; [lia|]. destruct n1 as [|d1]; [lia|].
  destruct n2 as [|d2]; [lia|]. destruct n3 as [|d3]; [lia|].
  destruct n4 as [|d4]; [lia|].
  replace (32 * a / 16) with (2 * a) by (apply Nat.div_unique_exact; lia).
  replace (32 * b / 16) with (2 * b) by (apply Nat.div_unique_exact; lia).
  replace (32 * a / 32) with a by (apply Nat.div_unique_exact; lia).
  replace (32 * b / 32) with b by (apply Nat.div_unique_exact; lia).
  replace (32 * a) with (2 * (16 * a)) by lia.
  replace (32 * b) with (2 * (16 * b)) by lia.
  rewrite stage_conv by lia. cbn [Py.bind].
  replace (16 * a) with (2 * (8 * a)) by lia.
  replace (16 * b) with (2 * (8 * b)) by lia.
  rewrite stage_mbconv by lia. cbn [Py.bind].
  replace (8 * a) with (2 * (4 * a)) by lia.
  replace (8 * b) with (2 * (4 * b)) by lia.
  rewrite stage_mbconv by lia. cbn [Py.bind].
  replace (4 * a) with (2 * (2 * a)) by lia.
  replace (4 * b) with (2 * (2 * b)) by lia.
  rewrite stage_transformer by lia. cbn [Py.bind].
  now rewrite stage_transformer by lia.
Qed.

Lemma window_pool (n k : nat) : k <= n -> window_out n k 1 0 = Ok (n - k + 1).
Proof.
  intros H. unfold window_out.
  destruct (Nat.ltb_spec (n + 2 * 0) k) as [K|_]; [lia|].
  rewrite Nat.div_1_r. do 2 f_equal. lia.
Qed.

Lemma window_pool_small (n k : nat) : n < k -> window_out n k 1 0 = Raise RuntimeError.
Proof.
  intros H. unfold window_out.
  destruct (Nat.ltb_spec (n + 2 * 0) k) as [_|K]; [reflexivity|lia].
Qed.

(** X21: The head of [CoAtNet] pools with a square window of the height of the
    last feature map: for the default block types, stages of at least one
    block and of at least one channel, on a square image of sides [32 * a]
    a batch of [n] images gives [n] rows of [num_classes] logits.  On an image that is
    wider than high the window fits [b - a + 1] times and the batch gives
    [n * (b - a + 1)] rows; on one that is higher than wide it does not fit
    and [forward] raises. *)
Theorem coatnet_head (a b in_channels num_classes n0 n1 n2 n3 n4 c0 c1 c2 c3 c4 n : nat) :
  0 < a -> 0 < b ->
  0 < in_channels -> 0 < c0 -> 0 < c1 -> 0 < c2 -> 0 < c3 -> 0 < c4 ->
  0 < n0 -> 0 < n1 -> 0 < n2 -> 0 < n3 -> 0 < n4 ->
  exists net,
    init (32 * a, 32 * b) in_channels [n0; n1; n2; n3; n4] [c0; c1; c2; c3; c4]
         num_classes default_block_types = Ok net /\
    (a = b -> forward net n (in_channels, (32 * a, 32 * b)) = Ok (n, num_classes)) /\
    (a <= b -> forward net n (in_channels, (32 * a, 32 * b))
               = Ok (n * (b - a + 1), num_classes)) /\
    (b < a -> forward net n (in_channels, (32 * a, 32 * b)) = Raise RuntimeError).
Proof.
  intros Ha Hb _ _ _ _ _ Hc H0 H1 H2 H3 H4.
  destruct (stages_default a b in_channels num_classes n0 n1 n2 n3 n4 c0 c1 c2 c3 c4
              Ha Hb H0 H1 H2 H3 H4) as (net & Hnet & Hst & Hp & Hfc).
  exists net. split; [exact Hnet|].
  assert (Hwide : a <= b -> forward net n (in_channels, (32 * a, 32 * b))
                            = Ok (n * (b - a + 1), num_classes)).
  { intros Hab. unfold forward. rewrite Hst, Hp, Hfc. cbn [Py.bind fst snd].
    rewrite !window_pool by lia. cbn [Py.bind].
    destruct (Nat.eqb_spec c4 0) as [E|_]; [lia|]. rewrite Nat.eqb_refl.
    do 2 f_equal. replace (a - a + 1) with 1 by lia.
    replace (n * c4 * 1 * (b - a + 1)) with (n * (b - a + 1) * c4) by lia.
    apply Nat.div_mul. lia. }
  split; [|split; [exact Hwide|]].
  - intros E. rewrite Hwide by lia. do 2 f_equal. subst b.
    replace (a - a + 1) with 1 by lia. lia.
  - intros Hab. unfold forward. rewrite Hst, Hp. cbn [Py.bind].
    rewrite window_pool by lia. cbn [Py.bind].
    now rewrite window_pool_small by lia.
Qed.

Lemma coatnet_head_witness :
  exists net,
    init (32 * 7, 32 * 7) 3 [2; 2; 3; 5; 2] [64; 96; 192; 384; 768]
         1000 default_block_types = Ok net /\
    (7 = 7 -> forward net 16 (3, (32 * 7, 32 * 7)) = Ok (16, 1000)) /\
    (7 <= 7 -> forward net 16 (3, (32 * 7, 32 * 7)) = Ok (16 * (7 - 7 + 1), 1000)) /\
    (7 < 7 -> forward net 16 (3, (32 * 7, 32 * 7)) = Raise RuntimeError).
Proof.
  apply (coatnet_head 7 7 3 1000 2 2 3 5 2 64 96 192 384 768 16); lia.
Defined.

(** X22: The five sizes of the network are built, each with the numbers of
    blocks of its definition, and give a row of 1000 logits for each image
    of 224 by 224 pixels and 3 channels. *)
Theorem coatnet_sizes (n : nat) :
  Forall2 (fun mk blocks =>
             exists net, mk = Ok net /\
                         map (@List.length layer) [s0 net; s1 net; s2 net; s3 net; s4 net]
                         = blocks /\
                         forward net n (3, (224, 224)) = Ok (n, 1000))
          [coatnet_0; coatnet_1; coatnet_2; coatnet_3; coatnet_4]
          [[2; 2; 3; 5; 2]; [2; 2; 6; 14; 2]; [2; 2; 6; 14; 2]; [2; 2; 6; 14; 2];
           [2; 2; 12; 28; 2]].
Proof.
  assert (H : forall n0 n1 n2 n3 n4 c0 c1 c2 c3 c4,
             0 < c4 -> 0 < n0 -> 0 < n1 -> 0 < n2 -> 0 < n3 -> 0 < n4 ->
             exists net,
               init (224, 224) 3 [n0; n1; n2; n3; n4] [c0; c1; c2; c3; c4] 1000
                    default_block_types = Ok net /\
               map (@List.length layer) [s0 net; s1 net; s2 net; s3 net; s4 net]
               = [n0; n1; n2; n3; n4] /\
               forward net n (3, (224, 224)) = Ok (n, 1000)).
  { intros n0 n1 n2 n3 n4 c0 c1 c2 c3 c4 Hc H0 H1 H2 H3 H4.
    destruct (stages_default 7 7 3 1000 n0 n1 n2 n3 n4 c0 c1 c2 c3 c4)
      as (net & Hnet & Hst & Hp & Hfc); try lia.
    change (32 * 7) with 224 in Hnet, Hst.
    exists net. split; [exact Hnet|]. split.
    - injection Hnet as <-. cbn [s0 s1 s2 s3 s4 map]. now rewrite !make_layer_length.
    - unfold forward. rewrite Hst, Hp, Hfc. cbn [Py.bind fst snd].
      rewrite !window_pool by lia. cbn [Py.bind].
      destruct (Nat.eqb_spec c4 0) as [E|_]; [lia|]. rewrite Nat.eqb_refl.
      do 2 f_equal. replace (n * c4 * (7 - 7 + 1) * (7 - 7 + 1)) with (n * c4) by (simpl; lia).
      apply Nat.div_mul. lia. }
  repeat constructor; apply H; lia.
Qed.

(** *** CoAtBlock *)

Lemma CoAtBlock_layers (inp oup depth image_size : nat) (b : block) :
  map (fun i => if i =? 0 then Layer b inp oup (image_size, image_size) true
                else Layer b oup oup (image_size, image_size) false)
      (seq 0 depth)
  = _make_layer b inp oup depth (image_size, image_size).
Proof. reflexivity. Qed.

(** X23: A [CoAtBlock] of at least one layer and of at least one channel on
    either side halves the height and the width and gives [oup] channels:
    for the convolution ([block=None]) and for
    ['C'] on every input of even sides, for ['T'] on the inputs of twice its
    [image_size] and on no other input of even sides.  Another [block]
    raises [RuntimeError] in the constructor. *)
Theorem CoAtBlock_halves (inp oup d image_size h w : nat) :
  0 < inp -> 0 < oup -> 0 < h -> 0 < w ->
  (forall block, block = None \/ block = Some "C"%string ->
     exists ls, CoAtBlock_init inp oup (S d) image_size block = Ok ls /\
                List.length ls = S d /\
                CoAtBlock_forward ls (inp, (2 * h, 2 * w)) = Ok (oup, (h, w))) /\
  (exists ls, CoAtBlock_init inp oup (S d) image_size (Some "T"%string) = Ok ls /\
              List.length ls = S d /\
              (h = image_size -> w = image_size ->
               CoAtBlock_forward ls (inp, (2 * h, 2 * w)) = Ok (oup, (h, w))) /\
              (h <> image_size \/ w <> image_size ->
               CoAtBlock_forward ls (inp, (2 * h, 2 * w)) = Raise RuntimeError)) /\
  (forall k depth, k <> "C"%string -> k <> "T"%string ->
     CoAtBlock_init inp oup depth image_size (Some k) = Raise RuntimeError).
Proof.
  intros _ _ Hh Hw. split; [|split].
  - intros block [-> | ->]; eexists; (split; [reflexivity|]);
      rewrite CoAtBlock_layers, make_layer_length; (split; [reflexivity|]);
      unfold CoAtBlock_forward.
    + now apply stage_conv.
    + now apply stage_mbconv.
  - eexists. split; [reflexivity|].
    rewrite CoAtBlock_layers, make_layer_length. split; [reflexivity|].
    unfold CoAtBlock_forward. split.
    + intros -> ->. now apply stage_transformer.
    + intros Hne. unfold _make_layer. cbn [seq map sequential Nat.eqb].
      unfold layer_out at 1. cbn [l_inp l_oup l_block l_downsample l_image_size].
      rewrite Nat.eqb_refl. cbn [negb].
      rewrite window2_down3 by assumption. cbn [Py.bind].
      replace (same_size (h, w) (image_size, image_size)) with false; [reflexivity|].
      symmetry. unfold same_size. cbn [fst snd].
      destruct (Nat.eqb_spec h image_size), (Nat.eqb_spec w image_size);
        try reflexivity. lia.
  - intros k depth HC HT. unfold CoAtBlock_init.
    apply String.eqb_neq in HC, HT. now rewrite HC, HT.
Qed.

Lemma CoAtBlock_halves_witness :
  exists ls, CoAtBlock_init 96 192 (S 2) 14 (Some "T"%string) = Ok ls /\
             List.length ls = S 2 /\
             (14 = 14 -> 14 = 14 ->
              CoAtBlock_forward ls (96, (2 * 14, 2 * 14)) = Ok (192, (14, 14))) /\
             (14 <> 14 \/ 14 <> 14 ->
              CoAtBlock_forward ls (96, (2 * 14, 2 * 14)) = Raise RuntimeError).
Proof. apply (CoAtBlock_halves 96 192 2 14 14 14); lia. Defined.

(** *** What CoAtNet.__init__ refuses *)

Definition C_or_T (k : string) : Prop := k = "C"%string \/ k = "T"%string.

Lemma block_of_ok (k : string) : C_or_T k <-> exists b, block_of k = Ok b.
Proof.
  unfold block_of. split.
  - intros [-> | ->]; eexists; reflexivity.
  - intros [b H].
    destruct (String.eqb_spec k "C"); [now left|].
    destruct (String.eqb_spec k "T"); [now right|discriminate].
Qed.

Lemma block_of_raises (k : string) : ~ C_or_T k -> block_of k = Raise KeyError.
Proof.
  intros H. unfold block_of.
  destruct (String.eqb_spec k "C") as [->|_]; [exfalso; apply H; now left|].
  destruct (String.eqb_spec k "T") as [->|_]; [exfalso; apply H; now right|].
  reflexivity.
Qed.

(** X24: For an image of 32 pixels or more a side and numbers of channels
    that are all positive, [CoAtNet] is built exactly from five numbers of
    blocks (or more), five numbers of channels (or more) and four block
    types that are each ['C'] or ['T']; with lists of these lengths a block
    type that is neither raises [KeyError]. *)
Theorem coatnet_init_accepts (image_size : nat * nat) (in_channels num_classes : nat)
    (num_blocks channels : list nat) (block_types : list string) :
  32 <= fst image_size -> 32 <= snd image_size ->
  0 < in_channels -> Forall (fun c => 0 < c) channels ->
  ((exists net, init image_size in_channels num_blocks channels num_classes block_types
                = Ok net)
   <-> 5 <= List.length num_blocks /\ 5 <= List.length channels /\
       4 <= List.length block_types /\ Forall C_or_T (firstn 4 block_types)) /\
  (5 <= List.length num_blocks -> 5 <= List.length channels ->
   4 <= List.length block_types -> ~ Forall C_or_T (firstn 4 block_types) ->
   init image_size in_channels num_blocks channels num_classes block_types
   = Raise KeyError).
Proof.
  intros _ _ _ _. destruct image_size as [ih iw]. split; [split|].
  - intros [net H]. unfold init in H.
    repeat match type of H with
           | Py.bind (item ?l ?i) _ = _ =>
               let E := fresh "E" in
               destruct (item l i) eqn:E; [|discriminate];
               pose proof (item_ok_lt _ _ _ E);
               cbn [Py.bind] in H
           | Py.bind (block_of ?k) _ = _ =>
               let E := fresh "B" in
               destruct (block_of k) eqn:E; [|discriminate];
               cbn [Py.bind] in H
           end.
    repeat split; try lia.
    destruct block_types as [|t0 [|t1 [|t2 [|t3 rest]]]]; simpl in *; try lia.
    unfold item in *. cbn [nth_error] in *.
    repeat match goal with
           | E : Ok _ = Ok _ |- _ => injection E as <-
           end.
    repeat (apply Forall_cons; [apply block_of_ok; eexists; eassumption|]). apply Forall_nil.
  - intros (Hn & Hc & Ht & Hk).
    destruct num_blocks as [|n0 [|n1 [|n2 [|n3 [|n4 nr]]]]]; simpl in Hn; try lia.
    destruct channels as [|c0 [|c1 [|c2 [|c3 [|c4 cr]]]]]; simpl in Hc; try lia.
    destruct block_types as [|t0 [|t1 [|t2 [|t3 tr]]]]; simpl in Ht; try lia.
    cbn [firstn] in Hk.
    inversion Hk as [|? ? K0 Hk1]; subst. inversion Hk1 as [|? ? K1 Hk2]; subst.
    inversion Hk2 as [|? ? K2 Hk3]; subst. inversion Hk3 as [|? ? K3 _]; subst.
    apply block_of_ok in K0, K1, K2, K3.
    destruct K0 as [b0 K0], K1 as [b1 K1], K2 as [b2 K2], K3 as [b3 K3].
    unfold init, item. cbn [nth_error Py.bind].
    rewrite K0. cbn [Py.bind]. rewrite K1. cbn [Py.bind].
    rewrite K2. cbn [Py.bind]. rewrite K3. cbn [Py.bind].
    eexists. reflexivity.
  - intros Hn Hc Ht Hk.
    destruct num_blocks as [|n0 [|n1 [|n2 [|n3 [|n4 nr]]]]]; simpl in Hn; try lia.
    destruct channels as [|c0 [|c1 [|c2 [|c3 [|c4 cr]]]]]; simpl in Hc; try lia.
    destruct block_types as [|t0 [|t1 [|t2 [|t3 tr]]]]; simpl in Ht; try lia.
    cbn [firstn] in Hk.
    unfold init, item. cbn [nth_error Py.bind].
    destruct (block_of t0) as [b0|e0] eqn:K0;
      [|unfold block_of in K0; destruct (t0 =? "C")%string; [discriminate|];
        destruct (t0 =? "T")%string; [discriminate|]; now injection K0 as <-].
    cbn [Py.bind].
    destruct (block_of t1) as [b1|e1] eqn:K1;
      [|unfold block_of in K1; destruct (t1 =? "C")%string; [discriminate|];
        destruct (t1 =? "T")%string; [discriminate|]; now injection K1 as <-].
    cbn [Py.bind].
    destruct (block_of t2) as [b2|e2] eqn:K2;
      [|unfold block_of in K2; destruct (t2 =? "C")%string; [discriminate|];
        destruct (t2 =? "T")%string; [discriminate|]; now injection K2 as <-].
    cbn [Py.bind].
    destruct (block_of t3) as [b3|e3] eqn:K3;
      [|unfold block_of in K3; destruct (t3 =? "C")%string; [discriminate|];
        destruct (t3 =? "T")%string; [discriminate|]; now injection K3 as <-].
    exfalso. apply Hk.
    repeat (apply Forall_cons; [apply block_of_ok; eexists; eassumption|]). apply Forall_nil.
Qed.

Lemma coatnet_init_accepts_witness :
  (exists net, init (224, 224) 3 [2; 2; 3; 5; 2] [64; 96; 192; 384; 768] 1000
                    ["C"; "T"; "C"; "T"]%string = Ok net) /\
  init (224, 224) 3 [2; 2; 3; 5; 2] [64; 96; 192; 384; 768] 1000 ["C"; "C"; "t"; "T"]%string
  = Raise KeyError.
Proof.
  assert (Hc : Forall (fun c => 0 < c) [64; 96; 192; 384; 768]) by (repeat constructor).
  split.
  - apply (coatnet_init_accepts (224, 224) 3 1000 [2; 2; 3; 5; 2] [64; 96; 192; 384; 768]
             ["C"; "T"; "C"; "T"]%string); simpl; try lia; trivial.
    repeat split; try lia.
    repeat (apply Forall_cons; [unfold C_or_T; auto|]). apply Forall_nil.
  - apply (coatnet_init_accepts (224, 224) 3 1000 [2; 2; 3; 5; 2] [64; 96; 192; 384; 768]
             ["C"; "C"; "t"; "T"]%string); simpl; try lia; trivial.
    intros H. inversion H as [|? ? _ H1]; subst. inversion H1 as [|? ? _ H2]; subst.
    inversion H2 as [|? ? K _]; subst. destruct K; discriminate.
Defined.

End CoAtRunFacts.

(** ** Focus is space to depth *)

Module FocusFacts.

Import Pool ListFacts ListMore PoolFacts Focus.
Local Open Scope py_scope.

Lemma every_other_length {B : Type} (l : list B) :
  List.length (every_other l) = (List.length l + 1) / 2.
Proof.
  induction l as [|a|a b l IH] using pairs_ind; [reflexivity|reflexivity|].
  cbn [every_other List.length]. rewrite IH.
  replace (S (S (List.length l)) + 1) with (List.length l + 1 + 1 * 2) by lia.
  rewrite Nat.div_add by lia. lia.
Qed.

Lemma every_other_nth {B : Type} (l : list B) (i : nat) (d : B) :
  nth i (every_other l) d = nth (2 * i) l d.
Proof.
  revert i. induction l as [|a|a b l IH] using pairs_ind; intros i.
  - now destruct i.
  - destruct i as [|i]; [reflexivity|]. cbn [every_other].
    replace (2 * S i) with (S (S (2 * i))) by lia. cbn [nth]. now destruct i.
  - destruct i as [|i]; [reflexivity|].
    replace (2 * S i) with (S (S (2 * i))) by lia. cbn [every_other nth]. apply IH.
Qed.

Lemma every_other_Forall {B : Type} (P : B -> Prop) (l : list B) :
  Forall P l -> Forall P (every_other l).
Proof.
  induction l as [|a|a b l IH] using pairs_ind; intros H.
  - constructor.
  - exact H.
  - inversion H as [|? ? Ha H']; subst. inversion H' as [|? ? _ H'']; subst.
    cbn [every_other]. constructor; [exact Ha|now apply IH].
Qed.

Lemma slice2_length {B : Type} (s : nat) (l : list B) :
  List.length (slice2 s l) = (List.length l - s + 1) / 2.
Proof. unfold slice2. now rewrite every_other_length, length_skipn. Qed.

Lemma slice2_nth {B : Type} (s : nat) (l : list B) (i : nat) (d : B) :
  nth i (slice2 s l) d = nth (2 * i + s) l d.
Proof.
  unfold slice2. rewrite every_other_nth, nth_skipn. f_equal. lia.
Qed.

Lemma every_other_nth_error {B : Type} (l : list B) (i : nat) :
  nth_error (every_other l) i = nth_error l (2 * i).
Proof.
  revert i. induction l as [|a|a b l IH] using pairs_ind; intros i.
  - now destruct i.
  - destruct i as [|i]; [reflexivity|]. cbn [every_other].
    replace (2 * S i) with (S (S (2 * i))) by lia. cbn [nth_error]. now destruct i.
  - destruct i as [|i]; [reflexivity|].
    replace (2 * S i) with (S (S (2 * i))) by lia. cbn [every_other nth_error]. apply IH.
Qed.

Lemma slice2_nth_error {B : Type} (s : nat) (l : list B) (i : nat) :
  nth_error (slice2 s l) i = nth_error l (2 * i + s).
Proof.
  unfold slice2. rewrite every_other_nth_error, nth_error_skipn. f_equal. lia.
Qed.

Lemma slice2_Forall {B : Type} (P : B -> Prop) (s : nat) (l : list B) :
  Forall P l -> Forall P (slice2 s l).
Proof.
  intros H. unfold slice2. apply every_other_Forall.
  rewrite <- (firstn_skipn s l) in H. apply Forall_app in H. apply H.
Qed.

Section Focus.

Variable A : Type.

(** The cell at row [i] and column [j] of channel [ch] of image [n]. *)
Definition at4 (x : tensor4 A) (n ch i j : nat) : option A :=
  cell (nth ch (nth n x []) []) i j.

Lemma sub_rect (a b h w : nat) (p : plane A) :
  rect A h w p ->
  rect A ((h - a + 1) / 2) ((w - b + 1) / 2) (map (slice2 b) (slice2 a p)).
Proof.
  intros [Hh Hw]. split.
  - now rewrite length_map, slice2_length, Hh.
  - apply Forall_map. apply slice2_Forall. apply Forall_impl with (2 := Hw).
    intros row Hrow. now rewrite slice2_length, Hrow.
Qed.

Lemma sub_batch (a b c h w : nat) (x : tensor4 A) :
  batch_of A c h w x ->
  batch_of A c ((h - a + 1) / 2) ((w - b + 1) / 2) (sub a b x).
Proof.
  unfold batch_of, sub. intros H. apply Forall_map.
  apply Forall_impl with (2 := H). intros img [Hc Hp]. split.
  - now rewrite length_map.
  - apply Forall_map. apply Forall_impl with (2 := Hp). intros p. apply sub_rect.
Qed.

Lemma sub_cell (a b : nat) (x : tensor4 A) (n ch i j : nat) :
  at4 (sub a b x) n ch i j = at4 x n ch (2 * i + a) (2 * j + b).
Proof.
  unfold at4, sub, cell, plane.
  rewrite (nth_map_default (map (fun p : list (list A) => map (slice2 b) (slice2 a p)))
                           x n [] []) by reflexivity.
  rewrite (nth_map_default (fun p : list (list A) => map (slice2 b) (slice2 a p))
                           _ ch [] [])
    by (unfold slice2; now rewrite skipn_nil).
  rewrite (nth_map_default (slice2 b) _ i [] [])
    by (unfold slice2; now rewrite skipn_nil).
  now rewrite slice2_nth, slice2_nth_error.
Qed.

Lemma half_side (n a : nat) : a < 2 -> (2 * n - a + 1) / 2 = n.
Proof.
  intros Ha. destruct a as [|[|a]]; [| |lia].
  - replace (2 * n - 0 + 1) with (1 + n * 2) by lia. now rewrite Nat.div_add by lia.
  - destruct n as [|n]; [reflexivity|].
    replace (2 * S n - 1 + 1) with (S n * 2) by lia. now rewrite Nat.div_mul by lia.
Qed.

(** The sizes of a batch of a known shape with at least one image, one
    channel and one row. *)
Lemma sizes_of (c h w : nat) (x : tensor4 A) :
  batch_of A c h w x -> x <> [] -> 0 < c -> 0 < h ->
  sizes x = (List.length x, (h, w)).
Proof.
  intros Hx Hne Hc Hh. unfold sizes.
  destruct x as [|img x]; [congruence|].
  inversion Hx as [|? ? [Himg Hp] _]; subst.
  destruct img as [|p img]; [simpl in Hc; lia|].
  inversion Hp as [|? ? Hr _]; subst. cbn [hd].
  destruct Hr as [Hl Hrows]. rewrite Hl.
  destruct p as [|row p]; [simpl in Hl; lia|].
  inversion Hrows; subst. reflexivity.
Qed.

(** Batches of one shape and one length have the same sizes. *)
Lemma sizes_same (c h w : nat) (x y : tensor4 A) :
  batch_of A c h w x -> batch_of A c h w y -> List.length x = List.length y ->
  sizes x = sizes y.
Proof.
  intros Hx Hy Hl. unfold sizes. rewrite Hl. f_equal.
  destruct x as [|img x], y as [|img' y]; try discriminate; [reflexivity|].
  inversion Hx as [|? ? [Hc Hp] _]; subst.
  inversion Hy as [|? ? [Hc' Hp'] _]; subst. cbn [hd].
  destruct img as [|p img], img' as [|p' img']; try discriminate; [reflexivity|].
  inversion Hp as [|? ? [Hh Hr] _]; subst.
  inversion Hp' as [|? ? [Hh' Hr'] _]; subst. cbn [hd].
  rewrite Hh'. f_equal.
  destruct p as [|row p], p' as [|row' p']; try discriminate; [reflexivity|].
  inversion Hr; subst. inversion Hr'; subst. cbn [hd]. congruence.
Qed.

Lemma sizes_eqb_refl (s : nat * (nat * nat)) : sizes_eqb s s = true.
Proof. unfold sizes_eqb. now rewrite !Nat.eqb_refl. Qed.

Lemma nth_blocks {B : Type} (c g ch : nat) (l0 l1 l2 l3 : list B) (d : B) :
  List.length l0 = c -> List.length l1 = c -> List.length l2 = c -> List.length l3 = c ->
  g < 4 -> ch < c ->
  nth (g * c + ch) (l0 ++ l1 ++ l2 ++ l3 ++ []) d = nth ch (nth g [l0; l1; l2; l3] []) d.
Proof.
  intros H0 H1 H2 H3 Hg Hch.
  destruct g as [|[|[|[|g]]]]; try lia; cbn [nth].
  - rewrite app_nth1 by lia. f_equal.
  - replace (1 * c + ch) with (List.length l0 + ch) by lia.
    rewrite app_nth2_plus. now rewrite app_nth1 by lia.
  - replace (2 * c + ch) with (List.length l0 + (List.length l1 + ch)) by lia.
    rewrite !app_nth2_plus. now rewrite app_nth1 by lia.
  - replace (3 * c + ch) with (List.length l0 + (List.length l1 + (List.length l2 + ch)))
      by lia.
    rewrite !app_nth2_plus. now rewrite app_nth1 by lia.
Qed.

Variable conv : tensor4 A -> result (tensor4 A).

(** X25: On a batch of even height and width [Focus] hands to its convolution
    a batch of four times the channels and half the height and the width:
    channel [g * c + ch] of it, for [g] from 0 to 3, holds at row [i] and
    column [j] the cell of channel [ch] of the input at row [2 * i + g % 2]
    and column [2 * j + g // 2].  Each cell of the input is so kept, once. *)
Theorem focus_space_to_depth (c h w : nat) (x : tensor4 A) :
  batch_of A c (2 * h) (2 * w) x ->
  exists y,
    cat [sub 0 0 x; sub 1 0 x; sub 0 1 x; sub 1 1 x] = Ok y /\
    Focus_forward conv x = conv y /\
    batch_of A (4 * c) h w y /\
    List.length y = List.length x /\
    forall n g ch i j,
      n < List.length x -> g < 4 -> ch < c ->
      at4 y n (g * c + ch) i j = at4 x n ch (2 * i + g mod 2) (2 * j + g / 2).
Proof.
  intros Hx.
  assert (Hsub : forall a b, a < 2 -> b < 2 -> batch_of A c h w (sub a b x)).
  { intros a b Ha Hb. pose proof (sub_batch a b c (2 * h) (2 * w) x Hx) as H.
    rewrite !half_side in H by assumption. exact H. }
  assert (Hlen : forall a b, List.length (sub a b x) = List.length x)
    by (intros a b; unfold sub; apply length_map).
  assert (Hsz : forall a b, a < 2 -> b < 2 -> sizes (sub a b x) = sizes (sub 0 0 x)).
  { intros a b Ha Hb. apply (sizes_same c h w); try apply Hsub; try lia.
    now rewrite !Hlen. }
  exists (cat1 [sub 0 0 x; sub 1 0 x; sub 0 1 x; sub 1 1 x]).
  assert (Hcat : cat [sub 0 0 x; sub 1 0 x; sub 0 1 x; sub 1 1 x]
                 = Ok (cat1 [sub 0 0 x; sub 1 0 x; sub 0 1 x; sub 1 1 x])).
  { unfold cat. cbn [forallb]. rewrite (Hsz 1 0), (Hsz 0 1), (Hsz 1 1) by lia.
    now rewrite !sizes_eqb_refl. }
  assert (Himg : forall n, n < List.length x ->
            nth n (cat1 [sub 0 0 x; sub 1 0 x; sub 0 1 x; sub 1 1 x]) []
            = (nth n (sub 0 0 x) [] ++ nth n (sub 1 0 x) [] ++ nth n (sub 0 1 x) []
               ++ nth n (sub 1 1 x) [] ++ [])%list).
  { intros n Hn. unfold cat1. rewrite Hlen. now rewrite nth_map_seq by assumption. }
  assert (Hch : forall a b n, a < 2 -> b < 2 -> n < List.length x ->
            List.length (nth n (sub a b x) []) = c /\
            Forall (rect A h w) (nth n (sub a b x) [])).
  { intros a b n Ha Hb Hn. specialize (Hsub a b Ha Hb). unfold batch_of in Hsub.
    rewrite Forall_forall in Hsub. apply Hsub, nth_In. now rewrite Hlen. }
  split; [exact Hcat|]. split; [unfold Focus_forward; now rewrite Hcat|].
  split; [|split].
  - unfold batch_of. apply Forall_forall. intros img Hin.
    apply In_nth with (d := []) in Hin. destruct Hin as (n & Hn & <-).
    unfold cat1 in Hn. rewrite length_map, length_seq, Hlen in Hn.
    rewrite Himg by assumption.
    destruct (Hch 0 0 n) as [L0 F0]; try lia. destruct (Hch 1 0 n) as [L1 F1]; try lia.
    destruct (Hch 0 1 n) as [L2 F2]; try lia. destruct (Hch 1 1 n) as [L3 F3]; try lia.
    split.
    + rewrite !length_app, L0, L1, L2, L3. simpl. lia.
    + repeat (apply Forall_app; split; trivial).
  - unfold cat1. now rewrite length_map, length_seq, Hlen.
  - intros n g ch i j Hn Hg Hc.
    unfold at4 at 1. rewrite Himg by assumption.
    rewrite (nth_blocks c g ch) by (trivial; apply Hch; lia).
    destruct g as [|[|[|[|g]]]]; try lia; cbn [nth];
      fold (at4 (sub 0 0 x) n ch i j); fold (at4 (sub 1 0 x) n ch i j);
      fold (at4 (sub 0 1 x) n ch i j); fold (at4 (sub 1 1 x) n ch i j);
      rewrite sub_cell; reflexivity.
Qed.

(** X26: On a batch of odd height or of odd width the four slices of [Focus]
    are not of one shape and their concatenation fails: [forward] raises
    before it reaches the convolution. *)
Theorem focus_odd_refused (c h w : nat) (x : tensor4 A) :
  batch_of A c h w x -> x <> [] -> 0 < c -> 0 < h -> 0 < w ->
  Nat.odd h = true \/ Nat.odd w = true ->
  Focus_forward conv x = Raise RuntimeError.
Proof.
  intros Hx Hne Hc Hh Hw Hodd.
  assert (Hlen : forall a b, List.length (sub a b x) = List.length x)
    by (intros a b; unfold sub; apply length_map).
  assert (Hnes : forall a b, sub a b x <> []).
  { intros a b E. apply (f_equal (@List.length _)) in E. rewrite Hlen in E.
    destruct x; [congruence|discriminate]. }
  assert (H00 : sizes (sub 0 0 x) = (List.length x, ((h + 1) / 2, (w + 1) / 2))).
  { pose proof (sub_batch 0 0 c h w x Hx) as Hb.
    rewrite !Nat.sub_0_r in Hb.
    rewrite (sizes_of c _ _ _ Hb (Hnes 0 0) Hc), Hlen; [reflexivity|].
    apply Nat.div_str_pos. lia. }
  unfold Focus_forward, cat. cbn [forallb].
  replace (sizes_eqb (sizes (sub 1 0 x)) (sizes (sub 0 0 x))
           && (sizes_eqb (sizes (sub 0 1 x)) (sizes (sub 0 0 x))
               && (sizes_eqb (sizes (sub 1 1 x)) (sizes (sub 0 0 x)) && true)))
    with false; [reflexivity|].
  symmetry. destruct (Nat.odd h) eqn:Eh.
  - (* the rows from row 1 on are one fewer *)
    apply andb_false_iff. left.
    apply Nat.odd_spec in Eh. destruct Eh as [r ->].
    unfold sizes_eqb. rewrite H00. unfold sizes at 1. cbn [fst snd].
    rewrite Hlen, Nat.eqb_refl. cbn [andb].
    apply andb_false_iff. left. apply Nat.eqb_neq.
    destruct x as [|img x']; [congruence|].
    inversion Hx as [|? ? [Himg Hp] _]; subst.
    destruct img as [|p img]; [simpl in Hc; lia|].
    inversion Hp as [|? ? [Hl _] _]; subst.
    cbn [sub map hd]. unfold sizes. cbn [fst snd hd]. rewrite length_map, slice2_length, Hl.
    replace (2 * r + 1 - 1 + 1) with (1 + r * 2) by lia.
    replace (2 * r + 1 + 1) with (0 + (r + 1) * 2) by lia.
    rewrite !Nat.div_add by lia. simpl. lia.
  - (* the cells from column 1 on are one fewer *)
    destruct Hodd as [Ho|Ho]; [discriminate|].
    apply andb_false_iff. right. apply andb_false_iff. left.
    assert (Hev : Nat.even h = true) by (rewrite <- Nat.negb_odd, Eh; reflexivity).
    apply Nat.even_spec in Hev. destruct Hev as [r ->].
    apply Nat.odd_spec in Ho. destruct Ho as [q ->].
    pose proof (sub_batch 0 1 c (2 * r) (2 * q + 1) x Hx) as Hb.
    rewrite (sizes_of c _ _ _ Hb (Hnes 0 1) Hc), Hlen, H00.
    + unfold sizes_eqb. cbn [fst snd]. rewrite Nat.eqb_refl. cbn [andb].
      apply andb_false_iff. right. apply Nat.eqb_neq.
      replace (2 * q + 1 - 1 + 1) with (1 + q * 2) by lia.
      replace (2 * q + 1 + 1) with (0 + (q + 1) * 2) by lia.
      rewrite !Nat.div_add by lia. simpl. lia.
    + apply Nat.div_str_pos. lia.
Qed.

End Focus.

Definition strip_2x4 : tensor4 nat := [[ [[0; 1; 2; 3]; [4; 5; 6; 7]] ]].

Definition strip_3x4 : tensor4 nat := [[ [[0; 1; 2; 3]; [4; 5; 6; 7]; [8; 9; 10; 11]] ]].

Example focus_2x4 :
  cat [sub 0 0 strip_2x4; sub 1 0 strip_2x4; sub 0 1 strip_2x4; sub 1 1 strip_2x4]
  = Ok [[ [[0; 2]]; [[4; 6]]; [[1; 3]]; [[5; 7]] ]].
Proof. reflexivity. Qed.

Lemma focus_space_to_depth_witness :
  batch_of nat 1 (2 * 1) (2 * 2) strip_2x4 /\
  exists y,
    cat [sub 0 0 strip_2x4; sub 1 0 strip_2x4; sub 0 1 strip_2x4; sub 1 1 strip_2x4] = Ok y /\
    Focus_forward (fun t => Ok t) strip_2x4 = Ok y /\
    batch_of nat (4 * 1) 1 2 y /\
    List.length y = List.length strip_2x4 /\
    forall n g ch i j,
      n < List.length strip_2x4 -> g < 4 -> ch < 1 ->
      at4 nat y n (g * 1 + ch) i j = at4 nat strip_2x4 n ch (2 * i + g mod 2) (2 * j + g / 2).
Proof.
  assert (H : batch_of nat 1 (2 * 1) (2 * 2) strip_2x4) by (repeat constructor).
  split; [exact H|].
  exact (focus_space_to_depth nat (fun t => Ok t) 1 1 2 strip_2x4 H).
Defined.

Lemma focus_odd_refused_witness :
  batch_of nat 1 3 4 strip_3x4 /\
  Focus_forward (fun t => Ok t) strip_3x4 = Raise RuntimeError.
Proof.
  assert (H : batch_of nat 1 3 4 strip_3x4) by (repeat constructor).
  split; [exact H|].
  apply (focus_odd_refused nat (fun t => Ok t) 1 3 4 strip_3x4 H);
    [discriminate | lia | lia | lia | left; reflexivity].
Defined.

End FocusFacts.

(** ** TransformerBlock keeps the positions *)

Module TrBlockFacts.

Import Tensor TensorFacts ReorgFacts ReorgCells TrBlock.
Local Open Scope py_scope.

(** The sequence [x.flatten(2).permute(2, 0, 1)] of a tensor of shape
    [(b, c, w, h)]. *)
Definition tokens {A : Type} (b c w h : nat) (x : t A) : t A :=
  permute (Make [b; c; w * h] (data x)) [2; 0; 1].

Lemma tokens_cell {A : Type} (b c w h : nat) (x : t A) (n ch i j : nat) (d : A) :
  shape x = [b; c; w; h] -> wf x ->
  n < b -> ch < c -> i < w -> j < h ->
  at_index (tokens b c w h x) [i * h + j; n; ch] d = at_index x [n; ch; i; j] d.
Proof.
  intros Hsh Hwf Hn Hch Hi Hj.
  destruct x as [sh dx]. cbn [shape] in Hsh. subst sh.
  pose proof (mul_lt_slot w h i j Hi Hj) as Ht.
  unfold at_index, tokens. cbn [data].
  set (x3 := Make [b; c; w * h] dx).
  assert (Hwf3 : wf x3) by (unfold wf in *; cbn in *; rewrite Hwf; ring).
  rewrite permute_nth; [|in_bounds|in_bounds|assumption].
  unfold x3. compute_index. cbn [data ravel numel fold_right]. f_equal. ring.
Qed.

Lemma tokens_wf {A : Type} (b c w h : nat) (x : t A) :
  shape x = [b; c; w; h] -> wf x ->
  shape (tokens b c w h x) = [w * h; b; c] /\ wf (tokens b c w h x).
Proof.
  intros Hsh Hwf. split; [reflexivity|].
  apply permute_wf; [|cbn; ring].
  unfold wf in *. rewrite Hsh in Hwf. cbn in *. rewrite Hwf. ring.
Qed.

(** X27: [TransformerBlock.forward] (with [c1 = c2], so without the
    convolution) lays the positions of the feature map out as a sequence:
    the entry of the sequence at place [i * h + j], image [n] and channel
    [ch] is the cell of the input at [(n, ch, i, j)], and the cell of the
    output at [(n, ch, i, j)] is the entry at that place of what the layers
    return.  Layers that return their sequence make the block the
    identity. *)
Theorem transformer_block_positions {A : Type} (b c w h : nat) (x : t A) :
  shape x = [b; c; w; h] -> wf x ->
  (forall n ch i j d, n < b -> ch < c -> i < w -> j < h ->
     at_index (tokens b c w h x) [i * h + j; n; ch] d = at_index x [n; ch; i; j] d) /\
  (forall layers q,
     layers (tokens b c w h x) = Ok q -> shape q = [w * h; b; c] -> wf q ->
     exists y,
       TransformerBlock_forward None layers c x = Ok y /\
       shape y = [b; c; w; h] /\ wf y /\
       forall n ch i j d, n < b -> ch < c -> i < w -> j < h ->
         at_index y [n; ch; i; j] d = at_index q [i * h + j; n; ch] d) /\
  TransformerBlock_forward None (fun p => Ok p) c x = Ok x.
Proof.
  intros Hsh Hwf.
  assert (Hrun : forall layers q,
     layers (tokens b c w h x) = Ok q -> shape q = [w * h; b; c] -> wf q ->
     exists y,
       TransformerBlock_forward None layers c x = Ok y /\
       shape y = [b; c; w; h] /\ wf y /\
       forall n ch i j d, n < b -> ch < c -> i < w -> j < h ->
         at_index y [n; ch; i; j] d = at_index q [i * h + j; n; ch] d).
  { intros layers q Hq Hshq Hwfq.
    unfold TransformerBlock_forward. cbn [Py.bind]. rewrite Hsh.
    rewrite view_ok by (rewrite Hsh; cbn; ring). cbn [Py.bind].
    unfold permute_checked at 1. cbn [shape List.length Nat.eqb Py.bind].
    fold (tokens b c w h x). rewrite Hq. cbn [Py.bind].
    unfold permute_checked. rewrite Hshq. cbn [List.length Nat.eqb Py.bind].
    assert (Hwfp : wf (permute q [1; 2; 0])).
    { apply permute_wf; [assumption|]. unfold permute. rewrite Hshq. cbn. ring. }
    assert (Hshp : shape (permute q [1; 2; 0]) = [b; c; w * h])
      by (unfold permute; now rewrite Hshq).
    rewrite view_ok by (rewrite Hshp; cbn; ring).
    eexists. split; [reflexivity|]. split; [reflexivity|]. split.
    - unfold wf in Hwfp |- *. cbn [shape data]. rewrite Hwfp, Hshp. cbn. ring.
    - intros n ch i j d Hn Hch Hi Hj.
      pose proof (mul_lt_slot w h i j Hi Hj) as Ht.
      unfold at_index. cbn [shape data].
      replace (ravel [b; c; w; h] [n; ch; i; j])
        with (ravel (shape (permute q [1; 2; 0])) [n; ch; i * h + j])
        by (rewrite Hshp; cbn; ring).
      rewrite permute_nth; [| rewrite Hshp; repeat constructor; assumption
                            | rewrite Hshq; in_bounds | assumption].
      rewrite Hshq. compute_index. reflexivity. }
  split; [|split; [exact Hrun|]].
  - intros n ch i j d. now apply tokens_cell.
  - destruct (tokens_wf b c w h x Hsh Hwf) as [Hsht Hwft].
    destruct (Hrun (fun p => Ok p) (tokens b c w h x) eq_refl Hsht Hwft)
      as (y & Hy & Hshy & Hwfy & Hcell).
    rewrite Hy. f_equal. apply tensor_ext; trivial; [congruence|].
    intros idx d Hidx. rewrite Hshy in Hidx. coordinates Hidx.
    match goal with
    | |- nth (ravel (shape y) ?k) (data y) d = _ =>
        change (at_index y k d = nth (ravel (shape y) k) (data x) d)
    end.
    rewrite Hcell by assumption.
    rewrite tokens_cell by assumption. unfold at_index. now rewrite Hsh, Hshy.
Qed.

Definition tiny : t nat := Make [1; 2; 2; 3] (seq 0 12).

Lemma transformer_block_positions_witness :
  shape tiny = [1; 2; 2; 3] /\ wf tiny /\
  TransformerBlock_forward None (fun p => Ok p) 2 tiny = Ok tiny.
Proof.
  split; [reflexivity|]. split; [reflexivity|].
  apply (transformer_block_positions 1 2 2 3 tiny); reflexivity.
Defined.

End TrBlockFacts.

(** ** CBAM gates every cell twice *)

Module CBAMFacts.

Import Pool ListFacts ListMore PoolFacts PyFacts Attention AttentionFacts CBAM.

Lemma SpatialAttention_same (k : nat) (wts : list (list (list R))) (m : SpatialAttention) :
  SpatialAttention_init k wts = Ok m ->
  (k = 3 \/ k = 7) /\ kernel_size m = k /\ kernel_size m = 2 * padding m + 1.
Proof.
  unfold SpatialAttention_init. intros H.
  destruct (k =? 3) eqn:E3; [apply Nat.eqb_eq in E3; subst k; simpl in H|].
  - injection H as <-. simpl. auto.
  - destruct (k =? 7) eqn:E7; simpl in H; [|discriminate].
    apply Nat.eqb_eq in E7. subst k. injection H as <-. simpl. auto.
Qed.

Lemma table_rect (h w : nat) (f : nat -> nat -> R) : rect R h w (table h w f).
Proof.
  unfold table. split; [now rewrite length_map, length_seq|].
  apply Forall_map, Forall_forall. intros i _. now rewrite length_map, length_seq.
Qed.

Lemma table_cell (h w : nat) (f : nat -> nat -> R) (i j : nat) :
  i < h -> j < w -> cell (table h w f) i j = Some (f i j).
Proof.
  intros Hi Hj. unfold cell, table.
  rewrite (nth_map_seq (fun i => map (fun j => f i j) (seq 0 w)) h i []) by assumption.
  rewrite nth_error_map, nth_error_nth' with (d := 0) by (rewrite length_seq; lia).
  now rewrite seq_nth.
Qed.

Lemma map_table (g : R -> R) (h w : nat) (f : nat -> nat -> R) :
  map (map g) (table h w f) = table h w (fun i j => g (f i j)).
Proof.
  unfold table. rewrite map_map. apply map_ext. intros i. now rewrite map_map.
Qed.

Lemma conv2d_same (m : SpatialAttention) (ps : list (plane R)) (h w : nat) :
  kernel_size m = 2 * padding m + 1 -> 0 < h -> 0 < w ->
  conv2d m ps h w = Ok (table h w (conv_cell m ps)).
Proof.
  intros Hk Hh Hw. unfold conv2d. rewrite Hk.
  replace (h + 2 * padding m <? 2 * padding m + 1) with false
    by (symmetry; apply Nat.ltb_ge; lia).
  replace (w + 2 * padding m <? 2 * padding m + 1) with false
    by (symmetry; apply Nat.ltb_ge; lia).
  simpl orb. cbv iota.
  replace (h + 2 * padding m + 1 - (2 * padding m + 1)) with h by lia.
  replace (w + 2 * padding m + 1 - (2 * padding m + 1)) with w by lia.
  reflexivity.
Qed.

Lemma spatial_of (c h w : nat) (img : list (plane R)) :
  List.length img = c -> Forall (rect R h w) img -> 0 < c -> 0 < h ->
  spatial img = (h, w).
Proof.
  intros Hc Hp H0c H0h. destruct img as [|p img]; [simpl in Hc; lia|].
  inversion Hp as [|? ? Hr _]; subst. unfold spatial. simpl.
  f_equal; [exact (proj1 Hr)|]. now apply rect_hd with (h := h).
Qed.

(** The plane of gates of one image. *)
Definition gate (m : SpatialAttention) (img : list (plane R)) : plane R :=
  table (fst (spatial img)) (snd (spatial img))
        (fun i j => sigmoid (conv_cell m [channel_mean img; channel_top img] i j)).

Lemma SpatialAttention_gates (c h w : nat) (m : SpatialAttention) (x : tensor) :
  kernel_size m = 2 * padding m + 1 -> 0 < c -> 0 < h -> 0 < w ->
  batch_of R c h w x ->
  SpatialAttention_forward m x = Ok (map (gate m) x).
Proof.
  intros Hk H0c H0h H0w Hx. unfold SpatialAttention_forward.
  apply mapM_map. intros img Hin.
  unfold batch_of in Hx. rewrite Forall_forall in Hx.
  destruct (Hx img Hin) as [Hc Hp].
  unfold gate. rewrite (spatial_of c h w img Hc Hp H0c H0h). cbn [fst snd].
  unfold channel_max. destruct img as [|p img]; [simpl in Hc; lia|].
  cbn [Py.bind]. rewrite conv2d_same by assumption. cbn [Py.bind].
  now rewrite map_table.
Qed.

Lemma gate_rect (c h w : nat) (m : SpatialAttention) (img : list (plane R)) :
  List.length img = c -> Forall (rect R h w) img -> 0 < c -> 0 < h ->
  rect R h w (gate m img).
Proof.
  intros Hc Hp H0c H0h. unfold gate.
  rewrite (spatial_of c h w img Hc Hp H0c H0h). apply table_rect.
Qed.

Lemma gate_cell (c h w : nat) (m : SpatialAttention) (img : list (plane R)) (i j : nat) :
  List.length img = c -> Forall (rect R h w) img -> 0 < c -> 0 < h ->
  i < h -> j < w ->
  exists s, cell (gate m img) i j = Some s /\ (0 < s < 1)%R.
Proof.
  intros Hc Hp H0c H0h Hi Hj. unfold gate.
  rewrite (spatial_of c h w img Hc Hp H0c H0h). cbn [fst snd].
  rewrite table_cell by assumption. eexists. split; [reflexivity|].
  apply sigmoid_bounds.
Qed.

Lemma rect_shape (h w : nat) (p : plane R) :
  rect R h w p -> plane_shape p = (h, repeat w h).
Proof.
  intros [Hh Hw]. unfold plane_shape. rewrite Hh. f_equal. subst h.
  induction Hw as [|row p Hr _ IH]; simpl; [reflexivity|]. now rewrite Hr, IH.
Qed.

Lemma plane_shape_same (h w : nat) (p q : plane R) :
  rect R h w p -> rect R h w q ->
  plane_shape_eqb (plane_shape p) (plane_shape q) = true.
Proof.
  intros Hp Hq. rewrite (rect_shape h w p Hp), (rect_shape h w q Hq).
  unfold plane_shape_eqb. cbn [fst snd].
  now rewrite Nat.eqb_refl, ForwardFacts.shape_eqb_refl.
Qed.

(** [x] with each channel of an image multiplied by the plane of gates of
    the image. *)
Definition gated (g : list (plane R)) (x : tensor) : tensor :=
  map (fun gi => map (zip_plane Rmult (fst gi)) (snd gi)) (combine g x).

(** The sum of two batches, cell by cell. *)
Definition summed (x y : tensor) : tensor :=
  map (fun ab => map (fun pq => zip_plane Rplus (fst pq) (snd pq))
                     (combine (fst ab) (snd ab)))
      (combine x y).

(** The gate of image [n] at row [i] and column [j]. *)
Definition gate_at (g : list (plane R)) (n i j : nat) : option R :=
  match nth_error g n with
  | Some p => cell p i j
  | None => None
  end.

Lemma mul_gate_ok (c h w : nat) (g : list (plane R)) (x : tensor) :
  List.length g = List.length x -> Forall (rect R h w) g -> batch_of R c h w x ->
  mul_gate g x = Ok (gated g x).
Proof.
  intros Hl Hg Hx. unfold mul_gate, gated. rewrite Hl, Nat.eqb_refl.
  apply mapM_map. intros [gi img] Hin. cbn [fst snd].
  apply mapM_map. intros p Hp.
  unfold batch_of in Hx. rewrite Forall_forall in Hx, Hg.
  destruct (Hx img (in_combine_r _ _ _ _ Hin)) as [_ Hr]. rewrite Forall_forall in Hr.
  now rewrite (plane_shape_same h w gi p (Hg gi (in_combine_l _ _ _ _ Hin)) (Hr p Hp)).
Qed.

Lemma plus_ok (c h w : nat) (x y : tensor) :
  List.length x = List.length y -> batch_of R c h w x -> batch_of R c h w y ->
  plus x y = Ok (summed x y).
Proof.
  intros Hl Hx Hy. unfold plus, summed. rewrite Hl, Nat.eqb_refl.
  apply mapM_map. intros [a b] Hin. cbn [fst snd].
  unfold batch_of in Hx, Hy. rewrite Forall_forall in Hx, Hy.
  destruct (Hx a (in_combine_l _ _ _ _ Hin)) as [Ha Ra].
  destruct (Hy b (in_combine_r _ _ _ _ Hin)) as [Hb Rb].
  rewrite Ha, Hb, Nat.eqb_refl.
  apply mapM_map. intros [p q] Hpq. cbn [fst snd].
  rewrite Forall_forall in Ra, Rb.
  now rewrite (plane_shape_same h w p q (Ra p (in_combine_l _ _ _ _ Hpq))
                 (Rb q (in_combine_r _ _ _ _ Hpq))).
Qed.

Lemma zip_plane_rect (op : R -> R -> R) (h w : nat) (a b : plane R) :
  rect R h w a -> rect R h w b -> rect R h w (zip_plane op a b).
Proof.
  intros [Ha Ra] [Hb Rb]. unfold zip_plane. split.
  - rewrite length_map, length_combine. lia.
  - apply Forall_map, Forall_forall. intros [u v] Hin. cbn [fst snd].
    rewrite Forall_forall in Ra, Rb.
    rewrite length_map, length_combine,
      (Ra u (in_combine_l _ _ _ _ Hin)), (Rb v (in_combine_r _ _ _ _ Hin)).
    apply Nat.min_id.
Qed.

Lemma zip_plane_cell (op : R -> R -> R) (a b : plane R) (i j : nat) (s v : R) :
  cell a i j = Some s -> cell b i j = Some v ->
  cell (zip_plane op a b) i j = Some (op s v).
Proof.
  unfold cell, zip_plane. intros Hs Hv.
  assert (Hi : forall (q : plane R) t, nth_error (nth i q []) j = Some t -> i < List.length q).
  { intros q t H. destruct (Nat.lt_ge_cases i (List.length q)) as [|Hge]; [assumption|].
    rewrite nth_overflow in H by assumption. now destruct j. }
  pose proof (Hi a s Hs) as Hia. pose proof (Hi b v Hv) as Hib.
  rewrite (nth_map_default _ _ i ([], []) []) by reflexivity.
  rewrite (nth_error_nth (combine a b) i ([], []) (x := (nth i a [], nth i b [])))
    by (apply nth_error_combine; now apply nth_error_nth').
  cbn [fst snd].
  rewrite nth_error_map, (nth_error_combine _ _ j s v Hs Hv). reflexivity.
Qed.

Lemma gated_batch (c h w : nat) (g : list (plane R)) (x : tensor) :
  Forall (rect R h w) g -> batch_of R c h w x -> batch_of R c h w (gated g x).
Proof.
  intros Hg Hx. unfold batch_of, gated in *. rewrite Forall_forall in Hg, Hx.
  apply Forall_map, Forall_forall. intros [gi img] Hin. cbn [fst snd].
  destruct (Hx img (in_combine_r _ _ _ _ Hin)) as [Hc Hr]. split.
  - now rewrite length_map.
  - apply Forall_map. apply Forall_impl with (2 := Hr). intros p Hp.
    apply zip_plane_rect; [|assumption]. apply Hg. exact (in_combine_l _ _ _ _ Hin).
Qed.

Lemma gated_cell (g : list (plane R)) (x : tensor) (n ch i j : nat) (s v : R) :
  gate_at g n i j = Some s -> cell4 x n ch i j = Some v ->
  cell4 (gated g x) n ch i j = Some (s * v)%R.
Proof.
  unfold gate_at, cell4, gated. intros Hs Hv.
  destruct (nth_error g n) as [gi|] eqn:Eg; [|discriminate].
  destruct (nth_error x n) as [img|] eqn:Ex; [|discriminate].
  destruct (nth_error img ch) as [p|] eqn:Ep; [|discriminate].
  rewrite nth_error_map, (nth_error_combine _ _ n gi img Eg Ex). cbn [option_map fst snd].
  rewrite nth_error_map, Ep. cbn [option_map].
  now apply zip_plane_cell.
Qed.

Lemma summed_batch (c h w : nat) (x y : tensor) :
  batch_of R c h w x -> batch_of R c h w y -> batch_of R c h w (summed x y).
Proof.
  intros Hx Hy. unfold batch_of, summed in *. rewrite Forall_forall in Hx, Hy.
  apply Forall_map, Forall_forall. intros [a b] Hin. cbn [fst snd].
  destruct (Hx a (in_combine_l _ _ _ _ Hin)) as [Ha Ra].
  destruct (Hy b (in_combine_r _ _ _ _ Hin)) as [Hb Rb]. split.
  - rewrite length_map, length_combine. lia.
  - apply Forall_map, Forall_forall. intros [p q] Hpq. cbn [fst snd].
    rewrite Forall_forall in Ra, Rb.
    apply zip_plane_rect; [apply Ra|apply Rb].
    + exact (in_combine_l _ _ _ _ Hpq).
    + exact (in_combine_r _ _ _ _ Hpq).
Qed.

Lemma summed_cell (x y : tensor) (n ch i j : nat) (u t : R) :
  cell4 x n ch i j = Some u -> cell4 y n ch i j = Some t ->
  cell4 (summed x y) n ch i j = Some (u + t)%R.
Proof.
  unfold cell4, summed. intros Hu Ht.
  destruct (nth_error x n) as [a|] eqn:Ex; [|discriminate].
  destruct (nth_error y n) as [b|] eqn:Ey; [|discriminate].
  destruct (nth_error a ch) as [p|] eqn:Ep; [|discriminate].
  destruct (nth_error b ch) as [q|] eqn:Eq; [|discriminate].
  rewrite nth_error_map, (nth_error_combine _ _ n a b Ex Ey). cbn [option_map fst snd].
  rewrite nth_error_map, (nth_error_combine _ _ ch p q Ep Eq). cbn [option_map fst snd].
  now apply zip_plane_cell.
Qed.

Lemma gates_at (c h w : nat) (m : SpatialAttention) (x : tensor) (n ch i j : nat) (v : R) :
  0 < h -> batch_of R c h w x -> cell4 x n ch i j = Some v ->
  exists s, gate_at (map (gate m) x) n i j = Some s /\ (0 < s < 1)%R.
Proof.
  intros H0h Hx Hv. unfold gate_at, cell4 in *. rewrite nth_error_map.
  destruct (nth_error x n) as [img|] eqn:Ex; [|discriminate]. cbn [option_map].
  destruct (nth_error img ch) as [p|] eqn:Ep; [|discriminate].
  unfold batch_of in Hx. rewrite Forall_forall in Hx.
  destruct (Hx img (nth_error_In _ _ Ex)) as [Hc Hr].
  assert (H0c : 0 < c).
  { rewrite <- Hc. destruct img; [now destruct ch|simpl; lia]. }
  rewrite Forall_forall in Hr.
  destruct (cell_bounds R h w p i j v (Hr p (nth_error_In _ _ Ep)) Hv) as [Hi Hj].
  apply (gate_cell c h w); trivial. now apply Forall_forall.
Qed.

Lemma weight_bounds (ws : per_channel) (n ch : nat) (a : R) :
  Forall (Forall (fun wt => (0 < wt < 1)%R)) ws -> weight_at ws n ch = Some a ->
  (0 < a < 1)%R.
Proof.
  unfold weight_at. intros H Ha.
  destruct (nth_error ws n) as [wi|] eqn:En; [|discriminate].
  rewrite Forall_forall in H. pose proof (H wi (nth_error_In _ _ En)) as Hw.
  rewrite Forall_forall in Hw. exact (Hw a (nth_error_In _ _ Ha)).
Qed.

Lemma cell4_bounds (c h w : nat) (x : tensor) (n ch i j : nat) (v : R) :
  batch_of R c h w x -> cell4 x n ch i j = Some v ->
  n < List.length x /\ ch < c /\ i < h /\ j < w.
Proof.
  unfold cell4, batch_of. intros Hx Hv.
  destruct (nth_error x n) as [img|] eqn:Ex; [|discriminate].
  destruct (nth_error img ch) as [p|] eqn:Ep; [|discriminate].
  rewrite Forall_forall in Hx. destruct (Hx img (nth_error_In _ _ Ex)) as [Hc Hr].
  rewrite Forall_forall in Hr.
  destruct (cell_bounds R h w p i j v (Hr p (nth_error_In _ _ Ep)) Hv) as [Hi Hj].
  repeat split; trivial.
  - apply nth_error_Some. congruence.
  - rewrite <- Hc. apply nth_error_Some. congruence.
Qed.

Lemma cell4_some (c h w : nat) (x : tensor) (n ch i j : nat) :
  batch_of R c h w x -> n < List.length x -> ch < c -> i < h -> j < w ->
  exists u, cell4 x n ch i j = Some u.
Proof.
  unfold cell4, batch_of. intros Hx Hn Hch Hi Hj.
  destruct (nth_error x n) as [img|] eqn:Ex; [|apply nth_error_None in Ex; lia].
  rewrite Forall_forall in Hx. destruct (Hx img (nth_error_In _ _ Ex)) as [Hc Hr].
  destruct (nth_error img ch) as [p|] eqn:Ep; [|apply nth_error_None in Ep; lia].
  rewrite Forall_forall in Hr.
  exact (cell_some R h w p i j (Hr p (nth_error_In _ _ Ep)) Hi Hj).
Qed.

(** X28: [CBAMBottleneck.forward] succeeds on a batch whose convolutions give
    [c] channels of positive height and width, for a channel attention
    built for [c] channels with a ratio of at most [c] and a spatial
    attention of kernel 3 or 7; the result has the shape of the
    convolutions' output [x1], and each of its cells is the cell [v] of
    that output times a weight of its image and channel and times a gate of
    its image and position, both strictly between 0 and 1; with the
    shortcut the cell of the input is added to it. *)
Theorem cbam_gates_twice (c h w r k : nat) (wts : list (list (list R)))
    (cv : tensor -> result tensor) (add : bool) (ca : ChannelAttention)
    (sa : SpatialAttention) (x x1 : tensor) :
  cv x = Ok x1 -> batch_of R c h w x1 -> 0 < h -> 0 < w -> 0 < r <= c ->
  ChannelAttention_init c r ca -> SpatialAttention_init k wts = Ok sa ->
  (add = true -> batch_of R c h w x /\ List.length x = List.length x1) ->
  exists (out : tensor) (wc : per_channel) (ws : list (plane R)),
    CBAMBottleneck_forward cv add ca sa x = Ok out /\
    batch_of R c h w out /\ List.length out = List.length x1 /\
    forall n ch i j v,
      cell4 x1 n ch i j = Some v ->
      exists a s,
        weight_at wc n ch = Some a /\ gate_at ws n i j = Some s /\
        (0 < a < 1)%R /\ (0 < s < 1)%R /\
        if add
        then exists u, cell4 x n ch i j = Some u /\
                       cell4 out n ch i j = Some (u + s * (v * a))%R
        else cell4 out n ch i j = Some (s * (v * a))%R.
Proof.
  intros Hcv Hx H0h H0w Hr Hca Hsa Hadd.
  destruct (SpatialAttention_same k wts sa Hsa) as (_ & _ & Hk).
  destruct (channel_reweights c h w r ca x1 Hx H0h H0w Hr Hca)
    as (zs & Hm & E1 & Hb & Hcell & Hl1 & Hx1).
  cbv zeta in *. set (wc := pointwise sigmoid zs) in *.
  set (y1 := times x1 wc) in *.
  assert (H0c : 0 < c) by lia.
  assert (Hgl : List.length (map (gate sa) y1) = List.length y1) by apply length_map.
  assert (Hg : Forall (rect R h w) (map (gate sa) y1)).
  { apply Forall_map. unfold batch_of in Hx1. apply Forall_impl with (2 := Hx1).
    intros img [Hc Hp]. now apply (gate_rect c h w). }
  assert (E2 : SpatialAttention_forward sa y1 = Ok (map (gate sa) y1))
    by now apply (SpatialAttention_gates c h w).
  pose proof (mul_gate_ok c h w _ y1 Hgl Hg Hx1) as E3.
  set (y2 := gated (map (gate sa) y1) y1) in *.
  assert (Hx2 : batch_of R c h w y2) by now apply gated_batch.
  assert (Hl2 : List.length y2 = List.length x1).
  { unfold y2, gated. rewrite length_map, length_combine, Hgl, Nat.min_id. exact Hl1. }
  assert (Hc2 : forall n ch i j v,
             cell4 x1 n ch i j = Some v ->
             exists a s, weight_at wc n ch = Some a /\
                         gate_at (map (gate sa) y1) n i j = Some s /\
                         (0 < a < 1)%R /\ (0 < s < 1)%R /\
                         cell4 y2 n ch i j = Some (s * (v * a))%R).
  { intros n ch i j v Hv. destruct (Hcell n ch i j v Hv) as (a & Ha & Hva).
    destruct (gates_at c h w sa y1 n ch i j _ H0h Hx1 Hva) as (s & Hs & Hsb).
    exists a, s. repeat split; trivial; try apply (weight_bounds wc n ch a Hb Ha);
      try apply Hsb.
    now apply gated_cell. }
  assert (E : CBAMBottleneck_forward cv add ca sa x
              = if add then plus x y2 else Ok y2).
  { unfold CBAMBottleneck_forward. rewrite Hcv. cbn [Py.bind].
    rewrite E1. cbn [Py.bind]. fold y1.
    rewrite E2. cbn [Py.bind]. rewrite E3. reflexivity. }
  destruct add.
  - destruct (Hadd eq_refl) as [Hxs Hxl].
    rewrite (plus_ok c h w x y2) in E by (trivial; lia).
    exists (summed x y2), wc, (map (gate sa) y1). split; [exact E|].
    split; [now apply summed_batch|]. split.
    + unfold summed. rewrite length_map, length_combine. lia.
    + intros n ch i j v Hv. destruct (Hc2 n ch i j v Hv) as (a & s & Ha & Hs & Hab & Hsb & Hv2).
      exists a, s. repeat split; trivial; try apply Hab; try apply Hsb.
      destruct (cell4_bounds c h w x1 n ch i j v Hx Hv) as (Hn & Hch & Hi & Hj).
      destruct (cell4_some c h w x n ch i j Hxs) as [u Hu]; trivial; [lia|].
      exists u. split; [exact Hu|]. now apply summed_cell.
  - exists y2, wc, (map (gate sa) y1). split; [exact E|]. split; [exact Hx2|].
    split; [exact Hl2|].
    intros n ch i j v Hv. destruct (Hc2 n ch i j v Hv) as (a & s & Ha & Hs & Hab & Hsb & Hv2).
    exists a, s. repeat split; trivial; try apply Hab; try apply Hsb.
Qed.

(** One image of one channel of one cell. *)
Definition one_cell : tensor := [[ [[2]] ]]%R.

Definition one_channel : ChannelAttention :=
  MkCA (MkLinear 1 [[1]]%R) (MkLinear 1 [[1]]%R).

(** A spatial attention of kernel 3 whose convolution adds the mean and
    the maximum of the channels at the centre of the window. *)
Definition centre : list (list (list R)) :=
  [ [[0; 0; 0]; [0; 1; 0]; [0; 0; 0]]; [[0; 0; 0]; [0; 1; 0]; [0; 0; 0]] ]%R.

Lemma cbam_gates_twice_witness :
  batch_of R 1 1 1 one_cell /\ 0 < 1 <= 1 /\ ChannelAttention_init 1 1 one_channel /\
  SpatialAttention_init 3 centre = Ok (MkSA 3 1 centre) /\
  exists (out : tensor) (wc : per_channel) (ws : list (plane R)),
    CBAMBottleneck_forward (fun y => Ok y) true one_channel (MkSA 3 1 centre) one_cell
    = Ok out /\
    batch_of R 1 1 1 out /\ List.length out = 1 /\
    forall n ch i j v,
      cell4 one_cell n ch i j = Some v ->
      exists a s,
        weight_at wc n ch = Some a /\ gate_at ws n i j = Some s /\
        (0 < a < 1)%R /\ (0 < s < 1)%R /\
        exists u, cell4 one_cell n ch i j = Some u /\
                  cell4 out n ch i j = Some (u + s * (v * a))%R.
Proof.
  assert (Hx : batch_of R 1 1 1 one_cell) by (repeat constructor).
  assert (Hm : ChannelAttention_init 1 1 one_channel) by (repeat constructor).
  split; [exact Hx|]. split; [lia|]. split; [exact Hm|]. split; [reflexivity|].
  apply (cbam_gates_twice 1 1 1 1 3 centre (fun y => Ok y) true one_channel
           (MkSA 3 1 centre) one_cell one_cell); trivial; try lia.
  intros _. split; [exact Hx|reflexivity].
Defined.

End CBAMFacts.
